(** * Auriga editor: a shallow embedding of the terminal editor and its properties

    The repository holds two variants of the same single-file C program:
    - [src/editor.c], version 0.1 (module [V1] below);
    - the listing carried by [src/README.md], version 0.3 (module [V3]),
      which adds the preferred column, paging, search, the quit
      confirmation and the atomic save.

    Conventions of the embedding.
    - C [int] values are [Z].  Signed overflow is undefined in C, so the
      model covers the executions that stay within range.  Two
      computations take their operands straight from the input or from
      the size of the buffer, [parse_num] and [percent_through]: there
      the 32-bit two's-complement wrap-around of the compiled program is
      written out ([wrap32]).  The capacity doubling of
      [buffer_ensure_capacity] stays in [Z]; it is the C doubling as long
      as the result is below [2^31].
    - A [char*] line is the list of the bytes of its heap block, the
      terminating NUL and any slack behind it included.  Bytes read from
      a file or the keyboard are in [0, 255].
    - The global variables are threaded explicitly through every function.
    - A C function that can run into undefined behaviour, block for ever,
      or terminate the process returns a [res]. *)

From stdpp Require Import base tactics option list sorting gmap strings.
From Stdlib Require Import ZArith Lia.

Open Scope Z_scope.

(** ** Outcomes *)

Inductive halt : Type :=
| Fault     (* an access outside the memory the model describes: outside a
               heap block, or at an array slot that holds no line *)
| Starved   (* blocked in read(2) for ever: the scripted input ran out *)
| Died      (* die() was called: exit status 1 *)
| Hang.     (* a loop that does not terminate *)

Inductive res (A : Type) : Type :=
| Ok (a : A)
| Err (h : halt).
Arguments Ok {A} a.
Arguments Err {A} h.

#[global] Instance res_ret : MRet res := @Ok.
#[global] Instance res_bind : MBind res :=
  λ A B f m, match m with Ok a => f a | Err h => Err h end.

(** ** C memory primitives on one heap block *)

Abbreviation block := (list Z).

Definition Zlen {A} (l : list A) : Z := Z.of_nat (length l).

(** Content of freshly allocated bytes: a value no byte has. *)
Definition indeterminate : Z := -1.

Definition malloc (n : Z) : block := replicate (Z.to_nat n) indeterminate.

Definition realloc (blk : block) (n : Z) : block :=
  take (Z.to_nat n) blk ++ replicate (Z.to_nat n - length blk) indeterminate.

(** [memcpy (dst + off) src n], with [src] the bytes readable from the
    source pointer on. *)
Definition memcpy (dst : block) (off : Z) (src : list Z) (n : Z) : res block :=
  if decide (0 ≤ off ∧ 0 ≤ n ∧ off + n ≤ Zlen dst ∧ n ≤ Zlen src)
  then Ok (take (Z.to_nat off) dst ++ take (Z.to_nat n) src
             ++ drop (Z.to_nat (off + n)) dst)
  else Err Fault.

(** [memmove (blk + to) (blk + from) n] inside one block. *)
Definition memmove (blk : block) (to from n : Z) : res block :=
  if decide (0 ≤ from) then memcpy blk to (drop (Z.to_nat from) blk) n
  else Err Fault.

(** [blk[i] = v] *)
Definition poke (blk : block) (i v : Z) : res block :=
  if decide (0 ≤ i < Zlen blk) then Ok (<[Z.to_nat i := v]> blk) else Err Fault.

(** The C string held by a block: the bytes before the first NUL. *)
Fixpoint cstring (blk : list Z) : list Z :=
  match blk with
  | [] => []
  | x :: r => if decide (x = 0) then [] else x :: cstring r
  end.

Definition strlen (blk : list Z) : Z := Zlen (cstring blk).

(** Whether a NUL terminates the bytes at all. *)
Definition terminated (blk : list Z) : Prop := 0 ∈ blk.

(** Prefix test and [strstr] on string values; the result of [strstr] is
    the offset of the first occurrence. *)
Fixpoint starts_with (needle hay : list Z) : bool :=
  match needle, hay with
  | [], _ => true
  | _ :: _, [] => false
  | x :: n', y :: h' => bool_decide (x = y) && starts_with n' h'
  end.

Fixpoint strstr_val (hay needle : list Z) : option Z :=
  if starts_with needle hay then Some 0
  else match hay with
       | [] => None
       | _ :: h' => Z.succ <$> strstr_val h' needle
       end.

(** [strstr (blk + off) needle]: offset of the match from [blk], where
    [needle] is the string value of the query. *)
Definition strstr (blk : block) (off : Z) (needle : list Z) : res (option Z) :=
  if decide (0 ≤ off ≤ Zlen blk ∧ terminated (drop (Z.to_nat off) blk))
  then Ok ((λ i, off + i) <$> strstr_val (cstring (drop (Z.to_nat off) blk)) needle)
  else Err Fault.

(** ** The line buffer *)

Record Buffer : Type := mkBuffer {
  lines : list block;   (* char **lines, slots [0, count) *)
  len   : list Z;       (* int *len,     slots [0, count) *)
  count : Z;
  cap   : Z
}.

(** The two globals the buffer functions touch: [buf] and [dirty]. *)
Record Doc : Type := mkDoc {
  buf   : Buffer;
  dirty : bool
}.

(** [a[i]] for a used slot.  The model keeps the [count] used slots of
    [lines] and [len] and nothing of the [cap - count] spare ones, which
    in C hold what [calloc], [realloc] or an earlier shift left there.
    An index outside [0, count) therefore answers [Fault]: the execution
    leaves what the model describes, whether or not the C program would
    crash there.  The theorems below show that this does not happen;
    none concludes it. *)
Definition slot {A} (a : list A) (i : Z) : res A :=
  if decide (0 ≤ i) then
    match a !! Z.to_nat i with Some x => Ok x | None => Err Fault end
  else Err Fault.

(** [memmove(&a[at+1], &a[at], (count - at) * size); a[at] = x] *)
Definition arr_open {A} (at_ cnt : Z) (x : A) (a : list A) : list A :=
  take (Z.to_nat at_) a ++ x :: take (Z.to_nat (cnt - at_)) (drop (Z.to_nat at_) a).

(** [memmove(&a[row], &a[row+1], (count - row - 1) * size)] *)
Definition arr_close {A} (row cnt : Z) (a : list A) : list A :=
  take (Z.to_nat row) a
    ++ take (Z.to_nat (cnt - row - 1)) (drop (Z.to_nat (row + 1)) a).

Definition buffer_init : Buffer :=
  {| lines := [[0]]; len := [0]; count := 1; cap := 64 |}.

(** [while (b->cap < need) b->cap *= 2;] with the product in [Z]: this is
    the C [int] as long as the doubled value is below [2^31], which holds
    for every [need] up to [2^30]; beyond, the C product overflows. *)
Fixpoint grow_cap (fuel : nat) (c need : Z) : res Z :=
  if decide (c < need) then
    match fuel with
    | O => Err Hang
    | S f => grow_cap f (c * 2) need
    end
  else Ok c.

Definition buffer_ensure_capacity (b : Buffer) (need : Z) : res Buffer :=
  if decide (need ≤ cap b) then Ok b
  else c ← grow_cap (Z.to_nat need) (cap b) need;
       Ok {| lines := lines b; len := len b; count := count b; cap := c |}.

Definition buffer_insert_line (d : Doc) (at_ : Z) (s : list Z) (n : Z) : res Doc :=
  if decide (at_ < 0 ∨ at_ > count (buf d)) then Ok d
  else
    b ← buffer_ensure_capacity (buf d) (count (buf d) + 1);
    blk ← memcpy (malloc (n + 1)) 0 s n;
    blk ← poke blk n 0;
    Ok {| buf := {| lines := arr_open at_ (count b) blk (lines b);
                    len := arr_open at_ (count b) n (len b);
                    count := count b + 1;
                    cap := cap b |};
          dirty := dirty d |}.

Definition buffer_join_with_prev (d : Doc) (row : Z) : res Doc :=
  let b := buf d in
  if decide (row <= 0 ∨ row >= count b) then Ok d
  else
    Lp ← slot (len b) (row - 1);
    Lc ← slot (len b) row;
    prev ← slot (lines b) (row - 1);
    cur ← slot (lines b) row;
    prev ← memcpy (realloc prev (Lp + Lc + 1)) Lp cur (Lc + 1);
    let lines1 := <[Z.to_nat (row - 1) := prev]> (lines b) in
    let len1 := <[Z.to_nat (row - 1) := Lp + Lc]> (len b) in
    Ok {| buf := {| lines := arr_close row (count b) lines1;
                    len := arr_close row (count b) len1;
                    count := count b - 1;
                    cap := cap b |};
          dirty := true |}.

Definition clamp_col (col L : Z) : Z :=
  let col := if decide (col < 0) then 0 else col in
  if decide (col > L) then L else col.

(** [buffer_init], [buffer_ensure_capacity], [buffer_insert_line] and
    [buffer_join_with_prev] above are the same text in both files.  The
    three functions below exist in two forms: version 0.3 indexes the
    arrays with [row] directly, version 0.1 first returns when [row] is not
    a line. *)

Module V3buf.

Definition buffer_append_empty (d : Doc) : res Doc :=
  buffer_insert_line d (count (buf d)) [0] 0.

Definition buffer_insert_char (d : Doc) (row col c : Z) : res Doc :=
  let b := buf d in
  L ← slot (len b) row;
  let col := clamp_col col L in
  blk ← slot (lines b) row;
  blk ← memmove (realloc blk (L + 2)) (col + 1) col (L - col + 1);
  blk ← poke blk col c;
  Ok {| buf := {| lines := <[Z.to_nat row := blk]> (lines b);
                  len := <[Z.to_nat row := L + 1]> (len b);
                  count := count b;
                  cap := cap b |};
        dirty := true |}.

Definition buffer_delete_char (d : Doc) (row col : Z) : res Doc :=
  let b := buf d in
  L ← slot (len b) row;
  if decide (col <= 0 ∨ col > L) then Ok d
  else
    blk ← slot (lines b) row;
    blk ← memmove blk (col - 1) col (L - col + 1);
    Ok {| buf := {| lines := <[Z.to_nat row := blk]> (lines b);
                    len := <[Z.to_nat row := L - 1]> (len b);
                    count := count b;
                    cap := cap b |};
          dirty := true |}.

Definition buffer_split_line (d : Doc) (row col : Z) : res Doc :=
  L ← slot (len (buf d)) row;
  let col := clamp_col col L in
  blk ← slot (lines (buf d)) row;
  (* right = &b->lines[row][col] *)
  d1 ← buffer_insert_line d (row + 1) (drop (Z.to_nat col) blk) (L - col);
  let b := buf d1 in
  blk ← slot (lines b) row;
  blk ← poke blk col 0;
  Ok {| buf := {| lines := <[Z.to_nat row := blk]> (lines b);
                  len := <[Z.to_nat row := col]> (len b);
                  count := count b;
                  cap := cap b |};
        dirty := true |}.

End V3buf.

Module V1buf.

Definition buffer_insert_char (d : Doc) (row col c : Z) : res Doc :=
  let b := buf d in
  if decide (row < 0 ∨ row >= count b) then Ok d
  else
    L ← slot (len b) row;
    let col := clamp_col col L in
    blk ← slot (lines b) row;
    blk ← memmove (realloc blk (L + 2)) (col + 1) col (L - col + 1);
    blk ← poke blk col c;
    Ok {| buf := {| lines := <[Z.to_nat row := blk]> (lines b);
                    len := <[Z.to_nat row := L + 1]> (len b);
                    count := count b;
                    cap := cap b |};
          dirty := true |}.

Definition buffer_delete_char (d : Doc) (row col : Z) : res Doc :=
  let b := buf d in
  if decide (row < 0 ∨ row >= count b) then Ok d
  else
    L ← slot (len b) row;
    if decide (col <= 0 ∨ col > L) then Ok d
    else
      blk ← slot (lines b) row;
      blk ← memmove blk (col - 1) col (L - col + 1);
      Ok {| buf := {| lines := <[Z.to_nat row := blk]> (lines b);
                      len := <[Z.to_nat row := L - 1]> (len b);
                      count := count b;
                      cap := cap b |};
            dirty := true |}.

Definition buffer_split_line (d : Doc) (row col : Z) : res Doc :=
  if decide (row < 0 ∨ row >= count (buf d)) then Ok d
  else
    L ← slot (len (buf d)) row;
    let col := clamp_col col L in
    blk ← slot (lines (buf d)) row;
    d1 ← buffer_insert_line d (row + 1) (drop (Z.to_nat col) blk) (L - col);
    let b := buf d1 in
    blk ← slot (lines b) row;
    blk ← poke blk col 0;
    Ok {| buf := {| lines := <[Z.to_nat row := blk]> (lines b);
                    len := <[Z.to_nat row := col]> (len b);
                    count := count b;
                    cap := cap b |};
          dirty := true |}.

End V1buf.

(** ** Invariants of the buffer *)

(** Memory shape of one line: the cached length is inside the block and
    the byte there is the terminator. *)
Definition line_ok (blk : block) (l : Z) : Prop :=
  0 ≤ l < Zlen blk ∧ blk !! Z.to_nat l = Some 0.

(** The cached length is the length of the C string. *)
Definition line_cached (blk : block) (l : Z) : Prop := strlen blk = l.

Record buf_ok (b : Buffer) : Prop := {
  ok_lines : Forall2 line_ok (lines b) (len b);
  ok_count : count b = Zlen (lines b);
  ok_one   : 1 ≤ count b;
  ok_cap   : 1 ≤ cap b
}.

Definition buf_cached (b : Buffer) : Prop :=
  Forall2 line_cached (lines b) (len b).

(** The bytes the editor takes for line [i]: the first [len[i]] bytes. *)
Definition row_bytes (blk : block) (l : Z) : list Z := take (Z.to_nat l) blk.

Definition text (b : Buffer) : list (list Z) := zip_with row_bytes (lines b) (len b).

(** No NUL among the bytes of any line. *)
Definition nulfree (T : list (list Z)) : Prop := Forall (Forall (λ x, x ≠ 0)) T.

(** ** The line operations on plain text

    Section 4.3 of the specification, on a document given as the list of
    its lines; rows and columns are already in range. *)
Module Spec.
Definition insertLine (T : list (list Z)) (at_ : nat) (bytes : list Z) : list (list Z) :=
  take at_ T ++ bytes :: drop at_ T.

Definition insertChar (T : list (list Z)) (row col : nat) (byte : Z) : list (list Z) :=
  alter (λ t, take col t ++ byte :: drop col t) row T.

Definition deleteChar (T : list (list Z)) (row col : nat) : list (list Z) :=
  alter (λ t, take (col - 1) t ++ drop col t) row T.

Definition splitLine (T : list (list Z)) (row col : nat) : list (list Z) :=
  match T !! row with
  | Some t => take row T ++ take col t :: drop col t :: drop (S row) T
  | None => T
  end.

Definition joinWithPrevious (T : list (list Z)) (row : nat) : list (list Z) :=
  match T !! (row - 1)%nat, T !! row with
  | Some p, Some c => take (row - 1) T ++ (p ++ c) :: drop (S row) T
  | _, _ => T
  end.
End Spec.

(** ** The environment of the process *)

(** One call of [read(STDIN_FILENO, &c, 1)]: a byte, nothing within the
    0.1 s wait, or a hard error. *)
Inductive rd : Type :=
| RByte (b : Z)
| RNone
| RFail.

Record OS : Type := mkOS {
  stdin  : list rd;                 (* the coming reads; silence afterwards *)
  fs     : gmap string (list Z);    (* regular files by path *)
  faults : list bool;               (* the coming fallible file system calls,
                                       [true] = success; all succeed later *)
  winsz  : list (option (Z * Z))    (* the coming TIOCGWINSZ answers (rows, cols);
                                       failure later *)
}.

Definition set_stdin (os : OS) (i : list rd) : OS :=
  {| stdin := i; fs := fs os; faults := faults os; winsz := winsz os |}.
Definition set_fs (os : OS) (f : gmap string (list Z)) : OS :=
  {| stdin := stdin os; fs := f; faults := faults os; winsz := winsz os |}.
Definition set_faults (os : OS) (f : list bool) : OS :=
  {| stdin := stdin os; fs := fs os; faults := f; winsz := winsz os |}.
Definition set_winsz (os : OS) (w : list (option (Z * Z))) : OS :=
  {| stdin := stdin os; fs := fs os; faults := faults os; winsz := w |}.

Arguments set_stdin _ _ /.
Arguments set_fs _ _ /.
Arguments set_faults _ _ /.
Arguments set_winsz _ _ /.

(** Outcome of the next fallible file system call. *)
Definition sys_ok (os : OS) : bool * OS :=
  match faults os with
  | [] => (true, os)
  | f :: r => (f, set_faults os r)
  end.

(** [write(fd, bytes, n)] on the file opened at [path]: all of the bytes
    or an error. *)
Definition sys_write (os : OS) (path : string) (bytes : list Z) : bool * OS :=
  let '(ok, os) := sys_ok os in
  if ok then (true, set_fs os (alter (λ old, old ++ bytes) path (fs os)))
  else (false, os).

(** [open(path, O_WRONLY | O_CREAT | O_TRUNC, 0644)] *)
Definition sys_open_trunc (os : OS) (path : string) : bool * OS :=
  let '(ok, os) := sys_ok os in
  if ok then (true, set_fs os (<[path := []]> (fs os))) else (false, os).

(** [unlink(path)]: it can fail like the other calls, and then leaves the
    file in place; its result is never looked at. *)
Definition sys_unlink (os : OS) (path : string) : OS :=
  let '(ok, os) := sys_ok os in
  if ok then set_fs os (delete path (fs os)) else os.

(** [rename(from, to)] *)
Definition sys_rename (os : OS) (from to : string) : bool * OS :=
  let '(ok, os) := sys_ok os in
  if ok then
    match fs os !! from with
    | Some bytes => (true, set_fs os (<[to := bytes]> (delete from (fs os))))
    | None => (false, os)
    end
  else (false, os).

(** The first loop of [editor_read_key], the same in both files. *)
Fixpoint wait_byte (inp : list rd) : res (Z * list rd) :=
  match inp with
  | [] => Err Starved
  | RByte b :: rest => Ok (b, rest)
  | RNone :: rest => wait_byte rest
  | RFail :: rest => Err Died
  end.

(** A [char] (signed, as on Linux x86) widened to [int]. *)
Definition int_of_char (b : Z) : Z := if decide (b < 128) then b else b - 256.

(** A mathematical integer as the 32-bit [int] holding it: what signed
    arithmetic gives on the two's-complement targets once it leaves the
    range. *)
Definition wrap32 (z : Z) : Z := (z + 2 ^ 31) `mod` 2 ^ 32 - 2 ^ 31.

(** [isprint] in the C locale, for an [unsigned char] value or [EOF].
    For any other argument ISO C leaves the call undefined; the model
    answers false there, so a statement about the C program has to keep
    the argument inside [-1, 255]. *)
Definition isprint (c : Z) : bool := bool_decide (32 ≤ c ≤ 126).

(** [CTRL_KEY(k)] *)
Definition CTRL_KEY (k : Z) : Z := Z.land k 31.

(** [snprintf(filename, sizeof(filename), "%s", path)] *)
Definition snprintf256 (path : string) : string := String.substring 0 255 path.

(** Status line texts, without their timestamp. *)
Inductive Status : Type :=
| MsgEmpty
| MsgHelp
| MsgSaved (name : string)
| MsgSaveFailed
| MsgUnsaved
| MsgCanceled
| MsgPrompt (prompt : string) (input : list Z)
| MsgNotFound (q : list Z)
| MsgFound (q : list Z)
| MsgNoMore (q : list Z).

(** ** Loading and writing lines, the same in both files *)

(** The successive results of [getline]: each line with its newline. *)
Fixpoint getlines (cur bs : list Z) : list (list Z) :=
  match bs with
  | [] => match cur with [] => [] | _ => [cur] end
  | b :: r =>
      if decide (b = 10) then (cur ++ [b]) :: getlines [] r
      else getlines (cur ++ [b]) r
  end.

(** [while (n > 0 && (line[n-1] == '\n' || line[n-1] == '\r')) n--;] *)
Fixpoint strip_eol (line : list Z) (n : nat) : nat :=
  match n with
  | O => O
  | S m =>
      match line !! m with
      | Some b => if decide (b = 10 ∨ b = 13) then strip_eol line m else n
      | None => n
      end
  end.

(** The body of the [getline] loop of [editor_open]. *)
Fixpoint load_lines (d : Doc) (first : bool) (ls : list (list Z)) : res Doc :=
  match ls with
  | [] => Ok d
  | line :: rest =>
      let n := Z.of_nat (strip_eol line (length line)) in
      if first then
        blk ← memcpy (malloc (n + 1)) 0 line n;
        blk ← poke blk n 0;
        let b := buf d in
        load_lines {| buf := {| lines := <[0%nat := blk]> (lines b);
                                len := <[0%nat := n]> (len b);
                                count := count b;
                                cap := cap b |};
                      dirty := dirty d |} false rest
      else
        d ← buffer_insert_line d (count (buf d)) line n;
        load_lines d false rest
  end.

(** [editor_open] once [fopen] succeeded, up to [dirty = false]. *)
Definition load_file (content : list Z) : res Doc :=
  d ← load_lines {| buf := buffer_init; dirty := false |} true (getlines [] content);
  Ok {| buf := buf d; dirty := false |}.

(** The write loop of both save functions:
    [for (i = 0; i < buf.count; i++) { write line; write "\n" }];
    the result tells whether every write succeeded. *)
Fixpoint write_lines (fuel : nat) (os : OS) (b : Buffer) (path : string) (i : Z)
  : res (OS * bool) :=
  match fuel with
  | O => Ok (os, true)
  | S f =>
      blk ← slot (lines b) i;
      L ← slot (len b) i;
      if decide (0 ≤ L ≤ Zlen blk) then
        let '(ok, os) := sys_write os path (take (Z.to_nat L) blk) in
        if ok then
          let '(ok, os) := sys_write os path [10] in
          if ok then write_lines f os b path (i + 1) else Ok (os, false)
        else Ok (os, false)
      else Err Fault
  end.

(** What a file holds as text: its lines without their line ends; a file
    without a byte is one empty line. *)
Definition chomp (line : list Z) : list Z := take (strip_eol line (length line)) line.

Definition file_text (content : list Z) : list (list Z) :=
  match getlines [] content with
  | [] => [[]]
  | ls => chomp <$> ls
  end.

(** ** States of the buffer reachable through its operations

    [byte_ok] restricts the bytes that are inserted or loaded. *)
Record BufferOps : Type := mkOps {
  op_insert_char : Doc → Z → Z → Z → res Doc;
  op_delete_char : Doc → Z → Z → res Doc;
  op_split_line  : Doc → Z → Z → res Doc
}.

Definition ops_v3 : BufferOps :=
  mkOps V3buf.buffer_insert_char V3buf.buffer_delete_char V3buf.buffer_split_line.
Definition ops_v1 : BufferOps :=
  mkOps V1buf.buffer_insert_char V1buf.buffer_delete_char V1buf.buffer_split_line.

Inductive reachable (byte_ok : Z → Prop) (o : BufferOps) : Doc → Prop :=
| reach_init :
    reachable byte_ok o (mkDoc buffer_init false)
| reach_load content d :
    Forall byte_ok content → load_file content = Ok d →
    reachable byte_ok o d
| reach_insert_line d at_ s n d' :
    reachable byte_ok o d → Forall byte_ok (take (Z.to_nat n) s) →
    buffer_insert_line d at_ s n = Ok d' →
    reachable byte_ok o d'
| reach_insert_char d row col c d' :
    reachable byte_ok o d → byte_ok c →
    op_insert_char o d row col c = Ok d' →
    reachable byte_ok o d'
| reach_delete_char d row col d' :
    reachable byte_ok o d →
    op_delete_char o d row col = Ok d' →
    reachable byte_ok o d'
| reach_split_line d row col d' :
    reachable byte_ok o d →
    op_split_line o d row col = Ok d' →
    reachable byte_ok o d'
| reach_join d row d' :
    reachable byte_ok o d →
    buffer_join_with_prev d row = Ok d' →
    reachable byte_ok o d'.

(** One axis of the scroll adjustment: position [p], offset [o], extent
    [n]. *)
Definition adjust (p o n : Z) : Z :=
  let o := if decide (p < o) then p else o in
  if decide (p >= o + n) then p - n + 1 else o.

(** ** Search on plain text

    One round of [editor_find_next] seen on the text: rows [rows], the
    first of them numbered [r], scanned from column [c] of that first row.
    [visible t k] is what [strstr] sees of line [t] from column [k] on. *)
Definition visible (t : list Z) (k : Z) : list Z :=
  cstring (drop (Z.to_nat k) t ++ [0]).

Fixpoint scan_rows (rows : list (list Z)) (q : list Z) (r c : Z) : option (Z * Z) :=
  match rows with
  | [] => None
  | t :: rest =>
      if decide (Zlen t = 0) then scan_rows rest q (r + 1) 0
      else
        let k := if decide (c < Zlen t) then c else Zlen t in
        match strstr_val (visible t k) q with
        | Some i => Some (r, k + i)
        | None => scan_rows rest q (r + 1) 0
        end
  end.

(** Both rounds. *)
Definition scan_text (T : list (list Z)) (q : list Z) (r c : Z) : option (Z * Z) :=
  match scan_rows (drop (Z.to_nat r) T) q r c with
  | Some p => Some p
  | None => scan_rows T q 0 0
  end.

(** All the places where [q] occurs in the text, in document order: rows
    from the top, columns from the left. *)
Definition occurs_at (t q : list Z) (c : nat) : bool := starts_with q (drop c t).

Definition row_occurrences (t q : list Z) : list nat :=
  filter (λ c, occurs_at t q c = true) (seq 0 (length t)).

Fixpoint occurrences_from (rows : list (list Z)) (q : list Z) (r : Z) : list (Z * Z) :=
  match rows with
  | [] => []
  | t :: rest =>
      ((λ c, (r, Z.of_nat c)) <$> row_occurrences t q)
        ++ occurrences_from rest q (r + 1)
  end.

Definition occurrences (T : list (list Z)) (q : list Z) : list (Z * Z) :=
  occurrences_from T q 0.

(** Document order on positions. *)
Definition pos_le (p1 p2 : Z * Z) : Prop :=
  p1.1 < p2.1 ∨ (p1.1 = p2.1 ∧ p1.2 ≤ p2.2).
Definition pos_lt (p1 p2 : Z * Z) : Prop :=
  p1.1 < p2.1 ∨ (p1.1 = p2.1 ∧ p1.2 < p2.2).

#[global] Instance pos_le_dec (p1 p2 : Z * Z) : Decision (pos_le p1 p2).
Proof. unfold pos_le. apply _. Defined.

(** The bytes of a saved document: every line followed by a newline. *)
Definition file_image (rows : list (list Z)) : list Z :=
  concat ((λ t, t ++ [10]) <$> rows).

(** ** Output to the terminal *)

(** One answer of [write(2)]. *)
Inductive wr : Type :=
| WDone (k : nat)   (* r >= 0: [k] bytes were taken, at most those offered *)
| WIntr             (* -1 with errno = EINTR *)
| WFail.            (* -1 with another errno *)

(** [xwrite(fd, buf, n)] of README.md on the [n] bytes [data].  [ws]
    scripts the coming answers of [write]; once the script is used up
    [write] takes all it is offered.  The result is what reached the
    file descriptor and the rest of the script; [_exit(1)] is [Died]. *)
Fixpoint xwrite (ws : list wr) (data : list Z) {struct ws} : res (list Z * list wr) :=
  match data with
  | [] => Ok ([], ws)                          (* off < n fails at once *)
  | _ :: _ =>
      match ws with
      | [] => Ok (data, [])
      | WDone k :: ws' =>
          let k := Nat.min k (length data) in
          '(out, ws'') ← xwrite ws' (drop k data);
          Ok (take k data ++ out, ws'')
      | WIntr :: ws' => xwrite ws' data
      | WFail :: _ => Err Died
      end
  end.

(** The [n] bytes at [&blk[off]], as handed to a write call. *)
Definition peek (blk : block) (off n : Z) : res (list Z) :=
  if decide (0 ≤ off ∧ 0 ≤ n ∧ off + n ≤ Zlen blk)
  then Ok (take (Z.to_nat n) (drop (Z.to_nat off) blk))
  else Err Fault.

Definition sgr_inverse : list Z := [27; 91; 55; 109].      (* "\x1b[7m" *)
Definition sgr_reset : list Z := [27; 91; 109].            (* "\x1b[m" *)
Definition clear_line : list Z := [27; 91; 50; 75; 13].    (* "\x1b[2K\r" *)
Definition crlf : list Z := [13; 10].                      (* "\r\n" *)

(** ** Version 0.3: the listing in README.md *)

Module V3.
Export V3buf.

Record View : Type := mkView {
  cx : Z; cy : Z;
  rowoff : Z; coloff : Z;
  screenrows : Z; screencols : Z;
  pref_cx : Z
}.

Record Editor : Type := mkEditor {
  doc : Doc;                    (* buf, dirty *)
  view : View;
  filename : string;
  statusmsg : Status;
  last_query : list Z;          (* string value of last_query[] *)
  last_match_row : Z;
  last_match_col : Z;
  hl_row : Z; hl_col : Z; hl_len : Z;
  quit_times_needed : Z
}.

Definition set_doc (e : Editor) (d : Doc) : Editor :=
  mkEditor d (view e) (filename e) (statusmsg e) (last_query e)
    (last_match_row e) (last_match_col e) (hl_row e) (hl_col e) (hl_len e)
    (quit_times_needed e).
Definition set_view (e : Editor) (v : View) : Editor :=
  mkEditor (doc e) v (filename e) (statusmsg e) (last_query e)
    (last_match_row e) (last_match_col e) (hl_row e) (hl_col e) (hl_len e)
    (quit_times_needed e).
Definition set_filename (e : Editor) (f : string) : Editor :=
  mkEditor (doc e) (view e) f (statusmsg e) (last_query e)
    (last_match_row e) (last_match_col e) (hl_row e) (hl_col e) (hl_len e)
    (quit_times_needed e).
Definition editor_set_status (e : Editor) (m : Status) : Editor :=
  mkEditor (doc e) (view e) (filename e) m (last_query e)
    (last_match_row e) (last_match_col e) (hl_row e) (hl_col e) (hl_len e)
    (quit_times_needed e).
Definition set_query (e : Editor) (q : list Z) : Editor :=
  mkEditor (doc e) (view e) (filename e) (statusmsg e) q
    (last_match_row e) (last_match_col e) (hl_row e) (hl_col e) (hl_len e)
    (quit_times_needed e).
Definition set_match (e : Editor) (r c : Z) : Editor :=
  mkEditor (doc e) (view e) (filename e) (statusmsg e) (last_query e)
    r c (hl_row e) (hl_col e) (hl_len e) (quit_times_needed e).
Definition set_hl (e : Editor) (r c l : Z) : Editor :=
  mkEditor (doc e) (view e) (filename e) (statusmsg e) (last_query e)
    (last_match_row e) (last_match_col e) r c l (quit_times_needed e).
Definition set_quit (e : Editor) (q : Z) : Editor :=
  mkEditor (doc e) (view e) (filename e) (statusmsg e) (last_query e)
    (last_match_row e) (last_match_col e) (hl_row e) (hl_col e) (hl_len e) q.
Definition set_dirty (e : Editor) (x : bool) : Editor :=
  set_doc e {| buf := buf (doc e); dirty := x |}.

(** [view.cx = x; view.cy = y; view.pref_cx = p] *)
Definition set_cursor (v : View) (x y p : Z) : View :=
  mkView x y (rowoff v) (coloff v) (screenrows v) (screencols v) p.
Definition set_rowoff (v : View) (r : Z) : View :=
  mkView (cx v) (cy v) r (coloff v) (screenrows v) (screencols v) (pref_cx v).
Definition set_coloff (v : View) (c : Z) : View :=
  mkView (cx v) (cy v) (rowoff v) c (screenrows v) (screencols v) (pref_cx v).
Definition set_screen (v : View) (rows cols : Z) : View :=
  mkView (cx v) (cy v) (rowoff v) (coloff v) rows cols (pref_cx v).

(** [hl_row = hl_col = hl_len = -1] *)
Definition clear_hl (e : Editor) : Editor := set_hl e (-1) (-1) (-1).

#[global] Arguments set_doc _ _ /.
#[global] Arguments set_view _ _ /.
#[global] Arguments set_filename _ _ /.
#[global] Arguments editor_set_status _ _ /.
#[global] Arguments set_query _ _ /.
#[global] Arguments set_match _ _ _ /.
#[global] Arguments set_hl _ _ _ _ /.
#[global] Arguments set_quit _ _ /.
#[global] Arguments set_dirty _ _ /.
#[global] Arguments set_cursor _ _ _ _ /.
#[global] Arguments set_rowoff _ _ /.
#[global] Arguments set_coloff _ _ /.
#[global] Arguments set_screen _ _ _ /.
#[global] Arguments clear_hl _ /.

(** *** Key decoder *)

Definition is_final (b : Z) : bool :=
  bool_decide (65 ≤ b ≤ 90) || bool_decide (b = 126).

(** The loop collecting at most [fuel] bytes after ESC. *)
Fixpoint read_seq (fuel : nat) (inp : list rd) (seq : list Z) : list Z * list rd :=
  match fuel with
  | O => (seq, inp)
  | S f =>
      match inp with
      | RByte b :: rest =>
          if is_final b then (seq ++ [b], rest) else read_seq f rest (seq ++ [b])
      | _ :: rest => (seq, rest)
      | [] => (seq, [])
      end
  end.

(** [for (i = 1; i < n-1; i++) if digit: num = num*10 + (seq[i]-'0')],
    over the bytes seq[1 .. n-2]; [num] is an [int], and ten digits or
    more take it round. *)
Definition parse_num (ds : list Z) : Z :=
  fold_left (λ num d, if decide (48 ≤ d ≤ 57) then wrap32 (num * 10 + (d - 48))
                      else num) ds 0.

Definition arrow_code (b : Z) : Z :=
  match b with
  | 65 => 1001   (* 'A' Up *)
  | 66 => 1002   (* 'B' Down *)
  | 67 => 1003   (* 'C' Right *)
  | 68 => 1004   (* 'D' Left *)
  | 72 => 72     (* 'H' Home *)
  | 70 => 69     (* 'F' End, reported as 'E' *)
  | _ => 27
  end.

Definition tilde_code (num : Z) : Z :=
  match num with
  | 1 | 7 => 72
  | 4 | 8 => 69
  | 3 => 127
  | 5 => 1005
  | 6 => 1006
  | _ => 27
  end.

Definition decode_seq (seq : list Z) : Z :=
  let n := Zlen seq in
  match seq with
  | 91 :: rest =>                                   (* '[' *)
      if decide (n = 2) then
        match rest with b :: _ => arrow_code b | [] => 27 end
      else
        match rest with
        | b :: _ =>
            if decide (n >= 3 ∧ 48 ≤ b ≤ 57)
            then tilde_code (parse_num (take (Z.to_nat (n - 2)) rest))
            else 27
        | [] => 27
        end
  | 79 :: rest =>                                   (* 'O' *)
      if decide (n = 2) then
        match rest with b :: _ => arrow_code b | [] => 27 end
      else 27
  | _ => 27
  end.

Definition editor_read_key (inp : list rd) : res (Z * list rd) :=
  '(c, inp) ← wait_byte inp;
  if decide (c ≠ 27) then Ok (int_of_char c, inp)
  else
    let '(seq, inp) := read_seq 16 inp [] in
    if decide (Zlen seq = 0) then Ok (27, inp)
    else Ok (decode_seq seq, inp).

(** *** File I/O *)

Definition editor_open (os : OS) (e : Editor) (path : string) : res Editor :=
  match fs os !! path with
  | None => Ok (set_filename e (snprintf256 path))
  | Some content =>
      d ← load_file content;
      Ok (set_filename (set_doc e d) (snprintf256 path))
  end.

Definition editor_save_atomic (os : OS) (e : Editor) : res (OS * Editor * bool) :=
  let tmpname := (filename e +:+ ".tmp")%string in
  let '(opened, os) := sys_open_trunc os tmpname in
  if negb opened then Ok (os, e, false)
  else
    let b := buf (doc e) in
    '(os, ok) ← write_lines (Z.to_nat (count b)) os b tmpname 0;
    let synced : bool * OS :=
      if (ok : bool) then sys_ok os (* fsync *) else (false, os) in
    let '(ok, os) := synced in
    let '(closed, os) := sys_ok os (* close *) in
    let ok := ok && closed in
    if negb ok then Ok (sys_unlink os tmpname, e, false)
    else
      let '(renamed, os) := sys_rename os tmpname (filename e) in
      if negb renamed then Ok (sys_unlink os tmpname, e, false)
      else Ok (os, set_dirty e false, true).

(** *** View *)

Definition get_window_size (os : OS) : option (Z * Z) * OS :=
  match winsz os with
  | [] => (None, os)
  | w :: rest =>
      (match w with
       | Some (rows, cols) =>
           if decide (cols = 0 ∨ rows = 0) then None else Some (rows, cols)
       | None => None
       end, set_winsz os rest)
  end.

Definition editor_update_dimensions (os : OS) (e : Editor) : OS * Editor * bool :=
  let v := view e in
  let '(w, os) := get_window_size os in
  let '(rows, cols) :=
    match w with
    | Some (rows, cols) => (rows, cols)
    | None =>
        (if decide (screenrows v > 0) then screenrows v + 2 else 24,
         if decide (screencols v > 0) then screencols v else 80)
    end in
  let textrows := rows - 2 in
  let textrows := if decide (textrows < 1) then 1 else textrows in
  let changed := negb (bool_decide (textrows = screenrows v))
                 || negb (bool_decide (cols = screencols v)) in
  (os, set_view e (set_screen v textrows cols), changed).

Definition editor_scroll (v : View) : View :=
  let v := if decide (cy v < rowoff v) then set_rowoff v (cy v) else v in
  let v := if decide (cy v >= rowoff v + screenrows v)
           then set_rowoff v (cy v - screenrows v + 1) else v in
  let v := if decide (cx v < coloff v) then set_coloff v (cx v) else v in
  if decide (cx v >= coloff v + screencols v)
  then set_coloff v (cx v - screencols v + 1) else v.

(** The only state [editor_draw_screen] changes is the scroll position;
    the bytes it sends to the terminal are not part of the model. *)
Definition editor_draw_screen (e : Editor) : Editor :=
  set_view e (editor_scroll (view e)).

(** *** Movement and editing *)

Definition editor_move_cursor_vert (e : Editor) (key : Z) : res Editor :=
  let v := view e in
  let b := buf (doc e) in
  let page := screenrows v - 2 in
  let page := if decide (page < 1) then 1 else page in
  let y :=
    if decide (key = 1005) then
      let y := cy v - page in if decide (y < 0) then 0 else y
    else
      let y := cy v + page in if decide (y >= count b) then count b - 1 else y in
  L ← slot (len b) y;
  Ok (set_view e (set_cursor v (if decide (pref_cx v <= L) then pref_cx v else L)
                               y (pref_cx v))).

Definition editor_move_cursor (e : Editor) (key : Z) : res Editor :=
  let v := view e in
  let b := buf (doc e) in
  match key with
  | 1004 =>                                           (* Left *)
      if decide (cx v > 0) then
        Ok (set_view e (set_cursor v (cx v - 1) (cy v) (cx v - 1)))
      else if decide (cy v > 0) then
        L ← slot (len b) (cy v - 1);
        Ok (set_view e (set_cursor v L (cy v - 1) L))
      else Ok e
  | 1003 =>                                           (* Right *)
      if decide (cy v < count b) then
        L ← slot (len b) (cy v);
        if decide (cx v < L) then
          Ok (set_view e (set_cursor v (cx v + 1) (cy v) (cx v + 1)))
        else if decide (cy v + 1 < count b) then
          Ok (set_view e (set_cursor v 0 (cy v + 1) 0))
        else Ok e
      else Ok e
  | 1001 =>                                           (* Up *)
      let y := if decide (cy v > 0) then cy v - 1 else cy v in
      L ← slot (len b) y;
      Ok (set_view e (set_cursor v (if decide (pref_cx v <= L) then pref_cx v else L)
                                   y (pref_cx v)))
  | 1002 =>                                           (* Down *)
      d ← (if decide (cy v + 1 < count b) then Ok (doc e)
           else buffer_append_empty (doc e));
      let y := cy v + 1 in
      L ← slot (len (buf d)) y;
      Ok (set_view (set_doc e d)
            (set_cursor v (if decide (pref_cx v <= L) then pref_cx v else L)
                        y (pref_cx v)))
  | 72 =>                                             (* 'H' Home *)
      Ok (set_view e (set_cursor v 0 (cy v) 0))
  | 69 =>                                             (* 'E' End *)
      L ← slot (len b) (cy v);
      Ok (set_view e (set_cursor v L (cy v) L))
  | _ => Ok e
  end.

Definition editor_insert_char (e : Editor) (c : Z) : res Editor :=
  let v := view e in
  d ← buffer_insert_char (doc e) (cy v) (cx v) c;
  Ok (clear_hl (set_view (set_doc e d) (set_cursor v (cx v + 1) (cy v) (cx v + 1)))).

Definition editor_insert_newline (e : Editor) : res Editor :=
  let v := view e in
  d ← buffer_split_line (doc e) (cy v) (cx v);
  Ok (clear_hl (set_view (set_doc e d) (set_cursor v 0 (cy v + 1) 0))).

Definition editor_backspace (e : Editor) : res Editor :=
  let v := view e in
  if decide (cx v > 0) then
    d ← buffer_delete_char (doc e) (cy v) (cx v);
    Ok (clear_hl (set_view (set_doc e d) (set_cursor v (cx v - 1) (cy v) (cx v - 1))))
  else if decide (cy v > 0) then
    prev_len ← slot (len (buf (doc e))) (cy v - 1);
    d ← buffer_join_with_prev (doc e) (cy v);
    Ok (clear_hl (set_view (set_doc e d) (set_cursor v prev_len (cy v - 1) prev_len)))
  else Ok (clear_hl e).

(** *** Prompt and search *)

(** [editor_prompt(prompt, out, outlen)] with [outlen = 256].  Every
    round reads a key, so a fuel of one more than the remaining reads
    is never used up. *)
Fixpoint editor_prompt (fuel : nat) (os : OS) (e : Editor) (prompt : string)
    (out : list Z) : res (OS * Editor * option (list Z)) :=
  match fuel with
  | O => Err Hang
  | S f =>
      let e := editor_draw_screen (editor_set_status e (MsgPrompt prompt out)) in
      '(c, inp) ← editor_read_key (stdin os);
      let os := set_stdin os inp in
      if decide (c = 27) then Ok (os, editor_set_status e MsgCanceled, None)
      else if decide (c = 13 ∨ c = 10) then
        if decide (Zlen out > 0) then Ok (os, editor_set_status e MsgEmpty, Some out)
        else editor_prompt f os e prompt out
      else if decide (c = 127) then
        if decide (Zlen out > 0)
        then editor_prompt f os e prompt (take (length out - 1) out)
        else editor_prompt f os e prompt out
      else if isprint c then
        if decide (Zlen out + 1 < 256)
        then editor_prompt f os e prompt (out ++ [c])
        else editor_prompt f os e prompt out
      else editor_prompt f os e prompt out
  end.

(** The row loop [for (; r < buf.count; r++, c = 0)] of one round. *)
Fixpoint find_scan (fuel : nat) (b : Buffer) (q : list Z) (r c : Z)
  : res (option (Z * Z)) :=
  if decide (r < count b) then
    match fuel with
    | O => Err Hang
    | S f =>
        hay ← slot (lines b) r;
        L ← slot (len b) r;
        if decide (L = 0) then find_scan f b q (r + 1) 0
        else
          p ← strstr hay (if decide (c < L) then c else L) q;
          match p with
          | Some col => Ok (Some (r, col))
          | None => find_scan f b q (r + 1) 0
          end
    end
  else Ok None.

Definition editor_find_next (e : Editor) (from_current : bool) : res (Editor * bool) :=
  let q := last_query e in
  if decide (q = []) then Ok (e, false)
  else
    let b := buf (doc e) in
    let r := if from_current then cy (view e) else last_match_row e in
    let c := if from_current then cx (view e) else last_match_col e + 1 in
    m ← find_scan (Z.to_nat (count b - r)) b q r c;                 (* round 0 *)
    m ← match m with
        | Some p => Ok (Some p)
        | None => find_scan (Z.to_nat (count b)) b q 0 0            (* round 1 *)
        end;
    match m with
    | Some (r, col) =>
        let e := set_match e r col in
        let e := set_hl e r col (Zlen q) in
        Ok (set_view e (set_cursor (view e) col r col), true)
    | None => Ok (e, false)
    end.

Definition editor_find (os : OS) (e : Editor) : res (OS * Editor) :=
  '(os, e, answer) ← editor_prompt (S (length (stdin os))) os e "/" [];
  match answer with
  | None => Ok (os, clear_hl e)
  | Some query =>
      let e := set_query e query in
      let e := set_match e (cy (view e)) (cx (view e) - 1) in
      '(e, found) ← editor_find_next e true;
      if (found : bool) then Ok (os, editor_set_status e (MsgFound (last_query e)))
      else Ok (os, clear_hl (editor_set_status e (MsgNotFound (last_query e))))
  end.

(** *** Main *)

(** The globals as initialised at load time. *)
Definition globals0 : Editor :=
  {| doc := {| buf := mkBuffer [] [] 0 0; dirty := false |};
     view := mkView 0 0 0 0 0 0 0;
     filename := "untitled.txt";
     statusmsg := MsgEmpty;
     last_query := [];
     last_match_row := -1;
     last_match_col := -1;
     hl_row := -1; hl_col := -1; hl_len := 0;
     quit_times_needed := 1 |}.

(** [main] from [buffer_init] to the first [editor_draw_screen]
    (README.md 709-720), as far as the editor state, the input and the
    file system go; [arg] is [argv[1]].  The two calls before it,
    [atexit] and [enable_raw_mode], which set the terminal up, discard
    pending input and end the process through [die] when the terminal
    refuses, are not part of it, nor are the bytes the first draw
    writes and the [_exit] of [xwrite] when such a write fails. *)
Definition main_init (os : OS) (arg : option string) : res (OS * Editor) :=
  let e := set_doc globals0 {| buf := buffer_init; dirty := dirty (doc globals0) |} in
  e ← match arg with
      | Some path => editor_open os (set_filename e (snprintf256 path)) path
      | None => Ok e
      end;
  let e := set_view e (mkView 0 0 0 0 (screenrows (view e)) (screencols (view e)) 0) in
  let '(os, e, _) := editor_update_dimensions os e in
  Ok (os, editor_draw_screen (editor_set_status e MsgHelp)).

(** The [if]/[else if] chain of the main loop on key [c]; the result
    carries [request_redraw] and [exit_editor]. *)
Definition main_dispatch (os : OS) (e : Editor) (c : Z)
  : res (OS * Editor * bool * bool) :=
  if decide (c = CTRL_KEY 113) then                                  (* Ctrl-Q *)
    if dirty (doc e) && bool_decide (quit_times_needed e > 0) then
      Ok (os, set_quit (editor_set_status e MsgUnsaved) (quit_times_needed e - 1),
          true, false)
    else Ok (os, e, false, true)
  else if decide (c = CTRL_KEY 115) then                             (* Ctrl-S *)
    '(os, e, saved) ← editor_save_atomic os e;
    let e := if (saved : bool) then editor_set_status e (MsgSaved (filename e))
             else editor_set_status e MsgSaveFailed in
    Ok (os, set_quit e 1, true, false)
  else if decide (c = CTRL_KEY 102) then                             (* Ctrl-F *)
    '(os, e) ← editor_find os e;
    Ok (os, set_quit e 1, true, false)
  else if decide (c = CTRL_KEY 110) then                             (* Ctrl-N *)
    '(e, found) ← editor_find_next e false;
    let e := if (found : bool) then e
             else editor_set_status e (MsgNoMore (last_query e)) in
    Ok (os, set_quit e 1, true, false)
  else if decide (c = 1005 ∨ c = 1006) then
    e ← editor_move_cursor_vert e c;
    Ok (os, clear_hl (set_quit e 1), true, false)
  else if decide (c = 1001 ∨ c = 1002 ∨ c = 1003 ∨ c = 1004 ∨ c = 72 ∨ c = 69) then
    e ← editor_move_cursor e c;
    Ok (os, clear_hl (set_quit e 1), true, false)
  else if decide (c = 13 ∨ c = 10) then
    e ← editor_insert_newline e;
    Ok (os, set_quit e 1, true, false)
  else if decide (c = 127) then
    e ← editor_backspace e;
    Ok (os, set_quit e 1, true, false)
  else if isprint c then
    e ← editor_insert_char e c;
    Ok (os, set_quit e 1, true, false)
  else Ok (os, e, false, false).

(** One round of [while (1)] in [main]; the last component is
    [exit_editor]. *)
Definition main_iter (os : OS) (e : Editor) : res (OS * Editor * bool) :=
  '(c, inp) ← editor_read_key (stdin os);
  '(os, e, request_redraw, exit_editor) ← main_dispatch (set_stdin os inp) e c;
  if (exit_editor : bool) then Ok (os, e, true)
  else
    let '(os, e, changed) := editor_update_dimensions os e in
    if changed || request_redraw then Ok (os, editor_draw_screen e, false)
    else Ok (os, e, false).

(** *** Invariants of the editor state *)

(** [0 <= cy < count] and [0 <= cx <= len[cy]]. *)
Definition cursor_ok (e : Editor) : Prop :=
  0 ≤ cy (view e) < count (buf (doc e)) ∧
  ∃ L, slot (len (buf (doc e))) (cy (view e)) = Ok L ∧ 0 ≤ cx (view e) ≤ L.

(** Once a query is recorded, the last match position is a row and a
    column, or the column before the first. *)
Definition search_ok (e : Editor) : Prop :=
  last_query e = [] ∨ (0 ≤ last_match_row e ∧ -1 ≤ last_match_col e).

Record inv (e : Editor) : Prop := mkInv {
  inv_buf : buf_ok (buf (doc e));
  inv_cursor : cursor_ok e;
  inv_pref : 0 ≤ pref_cx (view e);
  inv_search : search_ok e
}.

(** Where [editor_find_next] starts, and the state it leaves on a match
    at row [r], column [col]. *)
Definition find_start (e : Editor) (from_current : bool) : Z * Z :=
  if from_current then (cy (view e), cx (view e))
  else (last_match_row e, last_match_col e + 1).

Definition found_at (e : Editor) (r col : Z) : Editor :=
  set_view (set_hl (set_match e r col) r col (Zlen (last_query e)))
           (set_cursor (view e) col r col).

(** [n] calls in a row: the first from the cursor or from the last
    match as [from_current] says, the others from the last match.  The
    result lists, call by call, whether a match was found and where the
    cursor then is, as (row, column). *)
Fixpoint find_next_run (n : nat) (from_current : bool) (e : Editor)
  : res (list (bool * (Z * Z))) :=
  match n with
  | O => Ok []
  | S m =>
      '(e, found) ← editor_find_next e from_current;
      rest ← find_next_run m false e;
      Ok ((found, (cy (view e), cx (view e))) :: rest)
  end.

(** The states the session goes through, whatever the environment does. *)
Inductive reachable_state : Editor → Prop :=
| rs_init os arg os' e :
    main_init os arg = Ok (os', e) → reachable_state e
| rs_step os e os' e' x :
    reachable_state e → main_iter os e = Ok (os', e', x) → reachable_state e'.
(** *** Drawing *)

Definition percent_through (e : Editor) : Z :=
  let b := buf (doc e) in
  if decide (count b <= 1) then 100
  else
    let p := Z.quot (wrap32 ((cy (view e) + 1) * 100)) (count b) in
    let p := if decide (p < 1) then 1 else p in
    if decide (p > 100) then 100 else p.

(** The bytes [draw_line_with_highlight(filerow)] hands to [xwrite],
    call after call. *)
Definition draw_line_with_highlight (e : Editor) (filerow : Z) : res (list Z) :=
  let b := buf (doc e) in
  let left := coloff (view e) in
  let maxw := screencols (view e) in
  L ← slot (len b) filerow;
  let len := L - left in
  let len := if decide (len < 0) then 0 else len in
  let len := if decide (len > maxw) then maxw else len in
  if decide (len = 0) then Ok []
  else
    blk ← slot (lines b) filerow;
    if decide (filerow = hl_row e ∧ hl_len e > 0 ∧ hl_col e >= 0) then
      let hstart := hl_col e - left in
      let hend := hl_col e + hl_len e - left in
      if decide (hend <= 0 ∨ hstart >= maxw) then peek blk left len
      else
        let hstart := if decide (hstart < 0) then 0 else hstart in
        let hend := if decide (hend > len) then len else hend in
        before ← (if decide (hstart > 0) then peek blk left hstart else Ok []);
        marked ← peek blk (left + hstart) (hend - hstart);
        after ← (if decide (hend < len) then peek blk (left + hend) (len - hend)
                 else Ok []);
        Ok (before ++ sgr_inverse ++ marked ++ sgr_reset ++ after)
    else peek blk left len.

(** The row loop of [editor_draw_screen], from row [y] on for [n]
    rows: [for (y = 0; y < view.screenrows; y++)]. *)
Fixpoint draw_rows (n : nat) (e : Editor) (y : Z) : res (list Z) :=
  match n with
  | O => Ok []
  | S m =>
      let filerow := rowoff (view e) + y in
      line ← (if decide (filerow < count (buf (doc e)))
              then draw_line_with_highlight e filerow else Ok []);
      rest ← draw_rows m e (y + 1);
      Ok (clear_line ++ line ++ crlf ++ rest)
  end.

(** The row and column [editor_draw_screen] sends in its closing
    cursor address: [(scr_y + 1, scr_x + 1)]. *)
Definition screen_cursor (v : View) : Z * Z :=
  let scr_y := cy v - rowoff v in
  let scr_x := cx v - coloff v in
  let scr_y := if decide (scr_y < 0) then 0 else scr_y in
  let scr_y := if decide (scr_y >= screenrows v) then screenrows v - 1 else scr_y in
  let scr_x := if decide (scr_x < 0) then 0 else scr_x in
  let scr_x := if decide (scr_x >= screencols v) then screencols v - 1 else scr_x in
  (scr_y + 1, scr_x + 1).
End V3.

(** ** Version 0.1: editor.c *)

Module V1.
Export V1buf.

Record View : Type := mkView {
  cx : Z; cy : Z;
  rowoff : Z; coloff : Z;
  screenrows : Z; screencols : Z
}.

Record Editor : Type := mkEditor {
  doc : Doc;                    (* buf, dirty *)
  view : View;
  filename : string;
  statusmsg : Status
}.

Definition set_doc (e : Editor) (d : Doc) : Editor :=
  mkEditor d (view e) (filename e) (statusmsg e).
Definition set_view (e : Editor) (v : View) : Editor :=
  mkEditor (doc e) v (filename e) (statusmsg e).
Definition set_filename (e : Editor) (f : string) : Editor :=
  mkEditor (doc e) (view e) f (statusmsg e).
Definition editor_set_status (e : Editor) (m : Status) : Editor :=
  mkEditor (doc e) (view e) (filename e) m.
Definition set_dirty (e : Editor) (x : bool) : Editor :=
  set_doc e {| buf := buf (doc e); dirty := x |}.

(** [view.cx = x; view.cy = y] *)
Definition set_cursor (v : View) (x y : Z) : View :=
  mkView x y (rowoff v) (coloff v) (screenrows v) (screencols v).
Definition set_rowoff (v : View) (r : Z) : View :=
  mkView (cx v) (cy v) r (coloff v) (screenrows v) (screencols v).
Definition set_coloff (v : View) (c : Z) : View :=
  mkView (cx v) (cy v) (rowoff v) c (screenrows v) (screencols v).

#[global] Arguments set_doc _ _ /.
#[global] Arguments set_view _ _ /.
#[global] Arguments set_filename _ _ /.
#[global] Arguments editor_set_status _ _ /.
#[global] Arguments set_dirty _ _ /.
#[global] Arguments set_cursor _ _ _ /.
#[global] Arguments set_rowoff _ _ /.
#[global] Arguments set_coloff _ _ /.

(** One [read] that does not wait for a byte. *)
Definition read1 (inp : list rd) : option Z * list rd :=
  match inp with
  | RByte b :: rest => (Some b, rest)
  | _ :: rest => (None, rest)
  | [] => (None, [])
  end.

Definition editor_read_key (inp : list rd) : res (Z * list rd) :=
  '(c, inp) ← wait_byte inp;
  if decide (c = 27) then
    match read1 inp with
    | (None, inp) => Ok (27, inp)
    | (Some seq0, inp) =>
        match read1 inp with
        | (None, inp) => Ok (27, inp)
        | (Some seq1, inp) =>
            if decide (seq0 = 91) then                          (* '[' *)
              if decide (48 ≤ seq1 ≤ 57) then
                match read1 inp with
                | (None, inp) => Ok (27, inp)
                | (Some seq2, inp) =>
                    if decide (seq2 = 126) then                 (* '~' *)
                      Ok (match seq1 with
                          | 49 => 72        (* '1' Home *)
                          | 52 => 69        (* '4' End *)
                          | 51 => 127       (* '3' Delete *)
                          | 53 => 1005      (* '5' PageUp *)
                          | 54 => 1006      (* '6' PageDown *)
                          | _ => 27
                          end, inp)
                    else Ok (27, inp)
                end
              else
                Ok (match seq1 with
                    | 65 => 1001
                    | 66 => 1002
                    | 67 => 1003
                    | 68 => 1004
                    | 72 => 72
                    | 70 => 69
                    | _ => 27
                    end, inp)
            else Ok (27, inp)
        end
    end
  else Ok (int_of_char c, inp).

Definition editor_open (os : OS) (e : Editor) (path : string) : res Editor :=
  match fs os !! path with
  | None => Ok (set_filename e (snprintf256 path))
  | Some content =>
      d ← load_file content;
      Ok (set_filename (set_doc e d) (snprintf256 path))
  end.

Definition editor_save (os : OS) (e : Editor) : res (OS * Editor * bool) :=
  let '(opened, os) := sys_open_trunc os (filename e) in
  if negb opened then Ok (os, e, false)
  else
    let b := buf (doc e) in
    '(os, ok) ← write_lines (Z.to_nat (count b)) os b (filename e) 0;
    let '(_, os) := sys_ok os (* close *) in
    if (ok : bool) then Ok (os, set_dirty e false, true)
    else Ok (os, e, false).

Definition editor_scroll (v : View) : View :=
  let v := if decide (cy v < rowoff v) then set_rowoff v (cy v) else v in
  let v := if decide (cy v >= rowoff v + screenrows v - 1)
           then set_rowoff v (cy v - screenrows v + 2) else v in
  if decide (coloff v < 0) then set_coloff v 0 else v.

Definition move_cursor (e : Editor) (key : Z) : res Editor :=
  let v := view e in
  let b := buf (doc e) in
  match key with
  | 1004 =>                                           (* Left *)
      if decide (cx v > 0) then Ok (set_view e (set_cursor v (cx v - 1) (cy v)))
      else if decide (cy v > 0) then
        L ← slot (len b) (cy v - 1);
        Ok (set_view e (set_cursor v L (cy v - 1)))
      else Ok e
  | 1003 =>                                           (* Right *)
      if decide (cy v < count b) then
        L ← slot (len b) (cy v);
        if decide (cx v < L) then Ok (set_view e (set_cursor v (cx v + 1) (cy v)))
        else if decide (cy v + 1 < count b) then
          Ok (set_view e (set_cursor v 0 (cy v + 1)))
        else Ok e
      else Ok e
  | 1001 =>                                           (* Up *)
      let y := if decide (cy v > 0) then cy v - 1 else cy v in
      L ← slot (len b) y;
      Ok (set_view e (set_cursor v (if decide (cx v > L) then L else cx v) y))
  | 1002 =>                                           (* Down *)
      let y := if decide (cy v + 1 < count b) then cy v + 1 else cy v in
      L ← slot (len b) y;
      Ok (set_view e (set_cursor v (if decide (cx v > L) then L else cx v) y))
  | 72 => Ok (set_view e (set_cursor v 0 (cy v)))      (* 'H' Home *)
  | 69 =>                                             (* 'E' End *)
      L ← slot (len b) (cy v);
      Ok (set_view e (set_cursor v L (cy v)))
  | _ => Ok e
  end.

Definition insert_char (e : Editor) (c : Z) : res Editor :=
  let v := view e in
  d ← buffer_insert_char (doc e) (cy v) (cx v) c;
  Ok (set_view (set_doc e d) (set_cursor v (cx v + 1) (cy v))).

Definition insert_newline (e : Editor) : res Editor :=
  let v := view e in
  d ← buffer_split_line (doc e) (cy v) (cx v);
  Ok (set_view (set_doc e d) (set_cursor v 0 (cy v + 1))).

Definition backspace_op (e : Editor) : res Editor :=
  let v := view e in
  if decide (cx v > 0) then
    d ← buffer_delete_char (doc e) (cy v) (cx v);
    Ok (set_view (set_doc e d) (set_cursor v (cx v - 1) (cy v)))
  else if decide (cy v > 0) then
    prev_len ← slot (len (buf (doc e))) (cy v - 1);
    d ← buffer_join_with_prev (doc e) (cy v);
    Ok (set_view (set_doc e d) (set_cursor v prev_len (cy v - 1)))
  else Ok e.

(** The [if]/[else if] chain of the main loop on key [c]; the boolean
    is true when the loop is left with [break]. *)
Definition main_dispatch (os : OS) (e : Editor) (c : Z) : res (OS * Editor * bool) :=
  if decide (c = CTRL_KEY 113) then Ok (os, e, true)                 (* Ctrl-Q *)
  else if decide (c = CTRL_KEY 115) then                             (* Ctrl-S *)
    '(os, e, saved) ← editor_save os e;
    Ok (os, if (saved : bool) then editor_set_status e (MsgSaved (filename e))
            else editor_set_status e MsgSaveFailed, false)
  else if decide (c = 1001 ∨ c = 1002 ∨ c = 1003 ∨ c = 1004 ∨ c = 72 ∨ c = 69) then
    e ← move_cursor e c; Ok (os, e, false)
  else if decide (c = 13 ∨ c = 10) then
    e ← insert_newline e; Ok (os, e, false)
  else if decide (c = 127) then
    e ← backspace_op e; Ok (os, e, false)
  else if isprint c then
    e ← insert_char e c; Ok (os, e, false)
  else Ok (os, e, false).

(** One round of [while (1)] in [main], from [editor_scroll] to the end
    of the key dispatch.  The closing [editor_init_dimensions], which
    probes the terminal for its size, may read the terminal's answer
    from the standard input and rewrites [screenrows] and
    [screencols], is not part of the model: [main_step] is the round
    up to that call, not the whole round. *)
Definition main_step (os : OS) (e : Editor) : res (OS * Editor * bool) :=
  let e := set_view e (editor_scroll (view e)) in
  '(c, inp) ← editor_read_key (stdin os);
  let os := set_stdin os inp in
  if decide (c = 0) then Ok (os, e, false)
  else main_dispatch os e c.

Definition cursor_ok (e : Editor) : Prop :=
  0 ≤ cy (view e) < count (buf (doc e)) ∧
  ∃ L, slot (len (buf (doc e))) (cy (view e)) = Ok L ∧ 0 ≤ cx (view e) ≤ L.
(** *** Drawing *)

(** What one round of the row loop of [editor_draw_screen] writes
    between clearing the line and the line end. *)
Inductive row_out : Type :=
| RowBanner (name : string)      (* dprintf "~  %s" with the file name *)
| RowTilde                       (* "~" *)
| RowText (bytes : list Z).      (* the bytes of the line that fit *)

Definition draw_row (e : Editor) (y : Z) : res row_out :=
  let b := buf (doc e) in
  let v := view e in
  let filerow := rowoff v + y in
  if decide (filerow >= count b) then
    if decide (count b = 1) then
      L0 ← slot (len b) 0;
      if decide (L0 = 0 ∧ y = 0) then Ok (RowBanner (filename e)) else Ok RowTilde
    else Ok RowTilde
  else
    L ← slot (len b) filerow;
    let len := L - coloff v in
    let len := if decide (len < 0) then 0 else len in
    let len := if decide (len > screencols v) then screencols v else len in
    blk ← slot (lines b) filerow;
    bytes ← peek blk (coloff v) len;
    Ok (RowText bytes).

Definition screen_cursor (v : View) : Z * Z :=
  let scr_y := cy v - rowoff v in
  let scr_x := cx v - coloff v in
  let scr_y := if decide (scr_y < 0) then 0 else scr_y in
  let scr_y := if decide (scr_y >= screenrows v - 1) then screenrows v - 2 else scr_y in
  let scr_x := if decide (scr_x < 0) then 0 else scr_x in
  let scr_x := if decide (scr_x >= screencols v) then screencols v - 1 else scr_x in
  (scr_y + 1, scr_x + 1).
End V1.

(** ** Auxiliary notions of the statements *)

(** What every step of [reachable] preserves: the memory shape, and the
    absence of NUL when no NUL goes in. *)
Definition buf_inv (nz : Prop) (d : Doc) : Prop :=
  buf_ok (buf d) ∧ (nz → nulfree (text (buf d))).

(** What the prompt, the redraw and the status line leave alone. *)
Definition same_but_screen (e e' : V3.Editor) : Prop :=
  V3.doc e' = V3.doc e ∧ V3.filename e' = V3.filename e ∧
  V3.cx (V3.view e') = V3.cx (V3.view e) ∧ V3.cy (V3.view e') = V3.cy (V3.view e) ∧
  V3.pref_cx (V3.view e') = V3.pref_cx (V3.view e) ∧
  V3.last_query e' = V3.last_query e ∧
  V3.last_match_row e' = V3.last_match_row e ∧ V3.last_match_col e' = V3.last_match_col e ∧
  V3.hl_row e' = V3.hl_row e ∧ V3.hl_col e' = V3.hl_col e ∧ V3.hl_len e' = V3.hl_len e ∧
  V3.quit_times_needed e' = V3.quit_times_needed e.

(** How [editor_find] can end: with the cursor where it was and the
    highlight cleared (prompt cancelled, or nothing found), or on a
    match with the highlight on it. *)
Definition find_outcome (e e' : V3.Editor) : Prop :=
  (V3.cx (V3.view e') = V3.cx (V3.view e) ∧ V3.cy (V3.view e') = V3.cy (V3.view e)
   ∧ V3.hl_row e' = -1 ∧ V3.hl_col e' = -1 ∧ V3.hl_len e' = -1
   ∧ (V3.statusmsg e' = MsgCanceled ∨ V3.statusmsg e' = MsgNotFound (V3.last_query e')))
  ∨ (V3.statusmsg e' = MsgFound (V3.last_query e')
     ∧ V3.hl_row e' = V3.cy (V3.view e') ∧ V3.hl_col e' = V3.cx (V3.view e')
     ∧ V3.hl_len e' = Zlen (V3.last_query e')).

(** A round of the loop can end in three ways. *)
Definition completes {A} (r : res A) (P : A → Prop) : Prop :=
  (∃ a, r = Ok a ∧ P a) ∨ r = Err Starved ∨ r = Err Died.

(** The keys for which the [if]/[else if] chain of version 0.3 has a
    branch other than the one of Ctrl-Q and the closing [else]. *)
Definition is_action (c : Z) : bool :=
  bool_decide (c = CTRL_KEY 115 ∨ c = CTRL_KEY 102 ∨ c = CTRL_KEY 110
               ∨ c = 1005 ∨ c = 1006
               ∨ c = 1001 ∨ c = 1002 ∨ c = 1003 ∨ c = 1004 ∨ c = 72 ∨ c = 69
               ∨ c = 13 ∨ c = 10 ∨ c = 127)
  || isprint c.

(** The bytes a terminal sends for the Delete key: ESC [ 3 ~. *)
Definition delete_seq : list rd := [RByte 27; RByte 91; RByte 51; RByte 126].

(** Backspace on a text with the cursor at row [y], column [x]: the byte
    before the cursor goes, or at column 0 the line is joined to the one
    above; at the origin nothing happens. *)
Definition backspace_text (T : list (list Z)) (y x : Z) : list (list Z) :=
  if decide (x > 0) then Spec.deleteChar T (Z.to_nat y) (Z.to_nat x)
  else if decide (y > 0) then Spec.joinWithPrevious T (Z.to_nat y)
  else T.

(** The cursor after it, as (row, column). *)
Definition backspace_cursor (T : list (list Z)) (y x : Z) : Z * Z :=
  if decide (x > 0) then (y, x - 1)
  else if decide (y > 0) then (y - 1, Zlen (default [] (T !! Z.to_nat (y - 1))))
  else (y, x).

(** A line that comes back from a save and a reload as it is: no newline
    in it and no carriage return at its end. *)
Definition reloadable (t : list Z) : Prop := (10 ∉ t) ∧ last t ≠ Some 13.

(** Well-formed states of version 0.1. *)
Definition wf1 (e : V1.Editor) : Prop :=
  buf_ok (buf (V1.doc e)) ∧ V1.cursor_ok e.

(** The part of a line that fits the window: from column [left] on, at
    most [maxw] bytes. *)
Definition window (t : list Z) (left maxw : Z) : list Z :=
  take (Z.to_nat maxw) (drop (Z.to_nat left) t).

(** A highlight that is switched on lies inside its line. *)
Definition hl_inside (e : V3.Editor) : Prop :=
  V3.hl_len e > 0 → V3.hl_col e >= 0 →
  0 ≤ V3.hl_row e ∧
  ∃ t, text (buf (V3.doc e)) !! Z.to_nat (V3.hl_row e) = Some t
       ∧ V3.hl_col e + V3.hl_len e ≤ Zlen t.

(** Scroll offsets are not negative. *)
Definition offsets_ok (e : V3.Editor) : Prop :=
  0 ≤ V3.rowoff (V3.view e) ∧ 0 ≤ V3.coloff (V3.view e).

(** ** Sample states used to exercise the theorems *)

Definition sample_view3 : V3.View := V3.mkView 0 0 0 0 22 80 0.

(** Version 0.3 with the one-line text "hi", modified, file name f.txt. *)
Definition sample_editor3 : V3.Editor :=
  {| V3.doc := mkDoc (mkBuffer [[104; 105; 0]] [2] 1 64) true;
     V3.view := sample_view3;
     V3.filename := "f.txt";
     V3.statusmsg := MsgHelp;
     V3.last_query := [];
     V3.last_match_row := -1;
     V3.last_match_col := -1;
     V3.hl_row := -1; V3.hl_col := -1; V3.hl_len := 0;
     V3.quit_times_needed := 1 |}.

(** The same in version 0.1. *)
Definition sample_editor1 : V1.Editor :=
  {| V1.doc := mkDoc (mkBuffer [[104; 105; 0]] [2] 1 64) true;
     V1.view := V1.mkView 0 0 0 0 22 80;
     V1.filename := "f.txt";
     V1.statusmsg := MsgHelp |}.




(** A run of typing "hi", Enter, "x" and a backspace in version 0.3. *)
Definition c2_sample : Doc :=
  mkDoc (mkBuffer [[104; 105; 0]; [0; 0]] [2; 0] 2 64) true.

(** Two lines, the second with slack behind its terminator. *)
Definition c7_sample : Doc :=
  mkDoc (mkBuffer [[97; 98; 0]; [99; 100; 101; 0; 7]] [2; 3] 2 64) false.

(** No input, no files, no terminal size to report. *)
Definition sample_os_idle : OS := mkOS [] ∅ [] [].

(** Version 0.3 as [main] leaves it before the first key when started
    without a file name. *)
Definition sample_fresh3 : V3.Editor :=
  {| V3.doc := mkDoc (mkBuffer [[0]] [0] 1 64) false;
     V3.view := V3.mkView 0 0 0 0 22 80 0;
     V3.filename := "untitled.txt";
     V3.statusmsg := MsgHelp;
     V3.last_query := [];
     V3.last_match_row := -1;
     V3.last_match_col := -1;
     V3.hl_row := -1; V3.hl_col := -1; V3.hl_len := 0;
     V3.quit_times_needed := 1 |}.

(** The text "hi" unmodified, with the first byte highlighted by an
    earlier search for "h". *)
Definition sample_found3 : V3.Editor :=
  {| V3.doc := mkDoc (mkBuffer [[104; 105; 0]] [2] 1 64) false;
     V3.view := V3.mkView 0 0 0 0 22 80 0;
     V3.filename := "f.txt";
     V3.statusmsg := MsgFound [104];
     V3.last_query := [104];
     V3.last_match_row := 0;
     V3.last_match_col := 0;
     V3.hl_row := 0; V3.hl_col := 0; V3.hl_len := 1;
     V3.quit_times_needed := 1 |}.

(** The user types "z" and Enter. *)
Definition sample_os_query : OS := mkOS [RByte 122; RByte 13] ∅ [] [].

(** The two lines "ab" and "cd" with the cursor at the start of the
    second, in both versions. *)
Definition sample_two_lines3 : V3.Editor :=
  {| V3.doc := mkDoc (mkBuffer [[97; 98; 0]; [99; 100; 0]] [2; 2] 2 64) false;
     V3.view := V3.mkView 0 1 0 0 22 80 0;
     V3.filename := "f.txt";
     V3.statusmsg := MsgEmpty;
     V3.last_query := [];
     V3.last_match_row := -1;
     V3.last_match_col := -1;
     V3.hl_row := -1; V3.hl_col := -1; V3.hl_len := -1;
     V3.quit_times_needed := 1 |}.

Definition sample_two_lines1 : V1.Editor :=
  {| V1.doc := mkDoc (mkBuffer [[97; 98; 0]; [99; 100; 0]] [2; 2] 2 64) false;
     V1.view := V1.mkView 0 1 0 0 22 80;
     V1.filename := "f.txt";
     V1.statusmsg := MsgEmpty |}.

(** The lines "abab", an empty one and "xab", with the cursor at the
    top and "ab" as the query of a search about to start. *)
Definition sample_search3 : V3.Editor :=
  {| V3.doc := mkDoc (mkBuffer [[97; 98; 97; 98; 0]; [0]; [120; 97; 98; 0]]
                               [4; 0; 3] 3 64) false;
     V3.view := V3.mkView 0 0 0 0 22 80 0;
     V3.filename := "f.txt";
     V3.statusmsg := MsgEmpty;
     V3.last_query := [97; 98];
     V3.last_match_row := 0;
     V3.last_match_col := -1;
     V3.hl_row := -1; V3.hl_col := -1; V3.hl_len := -1;
     V3.quit_times_needed := 1 |}.

(** A file whose first line holds a NUL byte, as loaded: the five bytes
    "xx", NUL, "ab" on the first line and "ab" on the second.  The cursor
    is at the top and "ab" is the query of a search about to start. *)
Definition sample_nul3 : V3.Editor :=
  {| V3.doc := mkDoc (mkBuffer [[120; 120; 0; 97; 98; 0]; [97; 98; 0]] [5; 2] 2 64) false;
     V3.view := V3.mkView 0 0 0 0 22 80 0;
     V3.filename := "f.txt";
     V3.statusmsg := MsgEmpty;
     V3.last_query := [97; 98];
     V3.last_match_row := 0;
     V3.last_match_col := -1;
     V3.hl_row := -1; V3.hl_col := -1; V3.hl_len := -1;
     V3.quit_times_needed := 1 |}.

(** The lines "abcd" and "x" with the cursor behind the "c" of the
    first, in both versions. *)
Definition sample_long_short3 : V3.Editor :=
  {| V3.doc := mkDoc (mkBuffer [[97; 98; 99; 100; 0]; [120; 0]] [4; 1] 2 64) false;
     V3.view := V3.mkView 3 0 0 0 22 80 3;
     V3.filename := "f.txt";
     V3.statusmsg := MsgEmpty;
     V3.last_query := [];
     V3.last_match_row := -1;
     V3.last_match_col := -1;
     V3.hl_row := -1; V3.hl_col := -1; V3.hl_len := -1;
     V3.quit_times_needed := 1 |}.

Definition sample_long_short1 : V1.Editor :=
  {| V1.doc := mkDoc (mkBuffer [[97; 98; 99; 100; 0]; [120; 0]] [4; 1] 2 64) false;
     V1.view := V1.mkView 3 0 0 0 22 80;
     V1.filename := "f.txt";
     V1.statusmsg := MsgEmpty |}.

(** The line "abcdef" on a screen three columns wide that shows it from
    column 2 on, with "bcd" highlighted. *)
Definition sample_narrow3 : V3.Editor :=
  {| V3.doc := mkDoc (mkBuffer [[97; 98; 99; 100; 101; 102; 0]] [6] 1 64) false;
     V3.view := V3.mkView 1 0 0 2 22 3 1;
     V3.filename := "f.txt";
     V3.statusmsg := MsgFound [98; 99; 100];
     V3.last_query := [98; 99; 100];
     V3.last_match_row := 0;
     V3.last_match_col := 1;
     V3.hl_row := 0; V3.hl_col := 1; V3.hl_len := 3;
     V3.quit_times_needed := 1 |}.

(** * Facts about the memory primitives *)

Lemma Zlen_app {A} (a b : list A) : Zlen (a ++ b) = Zlen a + Zlen b.
Proof. unfold Zlen. rewrite length_app. lia. Qed.

Lemma Zlen_cons {A} (x : A) (a : list A) : Zlen (x :: a) = 1 + Zlen a.
Proof. unfold Zlen. simpl. lia. Qed.

Lemma Zlen_nil {A} : Zlen (@nil A) = 0.
Proof. reflexivity. Qed.

Lemma Zlen_nonneg {A} (a : list A) : 0 ≤ Zlen a.
Proof. unfold Zlen. lia. Qed.

Lemma to_nat_Zlen {A} (a : list A) : Z.to_nat (Zlen a) = length a.
Proof. unfold Zlen. lia. Qed.

Create Rewrite HintDb zlen.
#[global] Hint Rewrite @Zlen_app @Zlen_cons @Zlen_nil : zlen.

Ltac zlen := autorewrite with zlen in *.

Lemma insert_middle {A} (l1 l2 : list A) x y :
  <[length l1 := y]> (l1 ++ x :: l2) = l1 ++ y :: l2.
Proof. rewrite insert_app_r_alt by lia. by rewrite Nat.sub_diag. Qed.

Lemma alter_middle {A} (f : A → A) (l1 l2 : list A) x :
  alter f (length l1) (l1 ++ x :: l2) = l1 ++ f x :: l2.
Proof. rewrite alter_app_r_alt by lia. by rewrite Nat.sub_diag. Qed.

Lemma take_middle {A} (l1 l2 : list A) x n :
  n = length l1 → take n (l1 ++ x :: l2) = l1.
Proof. intros ->. by rewrite take_app_length. Qed.

Lemma drop_S_middle {A} (l1 l2 : list A) x n :
  n = length l1 → drop (S n) (l1 ++ x :: l2) = l2.
Proof.
  intros ->. rewrite (cons_middle x), app_assoc.
  replace (S (length l1)) with (length (l1 ++ [x])) by (rewrite length_app; simpl; lia).
  by rewrite drop_app_length.
Qed.

Lemma lookup_S_middle {A} (l1 l2 : list A) x y n :
  n = length l1 → (l1 ++ x :: y :: l2) !! S n = Some y.
Proof.
  intros ->. rewrite (cons_middle x), app_assoc.
  apply list_lookup_middle. rewrite length_app. simpl. lia.
Qed.

Lemma drop_SS_middle {A} (l1 l2 : list A) x y n :
  n = length l1 → drop (S (S n)) (l1 ++ x :: y :: l2) = l2.
Proof.
  intros ->. rewrite (cons_middle x), app_assoc.
  apply drop_S_middle. rewrite length_app. simpl. lia.
Qed.

Lemma slot_app {A} (l1 : list A) x l2 i :
  i = Zlen l1 → slot (l1 ++ x :: l2) i = Ok x.
Proof.
  intros ->. unfold slot. rewrite decide_True by apply Zlen_nonneg.
  rewrite to_nat_Zlen. by rewrite list_lookup_middle.
Qed.

Lemma slot_Ok {A} (l : list A) i x :
  slot l i = Ok x ↔ 0 ≤ i ∧ l !! Z.to_nat i = Some x.
Proof.
  unfold slot. case_decide.
  - destruct (l !! Z.to_nat i) eqn:E; split.
    + intros [= ->]. done.
    + intros [_ [= ->]]. done.
    + discriminate.
    + intros [_ [=]].
  - split; [discriminate | lia].
Qed.

Lemma slot_Fault {A} (l : list A) i h : slot l i = Err h → h = Fault.
Proof.
  unfold slot. case_decide; [destruct (l !! _)|]; congruence.
Qed.

Lemma memcpy_app (a m z src : list Z) off n :
  off = Zlen a → n = Zlen m → n ≤ Zlen src →
  memcpy (a ++ m ++ z) off src n = Ok (a ++ take (length m) src ++ z).
Proof.
  intros -> -> Hs. unfold memcpy.
  rewrite decide_True.
  2:{ zlen. pose proof (Zlen_nonneg a). pose proof (Zlen_nonneg m).
      pose proof (Zlen_nonneg z). lia. }
  f_equal. rewrite !to_nat_Zlen.
  rewrite take_app_length. f_equal. f_equal.
  replace (Z.to_nat (Zlen a + Zlen m)) with (length (a ++ m))
    by (rewrite length_app; unfold Zlen; lia).
  by rewrite app_assoc, drop_app_length.
Qed.

Lemma memmove_app (a m z src pre : list Z) to from n blk :
  blk = a ++ m ++ z → blk = pre ++ src →
  to = Zlen a → n = Zlen m → from = Zlen pre → n ≤ Zlen src →
  memmove blk to from n = Ok (a ++ take (length m) src ++ z).
Proof.
  intros E1 E2 -> -> -> Hs. unfold memmove.
  rewrite decide_True by apply Zlen_nonneg.
  rewrite to_nat_Zlen. rewrite E2 at 2. rewrite drop_app_length.
  rewrite E1. by apply memcpy_app.
Qed.

Lemma poke_app (a z : list Z) x i v :
  i = Zlen a → poke (a ++ x :: z) i v = Ok (a ++ v :: z).
Proof.
  intros ->. unfold poke. rewrite decide_True.
  2:{ zlen. pose proof (Zlen_nonneg a). pose proof (Zlen_nonneg z). lia. }
  f_equal. rewrite to_nat_Zlen.
  rewrite insert_app_r_alt by lia. by rewrite Nat.sub_diag.
Qed.

(** A block of a well-formed line is its bytes, the terminator, and slack. *)
Lemma line_ok_split blk L :
  line_ok blk L ↔ ∃ t s, blk = t ++ 0 :: s ∧ L = Zlen t.
Proof.
  split.
  - intros [[H0 H1] H2].
    exists (take (Z.to_nat L) blk), (drop (S (Z.to_nat L)) blk). split.
    + by rewrite <- (take_drop_middle _ _ _ H2) at 1.
    + unfold Zlen in *. rewrite length_take. lia.
  - intros (t & s & -> & ->). split.
    + zlen. pose proof (Zlen_nonneg t). pose proof (Zlen_nonneg s). lia.
    + rewrite to_nat_Zlen. apply list_lookup_middle. done.
Qed.

Lemma row_bytes_app t s : row_bytes (t ++ s) (Zlen t) = t.
Proof. unfold row_bytes. by rewrite to_nat_Zlen, take_app_length. Qed.

Lemma realloc_app (t s : list Z) n :
  Zlen t ≤ n →
  ∃ j, realloc (t ++ s) n = t ++ j ∧ Zlen j = n - Zlen t.
Proof.
  intros H. unfold realloc.
  exists (take (Z.to_nat n - length t) s
            ++ replicate (Z.to_nat n - length (t ++ s)) indeterminate).
  split.
  - rewrite take_app. rewrite take_ge by (unfold Zlen in H; lia).
    by rewrite <- app_assoc.
  - zlen. unfold Zlen in *. rewrite length_take, length_replicate, length_app. lia.
Qed.

(** * The buffer functions refine the text operations *)

Lemma text_app l1 l2 n1 n2 :
  length l1 = length n1 →
  zip_with row_bytes (l1 ++ l2) (n1 ++ n2)
  = zip_with row_bytes l1 n1 ++ zip_with row_bytes l2 n2.
Proof. intros. by apply zip_with_app. Qed.

Lemma text_length b : buf_ok b → Zlen (text b) = count b.
Proof.
  intros [H1 H2 _ _]. unfold text, Zlen in *.
  rewrite length_zip_with_l_eq; [lia|]. by eapply Forall2_length.
Qed.

Lemma len_text b : buf_ok b → len b = Zlen <$> text b.
Proof.
  intros [H _ _ _]. unfold text. induction H as [|blk L ls ns [H1 H2] _ IH]; [done|].
  simpl. f_equal; [|done]. unfold row_bytes, Zlen in *. rewrite length_take. lia.
Qed.

(** The shape of a well-formed buffer around a valid row. *)
Lemma buf_ok_row b row :
  buf_ok b → 0 ≤ row < count b →
  ∃ l1 t s l2 n1 n2,
    lines b = l1 ++ (t ++ 0 :: s) :: l2 ∧ len b = n1 ++ Zlen t :: n2 ∧
    Zlen l1 = row ∧ Zlen n1 = row ∧
    Forall2 line_ok l1 n1 ∧ Forall2 line_ok l2 n2.
Proof.
  intros [H Hc _ _] Hr.
  assert (Hlt : (Z.to_nat row < length (lines b))%nat) by (unfold Zlen in Hc; lia).
  destruct (lookup_lt_is_Some_2 _ _ Hlt) as [blk Hblk].
  destruct (Forall2_lookup_l _ _ _ _ _ H Hblk) as (L & HL & Hok).
  apply line_ok_split in Hok as (t & s & -> & ->).
  exists (take (Z.to_nat row) (lines b)), t, s, (drop (S (Z.to_nat row)) (lines b)),
         (take (Z.to_nat row) (len b)), (drop (S (Z.to_nat row)) (len b)).
  pose proof (Forall2_length _ _ _ H) as Hlen.
  repeat split.
  - by rewrite take_drop_middle.
  - by rewrite take_drop_middle.
  - unfold Zlen. rewrite length_take. lia.
  - unfold Zlen. rewrite length_take. lia.
  - by apply Forall2_take.
  - by apply Forall2_drop.
Qed.

Lemma memmove_in_range blk to from n :
  0 ≤ from → 0 ≤ to → 0 ≤ n → to + n ≤ Zlen blk → from + n ≤ Zlen blk →
  memmove blk to from n
  = Ok (take (Z.to_nat to) blk ++ take (Z.to_nat n) (drop (Z.to_nat from) blk)
          ++ drop (Z.to_nat (to + n)) blk).
Proof.
  intros. unfold memmove, memcpy. rewrite decide_True by done.
  rewrite decide_True; [done|].
  unfold Zlen in *. rewrite length_drop. lia.
Qed.

Lemma clamp_col_range col L : 0 ≤ L → 0 ≤ clamp_col col L ≤ L.
Proof. unfold clamp_col. intros. repeat case_decide; lia. Qed.

Lemma clamp_col_id col L : 0 ≤ col ≤ L → clamp_col col L = col.
Proof. unfold clamp_col. intros. repeat case_decide; lia. Qed.

(** Shifting the tail of a line right by one and storing a byte. *)
Lemma shift_right_store (ta tb : list Z) x c :
  <[length ta := c]>
    (take (length ta + 1) (ta ++ tb ++ [0; x])
       ++ take (length tb + 1) (drop (length ta) (ta ++ tb ++ [0; x]))
       ++ drop (length ta + 1 + (length tb + 1)) (ta ++ tb ++ [0; x]))
  = ta ++ c :: tb ++ [0].
Proof.
  induction ta as [|a ta IH]; simpl.
  - rewrite drop_0. destruct tb as [|b tb]; simpl.
    + done.
    + f_equal. f_equal.
      replace (S (length tb + 1)) with (length tb + 2)%nat by lia.
      rewrite take_app_add', drop_app_add' by lia. simpl.
      by rewrite <- app_assoc.
  - f_equal. apply IH.
Qed.

Lemma realloc_line (t s : list Z) (extra : nat) :
  ∃ j, realloc (t ++ 0 :: s) (Zlen t + 1 + Z.of_nat extra) = t ++ 0 :: j
       ∧ length j = extra.
Proof.
  destruct (realloc_app (t ++ [0]) s (Zlen t + 1 + Z.of_nat extra)) as (j & Hj & Hl).
  { rewrite Zlen_app, Zlen_cons, Zlen_nil. lia. }
  exists j. rewrite <- !app_assoc in Hj. simpl in Hj. split; [done|].
  rewrite Zlen_app, Zlen_cons, Zlen_nil in Hl. unfold Zlen in Hl. lia.
Qed.

Lemma insert_char_block (ta tb s : list Z) c :
  memmove (realloc ((ta ++ tb) ++ 0 :: s) (Zlen (ta ++ tb) + 2))
          (Zlen ta + 1) (Zlen ta) (Zlen (ta ++ tb) - Zlen ta + 1)
    ≫= (λ blk, poke blk (Zlen ta) c)
  = Ok ((ta ++ c :: tb) ++ [0]).
Proof.
  destruct (realloc_line (ta ++ tb) s 1) as (j & Hj & Hjl).
  replace (Zlen (ta ++ tb) + 1 + Z.of_nat 1) with (Zlen (ta ++ tb) + 2) in Hj by lia.
  rewrite Hj. destruct j as [|x [|? ?]]; try discriminate. clear Hj Hjl.
  assert (Hlen : Zlen ((ta ++ tb) ++ [0; x]) = Zlen ta + Zlen tb + 2).
  { rewrite !Zlen_app, !Zlen_cons, Zlen_nil. lia. }
  rewrite Zlen_app.
  rewrite memmove_in_range; unfold Zlen in *; try lia.
  simpl. unfold poke. rewrite decide_True.
  2:{ unfold Zlen. rewrite !length_app, !length_take, !length_drop, !length_app.
      simpl. lia. }
  f_equal.
  replace (Z.to_nat (Z.of_nat (length ta))) with (length ta) by lia.
  replace (Z.to_nat (Z.of_nat (length ta) + 1)) with (length ta + 1)%nat by lia.
  replace (Z.to_nat (Z.of_nat (length ta) + Z.of_nat (length tb)
                     - Z.of_nat (length ta) + 1))
    with (length tb + 1)%nat by lia.
  replace (Z.to_nat (Z.of_nat (length ta) + 1
                     + (Z.of_nat (length ta) + Z.of_nat (length tb)
                        - Z.of_nat (length ta) + 1)))
    with (length ta + 1 + (length tb + 1))%nat by lia.
  rewrite <- (app_assoc ta).
  rewrite shift_right_store. by rewrite <- app_assoc.
Qed.

Lemma buffer_insert_char_shape l1 t s l2 n1 n2 cnt cp dty col c :
  Zlen l1 = Zlen n1 →
  let k := Z.to_nat (clamp_col col (Zlen t)) in
  V3buf.buffer_insert_char
    (mkDoc (mkBuffer (l1 ++ (t ++ 0 :: s) :: l2) (n1 ++ Zlen t :: n2) cnt cp) dty)
    (Zlen l1) col c
  = Ok (mkDoc (mkBuffer (l1 ++ ((take k t ++ c :: drop k t) ++ [0]) :: l2)
                        (n1 ++ (Zlen t + 1) :: n2) cnt cp) true).
Proof.
  intros Hl k. unfold V3buf.buffer_insert_char. simpl.
  rewrite (slot_app n1) by done. simpl.
  rewrite (slot_app l1) by done. simpl.
  pose proof (clamp_col_range col (Zlen t) (Zlen_nonneg t)) as Hk.
  pose proof (insert_char_block (take k t) (drop k t) s c) as Hb.
  rewrite take_drop in Hb.
  replace (Zlen (take k t)) with (clamp_col col (Zlen t)) in Hb.
  2:{ unfold Zlen in *. rewrite length_take. lia. }
  destruct (memmove _ _ _ _) as [blk|]; simpl in *; [|discriminate].
  rewrite Hb. simpl.
  rewrite to_nat_Zlen, insert_middle.
  replace (length l1) with (length n1) by (unfold Zlen in Hl; lia).
  by rewrite insert_middle.
Qed.

Lemma delete_char_block (ta tb s : list Z) y :
  memmove ((ta ++ y :: tb) ++ 0 :: s) (Zlen ta + 1 - 1) (Zlen ta + 1)
          (Zlen (ta ++ y :: tb) - (Zlen ta + 1) + 1)
  = Ok ((ta ++ tb) ++ 0 :: 0 :: s).
Proof.
  rewrite memmove_in_range;
    rewrite ?Zlen_app, ?Zlen_cons; unfold Zlen; try lia.
  f_equal.
  replace (Z.to_nat (Z.of_nat (length ta) + 1 - 1)) with (length ta) by lia.
  replace (Z.to_nat (Z.of_nat (length ta) + 1)) with (length (ta ++ [y]))
    by (rewrite length_app; simpl; lia).
  replace (Z.to_nat (Z.of_nat (length ta) + (1 + Z.of_nat (length tb))
                     - (Z.of_nat (length ta) + 1) + 1))
    with (length tb + 1)%nat by lia.
  replace (Z.to_nat (Z.of_nat (length ta) + 1 - 1
                     + (Z.of_nat (length ta) + (1 + Z.of_nat (length tb))
                        - (Z.of_nat (length ta) + 1) + 1)))
    with (length (ta ++ y :: tb))%nat by (rewrite length_app; simpl; lia).
  rewrite drop_app_length.
  rewrite <- app_assoc, take_app_length.
  replace (ta ++ (y :: tb) ++ 0 :: s) with ((ta ++ [y]) ++ tb ++ 0 :: s)
    by (by rewrite <- app_assoc).
  rewrite drop_app_length. rewrite take_app_add' by done. simpl.
  by rewrite <- !app_assoc.
Qed.

Lemma buffer_delete_char_shape l1 t s l2 n1 n2 cnt cp dty col :
  Zlen l1 = Zlen n1 → 0 < col ≤ Zlen t →
  let k := Z.to_nat col in
  V3buf.buffer_delete_char
    (mkDoc (mkBuffer (l1 ++ (t ++ 0 :: s) :: l2) (n1 ++ Zlen t :: n2) cnt cp) dty)
    (Zlen l1) col
  = Ok (mkDoc (mkBuffer (l1 ++ ((take (k - 1) t ++ drop k t) ++ 0 :: 0 :: s) :: l2)
                        (n1 ++ (Zlen t - 1) :: n2) cnt cp) true).
Proof.
  intros Hl Hc k. unfold V3buf.buffer_delete_char. simpl.
  rewrite (slot_app n1) by done. simpl.
  rewrite decide_False by lia.
  rewrite (slot_app l1) by done. simpl.
  assert (Hlk : (k - 1 < length t)%nat) by (unfold Zlen in *; lia).
  destruct (lookup_lt_is_Some_2 _ _ Hlk) as [y Hy].
  pose proof (delete_char_block (take (k - 1) t) (drop (S (k - 1)) t) s y) as Hb.
  rewrite take_drop_middle in Hb by done.
  replace (Zlen (take (k - 1) t) + 1) with col in Hb.
  2:{ unfold Zlen in *. rewrite length_take. lia. }
  rewrite Hb. simpl.
  replace (S (k - 1)) with k by lia.
  rewrite to_nat_Zlen, insert_middle.
  replace (length l1) with (length n1) by (unfold Zlen in Hl; lia).
  by rewrite insert_middle.
Qed.

Lemma buffer_delete_char_noop d row col L :
  slot (len (buf d)) row = Ok L → ¬ (0 < col ≤ L) →
  V3buf.buffer_delete_char d row col = Ok d.
Proof.
  intros HL Hc. unfold V3buf.buffer_delete_char. rewrite HL. simpl.
  rewrite decide_True by lia. done.
Qed.

Lemma grow_cap_ok fuel c need :
  1 ≤ c → need - c ≤ Z.of_nat fuel →
  ∃ c', grow_cap fuel c need = Ok c' ∧ 1 ≤ c'.
Proof.
  revert c. induction fuel as [|f IH]; intros c Hc Hf; simpl.
  - rewrite decide_False by lia. eauto.
  - case_decide; [|eauto]. apply IH; lia.
Qed.

Lemma buffer_ensure_capacity_ok b need :
  1 ≤ cap b → 0 ≤ need →
  ∃ c', buffer_ensure_capacity b need
        = Ok (mkBuffer (lines b) (len b) (count b) c') ∧ 1 ≤ c'.
Proof.
  intros Hc Hn. unfold buffer_ensure_capacity. case_decide.
  - exists (cap b). by destruct b.
  - destruct (grow_cap_ok (Z.to_nat need) (cap b) need) as (c' & -> & ?); [lia..|].
    simpl. eauto.
Qed.

Lemma fresh_line_block (src : list Z) n :
  0 ≤ n ≤ Zlen src →
  memcpy (malloc (n + 1)) 0 src n ≫= (λ blk, poke blk n 0)
  = Ok (take (Z.to_nat n) src ++ [0]).
Proof.
  intros Hn. unfold malloc.
  replace (Z.to_nat (n + 1)) with (Z.to_nat n + 1)%nat by lia.
  rewrite replicate_add. simpl.
  pose proof (memcpy_app [] (replicate (Z.to_nat n) indeterminate) [indeterminate]
                src 0 n) as Hm.
  simpl in Hm. rewrite Hm; [|done| |lia].
  2:{ unfold Zlen. rewrite length_replicate. lia. }
  simpl. rewrite length_replicate.
  rewrite poke_app; [done|].
  unfold Zlen in *. rewrite length_take. lia.
Qed.

Lemma arr_open_full {A} (a : list A) at_ x :
  0 ≤ at_ ≤ Zlen a →
  arr_open at_ (Zlen a) x a = take (Z.to_nat at_) a ++ x :: drop (Z.to_nat at_) a.
Proof.
  intros H. unfold arr_open. do 2 f_equal.
  apply take_ge. unfold Zlen in *. rewrite length_drop. lia.
Qed.

Lemma arr_close_full {A} (a : list A) row :
  0 ≤ row →
  arr_close row (Zlen a) a = take (Z.to_nat row) a ++ drop (S (Z.to_nat row)) a.
Proof.
  intros H. unfold arr_close. f_equal.
  replace (Z.to_nat (row + 1)) with (S (Z.to_nat row)) by lia.
  apply take_ge. unfold Zlen in *. rewrite length_drop. lia.
Qed.

Lemma buffer_insert_line_shape b dty at_ src n :
  count b = Zlen (lines b) → Zlen (lines b) = Zlen (len b) → 1 ≤ cap b →
  0 ≤ at_ ≤ count b → 0 ≤ n ≤ Zlen src →
  ∃ c',
    buffer_insert_line (mkDoc b dty) at_ src n
    = Ok (mkDoc (mkBuffer
                   (take (Z.to_nat at_) (lines b) ++ (take (Z.to_nat n) src ++ [0])
                      :: drop (Z.to_nat at_) (lines b))
                   (take (Z.to_nat at_) (len b) ++ n :: drop (Z.to_nat at_) (len b))
                   (count b + 1) c') dty)
    ∧ 1 ≤ c'.
Proof.
  intros Hc Hl Hcap Hat Hn. unfold buffer_insert_line. simpl.
  rewrite decide_False by lia.
  destruct (buffer_ensure_capacity_ok b (count b + 1)) as (c' & -> & Hc'); [lia..|].
  simpl. exists c'. split; [|done].
  pose proof (fresh_line_block src n Hn) as Hb.
  destruct (memcpy _ _ _ _) as [blk|]; simpl in *; [|discriminate].
  rewrite Hb. simpl.
  rewrite Hc at 1. rewrite arr_open_full by lia.
  rewrite Hc, Hl. rewrite arr_open_full by lia. done.
Qed.

Lemma buffer_split_line_shape l1 t s l2 n1 n2 cp dty col :
  Zlen l1 = Zlen n1 → Zlen l2 = Zlen n2 → 1 ≤ cp →
  let k := Z.to_nat (clamp_col col (Zlen t)) in
  ∃ s' c',
    V3buf.buffer_split_line
      (mkDoc (mkBuffer (l1 ++ (t ++ 0 :: s) :: l2) (n1 ++ Zlen t :: n2)
                       (Zlen l1 + 1 + Zlen l2) cp) dty)
      (Zlen l1) col
    = Ok (mkDoc (mkBuffer (l1 ++ (take k t ++ 0 :: s') :: (drop k t ++ [0]) :: l2)
                          (n1 ++ Z.of_nat k :: (Zlen t - Z.of_nat k) :: n2)
                          (Zlen l1 + 2 + Zlen l2) c') true)
    ∧ 1 ≤ c'.
Proof.
  intros Hl1 Hl2 Hcp k. unfold V3buf.buffer_split_line. simpl.
  rewrite (slot_app n1) by done. simpl.
  rewrite (slot_app l1) by done. simpl.
  pose proof (clamp_col_range col (Zlen t) (Zlen_nonneg t)) as Hk.
  set (k' := clamp_col col (Zlen t)) in *.
  set (b := mkBuffer _ _ _ _).
  destruct (buffer_insert_line_shape b dty (Zlen l1 + 1)
              (drop (Z.to_nat k') (t ++ 0 :: s)) (Zlen t - k')) as (c' & -> & Hc').
  { subst b. simpl. rewrite Zlen_app, Zlen_cons. lia. }
  { subst b. simpl. rewrite !Zlen_app, !Zlen_cons. lia. }
  { done. }
  { subst b. simpl. pose proof (Zlen_nonneg l2). pose proof (Zlen_nonneg l1). lia. }
  { unfold Zlen in *. rewrite length_drop, length_app. simpl. lia. }
  subst b. simpl.
  replace (Z.to_nat (Zlen l1 + 1)) with (length (l1 ++ [t ++ 0 :: s]))
    by (rewrite length_app; simpl; unfold Zlen; lia).
  replace (l1 ++ (t ++ 0 :: s) :: l2) with ((l1 ++ [t ++ 0 :: s]) ++ l2)
    by (by rewrite <- app_assoc).
  rewrite take_app_length, drop_app_length.
  replace (length (l1 ++ [t ++ 0 :: s])) with (length (n1 ++ [Zlen t]))
    by (rewrite !length_app; simpl; unfold Zlen in *; lia).
  replace (n1 ++ Zlen t :: n2) with ((n1 ++ [Zlen t]) ++ n2)
    by (by rewrite <- app_assoc).
  rewrite take_app_length, drop_app_length.
  rewrite <- !app_assoc. simpl.
  rewrite (slot_app l1) by done. simpl.
  (* the byte at column k of the block *)
  assert (Hblk : ∃ x s', t ++ 0 :: s = take k t ++ x :: s').
  { destruct (drop k t ++ 0 :: s) as [|x s'] eqn:E.
    - destruct (drop k t); discriminate.
    - exists x, s'. rewrite <- E, app_assoc, take_drop. done. }
  destruct Hblk as (x & s' & Hblk). rewrite Hblk.
  rewrite poke_app.
  2:{ unfold Zlen in *. rewrite length_take. lia. }
  simpl. exists s', c'. split; [|done].
  rewrite to_nat_Zlen, insert_middle.
  replace (length l1) with (length n1) by (unfold Zlen in *; lia).
  rewrite insert_middle.
  do 3 f_equal.
  - do 2 f_equal. rewrite <- Hblk. fold k.
    rewrite drop_app_le by (unfold Zlen in *; lia).
    replace (Z.to_nat (Zlen t - k')) with (length (drop k t))
      by (rewrite length_drop; unfold Zlen in *; lia).
    by rewrite take_app_length.
  - do 2 f_equal; [lia|]. f_equal; lia.
  - lia.
Qed.

Lemma arr_close_app {A} (l1 l2 : list A) x y row cnt :
  row = Zlen l1 + 1 → cnt = Zlen l1 + 2 + Zlen l2 →
  arr_close row cnt (l1 ++ x :: y :: l2) = l1 ++ x :: l2.
Proof.
  intros -> ->.
  replace (Zlen l1 + 2 + Zlen l2) with (Zlen (l1 ++ x :: y :: l2)).
  2:{ rewrite Zlen_app, !Zlen_cons. lia. }
  rewrite arr_close_full by (pose proof (Zlen_nonneg l1); lia).
  replace (Z.to_nat (Zlen l1 + 1)) with (length (l1 ++ [x]))
    by (rewrite length_app; simpl; unfold Zlen; lia).
  replace (l1 ++ x :: y :: l2) with ((l1 ++ [x]) ++ y :: l2) by (by rewrite <- app_assoc).
  rewrite take_app_length.
  replace (S (length (l1 ++ [x]))) with (length ((l1 ++ [x]) ++ [y]))
    by (rewrite !length_app; simpl; lia).
  replace ((l1 ++ [x]) ++ y :: l2) with (((l1 ++ [x]) ++ [y]) ++ l2)
    by (by rewrite <- !app_assoc).
  rewrite drop_app_length. by rewrite <- app_assoc.
Qed.

Lemma buffer_join_shape l1 tp sp tc sc l2 n1 n2 cp dty :
  Zlen l1 = Zlen n1 → Zlen l2 = Zlen n2 →
  buffer_join_with_prev
    (mkDoc (mkBuffer (l1 ++ (tp ++ 0 :: sp) :: (tc ++ 0 :: sc) :: l2)
                     (n1 ++ Zlen tp :: Zlen tc :: n2)
                     (Zlen l1 + 2 + Zlen l2) cp) dty)
    (Zlen l1 + 1)
  = Ok (mkDoc (mkBuffer (l1 ++ ((tp ++ tc) ++ [0]) :: l2)
                        (n1 ++ (Zlen tp + Zlen tc) :: n2)
                        (Zlen l1 + 1 + Zlen l2) cp) true).
Proof.
  intros Hl1 Hl2. unfold buffer_join_with_prev. simpl.
  pose proof (Zlen_nonneg l1). pose proof (Zlen_nonneg l2).
  rewrite decide_False by lia.
  replace (Zlen l1 + 1 - 1) with (Zlen l1) by lia.
  rewrite (slot_app n1 _ _ (Zlen l1)) by done. simpl.
  replace (n1 ++ Zlen tp :: Zlen tc :: n2) with ((n1 ++ [Zlen tp]) ++ Zlen tc :: n2)
    by (by rewrite <- app_assoc).
  rewrite (slot_app (n1 ++ [Zlen tp])) by (rewrite Zlen_app, Zlen_cons, Zlen_nil; lia).
  simpl.
  rewrite (slot_app l1 _ _ (Zlen l1)) by done. simpl.
  replace (l1 ++ (tp ++ 0 :: sp) :: (tc ++ 0 :: sc) :: l2)
    with ((l1 ++ [tp ++ 0 :: sp]) ++ (tc ++ 0 :: sc) :: l2)
    by (by rewrite <- app_assoc).
  rewrite (slot_app (l1 ++ [tp ++ 0 :: sp]))
    by (rewrite Zlen_app, Zlen_cons, Zlen_nil; lia).
  simpl.
  destruct (realloc_line tp sp (length tc)) as (j & Hj & Hjl).
  replace (Zlen tp + 1 + Z.of_nat (length tc)) with (Zlen tp + Zlen tc + 1) in Hj
    by (unfold Zlen; lia).
  rewrite Hj.
  pose proof (memcpy_app tp (0 :: j) [] (tc ++ 0 :: sc) (Zlen tp) (Zlen tc + 1)) as Hm.
  rewrite app_nil_r in Hm. rewrite Hm; [|done|..].
  2:{ rewrite Zlen_cons. unfold Zlen. lia. }
  2:{ rewrite Zlen_app, Zlen_cons. pose proof (Zlen_nonneg sc). lia. }
  simpl. rewrite Hjl.
  replace (S (length tc)) with (length (tc ++ [0])) by (rewrite length_app; simpl; lia).
  replace (tc ++ 0 :: sc) with ((tc ++ [0]) ++ sc) by (by rewrite <- app_assoc).
  rewrite take_app_length, app_nil_r.
  rewrite <- !app_assoc. simpl.
  rewrite to_nat_Zlen, insert_middle.
  replace (length l1) with (length n1) by (unfold Zlen in *; lia).
  rewrite insert_middle.
  rewrite arr_close_app by done.
  rewrite arr_close_app by lia.
  do 3 f_equal. lia.
Qed.

Lemma line_ok_intro t s : line_ok (t ++ 0 :: s) (Zlen t).
Proof. apply line_ok_split. eauto. Qed.

Lemma line_ok_intro' t s L : L = Zlen t → line_ok (t ++ 0 :: s) L.
Proof. intros ->. apply line_ok_intro. Qed.

Lemma buf_ok_middle l1 blk l2 n1 L n2 cnt cp :
  Forall2 line_ok l1 n1 → line_ok blk L → Forall2 line_ok l2 n2 →
  cnt = Zlen l1 + 1 + Zlen l2 → 1 ≤ cp →
  buf_ok (mkBuffer (l1 ++ blk :: l2) (n1 ++ L :: n2) cnt cp).
Proof.
  intros F1 Hb F2 -> Hcp. split; simpl; [| |pose proof (Zlen_nonneg l1);
    pose proof (Zlen_nonneg l2); lia|done].
  - apply Forall2_app; [done|]. by constructor.
  - rewrite Zlen_app, Zlen_cons. lia.
Qed.

Lemma texts_middle l1 t s l2 n1 n2 :
  length l1 = length n1 →
  zip_with row_bytes (l1 ++ (t ++ 0 :: s) :: l2) (n1 ++ Zlen t :: n2)
  = zip_with row_bytes l1 n1 ++ t :: zip_with row_bytes l2 n2.
Proof.
  intros H. rewrite text_app by done. simpl. by rewrite row_bytes_app.
Qed.

Lemma texts_length l1 n1 :
  Forall2 line_ok l1 n1 → length (zip_with row_bytes l1 n1) = length l1.
Proof.
  intros H. rewrite length_zip_with_l_eq; [done|]. by eapply Forall2_length.
Qed.

(** The decomposition of a well-formed buffer at a row, with its text. *)
Lemma buf_ok_at b row :
  buf_ok b → 0 ≤ row < count b →
  ∃ l1 t s l2 n1 n2,
    b = mkBuffer (l1 ++ (t ++ 0 :: s) :: l2) (n1 ++ Zlen t :: n2)
                 (Zlen l1 + 1 + Zlen l2) (cap b) ∧
    row = Zlen l1 ∧ Zlen n1 = Zlen l1 ∧ Zlen n2 = Zlen l2 ∧
    Forall2 line_ok l1 n1 ∧ Forall2 line_ok l2 n2 ∧ 1 ≤ cap b ∧
    text b = zip_with row_bytes l1 n1 ++ t :: zip_with row_bytes l2 n2 ∧
    length (zip_with row_bytes l1 n1) = Z.to_nat row.
Proof.
  intros Hok Hr.
  destruct (buf_ok_row b row Hok Hr)
    as (l1 & t & s & l2 & n1 & n2 & Hl & Hn & Hl1 & Hn1 & F1 & F2).
  destruct Hok as [_ Hc _ Hcap].
  exists l1, t, s, l2, n1, n2.
  pose proof (Forall2_length _ _ _ F1) as E1.
  pose proof (Forall2_length _ _ _ F2) as E2.
  repeat split; try done; try (unfold Zlen; lia).
  - destruct b as [ls ns cnt cp]. simpl in *. subst ls ns. f_equal.
    rewrite Hc, Zlen_app, Zlen_cons. lia.
  - unfold text. rewrite Hl, Hn. by apply texts_middle.
  - rewrite texts_length by done. unfold Zlen in *. lia.
Qed.

Lemma text_lookup_len b row t :
  buf_ok b → text b !! Z.to_nat row = Some t → 0 ≤ row →
  slot (len b) row = Ok (Zlen t) ∧ 0 ≤ row < count b.
Proof.
  intros Hok Ht Hr.
  assert (Hlt : row < count b).
  { apply lookup_lt_Some in Ht. rewrite <- (text_length b Hok). unfold Zlen. lia. }
  split; [|lia].
  rewrite (len_text b Hok). apply slot_Ok. split; [done|].
  by rewrite list_lookup_fmap, Ht.
Qed.

Lemma slot_len_text b row L :
  buf_ok b → slot (len b) row = Ok L →
  ∃ t, text b !! Z.to_nat row = Some t ∧ L = Zlen t ∧ 0 ≤ row < count b.
Proof.
  intros Hok HL. apply slot_Ok in HL as [Hr HL].
  rewrite (len_text b Hok), list_lookup_fmap in HL.
  destruct (text b !! Z.to_nat row) as [t|] eqn:Ht; [|done].
  injection HL as <-. exists t. split; [done|]. split; [done|].
  by apply (text_lookup_len b row t).
Qed.

Lemma slot_len_valid b row :
  buf_ok b → 0 ≤ row < count b → ∃ L, slot (len b) row = Ok L ∧ 0 ≤ L.
Proof.
  intros Hok Hr.
  destruct (buf_ok_at b row Hok Hr) as (l1&t&s&l2&n1&n2&Hb&->&Hn1&_).
  exists (Zlen t). rewrite Hb. simpl. split; [|apply Zlen_nonneg].
  by apply slot_app.
Qed.

(** ** Refinement statements *)

Lemma insert_char_refines d row col c :
  buf_ok (buf d) → 0 ≤ row < count (buf d) →
  ∃ t d',
    text (buf d) !! Z.to_nat row = Some t ∧
    V3buf.buffer_insert_char d row col c = Ok d' ∧
    buf_ok (buf d') ∧ dirty d' = true ∧
    text (buf d')
    = Spec.insertChar (text (buf d)) (Z.to_nat row)
        (Z.to_nat (clamp_col col (Zlen t))) c.
Proof.
  intros Hok Hr. destruct d as [b dty]. simpl in *.
  destruct (buf_ok_at b row Hok Hr)
    as (l1&t&s&l2&n1&n2&Hb&->&Hn1&Hn2&F1&F2&Hcap&Ht&Hlen).
  rewrite Hb. exists t. eexists. split.
  { rewrite <- Hb, Ht. by apply list_lookup_middle. }
  split. { apply buffer_insert_char_shape. lia. }
  simpl. split.
  { apply buf_ok_middle; try done.
    apply line_ok_intro'. rewrite Zlen_app, Zlen_cons.
    pose proof (clamp_col_range col (Zlen t) (Zlen_nonneg t)).
    unfold Zlen in *. rewrite length_take, length_drop. lia. }
  split; [done|].
  rewrite <- Hb, Ht. unfold text. simpl.
  set (k := Z.to_nat (clamp_col col (Zlen t))).
  replace (Zlen t + 1) with (Zlen (take k t ++ c :: drop k t)).
  2:{ pose proof (clamp_col_range col (Zlen t) (Zlen_nonneg t)).
      rewrite Zlen_app, Zlen_cons. unfold Zlen in *. subst k.
      rewrite length_take, length_drop. lia. }
  rewrite texts_middle by (unfold Zlen in *; lia).
  unfold Spec.insertChar. rewrite <- Hlen. by rewrite alter_middle.
Qed.

Lemma delete_char_refines d row col :
  buf_ok (buf d) → 0 ≤ row < count (buf d) →
  ∃ t d',
    text (buf d) !! Z.to_nat row = Some t ∧
    V3buf.buffer_delete_char d row col = Ok d' ∧
    buf_ok (buf d') ∧
    if decide (0 < col ≤ Zlen t) then
      dirty d' = true ∧
      text (buf d') = Spec.deleteChar (text (buf d)) (Z.to_nat row) (Z.to_nat col)
    else d' = d.
Proof.
  intros Hok Hr. destruct d as [b dty]. simpl in *.
  destruct (buf_ok_at b row Hok Hr)
    as (l1&t&s&l2&n1&n2&Hb&->&Hn1&Hn2&F1&F2&Hcap&Ht&Hlen).
  exists t.
  assert (Hlk : text b !! Z.to_nat (Zlen l1) = Some t).
  { rewrite Ht. by apply list_lookup_middle. }
  case_decide as Hc.
  - rewrite Hb. eexists. split; [by rewrite <- Hb|].
    split. { apply buffer_delete_char_shape; [lia|done]. }
    simpl. split.
    { apply buf_ok_middle; try done.
      apply line_ok_intro'. rewrite Zlen_app.
      unfold Zlen in *. rewrite length_take, length_drop. lia. }
    split; [done|].
    rewrite <- Hb, Ht. unfold text. simpl.
    set (k := Z.to_nat col).
    replace (Zlen t - 1) with (Zlen (take (k - 1) t ++ drop k t)).
    2:{ rewrite Zlen_app. unfold Zlen in *. subst k.
        rewrite length_take, length_drop. lia. }
    rewrite texts_middle by (unfold Zlen in *; lia).
    unfold Spec.deleteChar. rewrite <- Hlen. by rewrite alter_middle.
  - exists (mkDoc b dty). split; [done|]. split; [|done].
    eapply buffer_delete_char_noop; [|done].
    simpl. by destruct (text_lookup_len b (Zlen l1) t Hok Hlk ltac:(lia)).
Qed.

Lemma insert_line_refines d at_ src n :
  buf_ok (buf d) → 0 ≤ at_ ≤ count (buf d) → 0 ≤ n ≤ Zlen src →
  ∃ d',
    buffer_insert_line d at_ src n = Ok d' ∧
    buf_ok (buf d') ∧ dirty d' = dirty d ∧
    text (buf d')
    = Spec.insertLine (text (buf d)) (Z.to_nat at_) (take (Z.to_nat n) src).
Proof.
  intros Hok Hat Hn. destruct d as [b dty]. simpl in *.
  pose proof Hok as [F Hc H1 Hcap].
  pose proof (Forall2_length _ _ _ F) as Hlen.
  destruct (buffer_insert_line_shape b dty at_ src n) as (c' & -> & Hc');
    try done; try (unfold Zlen; lia).
  eexists. split; [done|]. simpl.
  assert (Hnew : line_ok (take (Z.to_nat n) src ++ [0]) n).
  { apply line_ok_intro'. unfold Zlen in *. rewrite length_take. lia. }
  split; [|split; [done|]].
  - split; simpl; [| |lia|done].
    + apply Forall2_app; [by apply Forall2_take|].
      constructor; [done|]. by apply Forall2_drop.
    + rewrite Zlen_app, Zlen_cons. unfold Zlen in *.
      rewrite length_take, length_drop. lia.
  - unfold text, Spec.insertLine. simpl.
    rewrite text_app by (rewrite !length_take; lia). simpl.
    rewrite zip_with_take, zip_with_drop. do 2 f_equal.
    unfold row_bytes. rewrite take_app_le; [|unfold Zlen in *; rewrite length_take; lia].
    apply take_ge. unfold Zlen in *. rewrite length_take. lia.
Qed.

Lemma insert_line_out_of_range d at_ src n :
  at_ < 0 ∨ count (buf d) < at_ → buffer_insert_line d at_ src n = Ok d.
Proof.
  intros H. unfold buffer_insert_line. rewrite decide_True by lia. done.
Qed.

Lemma split_line_refines d row col :
  buf_ok (buf d) → 0 ≤ row < count (buf d) →
  ∃ t d',
    text (buf d) !! Z.to_nat row = Some t ∧
    V3buf.buffer_split_line d row col = Ok d' ∧
    buf_ok (buf d') ∧ dirty d' = true ∧
    text (buf d')
    = Spec.splitLine (text (buf d)) (Z.to_nat row) (Z.to_nat (clamp_col col (Zlen t))).
Proof.
  intros Hok Hr. destruct d as [b dty]. simpl in *.
  destruct (buf_ok_at b row Hok Hr)
    as (l1&t&s&l2&n1&n2&Hb&->&Hn1&Hn2&F1&F2&Hcap&Ht&Hlen).
  assert (Hlk : text b !! Z.to_nat (Zlen l1) = Some t).
  { rewrite Ht. by apply list_lookup_middle. }
  exists t.
  destruct (buffer_split_line_shape l1 t s l2 n1 n2 (cap b) dty col)
    as (s' & c' & Hs & Hc'); [lia..|].
  rewrite Hb. rewrite Hs. eexists. split; [by rewrite <- Hb|]. split; [done|].
  simpl. set (k := Z.to_nat (clamp_col col (Zlen t))) in *.
  pose proof (clamp_col_range col (Zlen t) (Zlen_nonneg t)) as Hk.
  assert (Hk1 : Z.of_nat k = Zlen (take k t)).
  { unfold Zlen in *. rewrite length_take. lia. }
  assert (Hk2 : Zlen t - Z.of_nat k = Zlen (drop k t)).
  { unfold Zlen in *. rewrite length_drop. lia. }
  split; [|split; [done|]].
  - replace (Zlen l1 + 2 + Zlen l2) with (Zlen l1 + 1 + Zlen ((drop k t ++ [0]) :: l2))
      by (rewrite Zlen_cons; lia).
    apply buf_ok_middle; try done.
    + by apply line_ok_intro'.
    + constructor; [|done]. by apply line_ok_intro'.
  - rewrite <- Hb. unfold text at 1. simpl.
    rewrite Hk2, Hk1.
    rewrite texts_middle by (unfold Zlen in *; lia).
    simpl. rewrite row_bytes_app.
    unfold Spec.splitLine. rewrite Hlk, Ht.
    rewrite take_middle, drop_S_middle by done. done.
Qed.

Lemma join_refines d row :
  buf_ok (buf d) → 0 < row < count (buf d) →
  ∃ d',
    buffer_join_with_prev d row = Ok d' ∧
    buf_ok (buf d') ∧ dirty d' = true ∧
    text (buf d') = Spec.joinWithPrevious (text (buf d)) (Z.to_nat row).
Proof.
  intros Hok Hr. destruct d as [b dty]. simpl in *.
  destruct (buf_ok_at b (row - 1) Hok ltac:(lia))
    as (l1&tp&sp&l2'&n1&n2'&Hb&Hrow&Hn1&Hn2&F1&F2&Hcap&Ht&Hlen).
  assert (Hcnt : count b = Zlen l1 + 1 + Zlen l2') by (by rewrite Hb).
  destruct F2 as [|blk L l2 n2 HL F2].
  { exfalso. rewrite Zlen_nil in Hcnt. lia. }
  apply line_ok_split in HL as (tc & sc & -> & ->).
  rewrite !Zlen_cons in *.
  replace row with (Zlen l1 + 1) in * by lia. clear Hrow.
  pose proof (buffer_join_shape l1 tp sp tc sc l2 n1 n2 (cap b) dty
                ltac:(lia) ltac:(lia)) as Hj.
  replace (Zlen l1 + 2 + Zlen l2) with (Zlen l1 + 1 + (1 + Zlen l2)) in Hj by lia.
  rewrite <- Hb in Hj. rewrite Hj.
  eexists. split; [done|]. simpl. split; [|split; [done|]].
  - apply buf_ok_middle; try done.
    apply line_ok_intro'. by rewrite Zlen_app.
  - unfold text at 1. simpl.
    rewrite <- Zlen_app.
    rewrite texts_middle by (unfold Zlen in *; lia).
    simpl in Ht. rewrite row_bytes_app in Ht.
    unfold Spec.joinWithPrevious. rewrite Ht.
    replace (Z.to_nat (Zlen l1 + 1)) with (S (Z.to_nat (Zlen l1))) by lia.
    replace (S (Z.to_nat (Zlen l1)) - 1)%nat with (Z.to_nat (Zlen l1)) by lia.
    rewrite list_lookup_middle by lia.
    rewrite lookup_S_middle by lia.
    rewrite take_middle, drop_SS_middle by lia. done.
Qed.

Lemma join_noop d row :
  row <= 0 ∨ row >= count (buf d) → buffer_join_with_prev d row = Ok d.
Proof.
  intros H. unfold buffer_join_with_prev. simpl. by rewrite decide_True.
Qed.

(** * C strings and the cached length *)

Lemma cstring_nonzero blk : Forall (λ x, x ≠ 0) (cstring blk).
Proof.
  induction blk as [|x r IH]; simpl; [constructor|].
  case_decide; [constructor|]. by constructor.
Qed.

Lemma cstring_app_nul t s : Forall (λ x, x ≠ 0) t → cstring (t ++ 0 :: s) = t.
Proof.
  induction 1 as [|x t Hx _ IH]; simpl.
  - done.
  - rewrite decide_False by done. by rewrite IH.
Qed.

Lemma cstring_prefix blk : ∃ r, blk = cstring blk ++ r.
Proof.
  induction blk as [|x r [r' IH]]; simpl; [by exists []|].
  case_decide; [by eexists|]. exists r'. simpl. by rewrite <- IH.
Qed.

Lemma strlen_le t s : strlen (t ++ 0 :: s) ≤ Zlen t.
Proof.
  unfold strlen, Zlen. induction t as [|x t IH]; simpl.
  - done.
  - case_decide; simpl; lia.
Qed.

Lemma strlen_full t s : strlen (t ++ 0 :: s) = Zlen t ↔ Forall (λ x, x ≠ 0) t.
Proof.
  split.
  - unfold strlen, Zlen. induction t as [|x t IH]; simpl; [constructor|].
    case_decide; simpl; [lia|]. intros Hl. constructor; [done|]. apply IH. lia.
  - intros H. unfold strlen. by rewrite cstring_app_nul.
Qed.

Lemma cached_nulfree ls ns :
  Forall2 line_ok ls ns →
  Forall2 line_cached ls ns ↔ nulfree (zip_with row_bytes ls ns).
Proof.
  induction 1 as [|blk L ls ns Hok _ IH]; simpl.
  - split; constructor.
  - apply line_ok_split in Hok as (t & s & -> & ->).
    rewrite row_bytes_app. unfold nulfree in *.
    rewrite Forall2_cons, Forall_cons, IH. unfold line_cached.
    by rewrite strlen_full.
Qed.

Lemma buf_cached_nulfree b : buf_ok b → buf_cached b ↔ nulfree (text b).
Proof. intros [H _ _ _]. by apply cached_nulfree. Qed.

(** * The text operations keep lines free of NUL *)

Lemma nulfree_insertLine T at_ bytes :
  nulfree T → Forall (λ x, x ≠ 0) bytes → nulfree (Spec.insertLine T at_ bytes).
Proof.
  intros HT Hb. unfold nulfree, Spec.insertLine in *.
  apply Forall_app. split; [by apply Forall_take|].
  constructor; [done|]. by apply Forall_drop.
Qed.

Lemma nulfree_insertChar T row col c :
  nulfree T → c ≠ 0 → nulfree (Spec.insertChar T row col c).
Proof.
  intros HT Hc. unfold nulfree, Spec.insertChar in *.
  apply Forall_alter; [done|]. intros t _ Ht.
  apply Forall_app. split; [by apply Forall_take|].
  constructor; [done|]. by apply Forall_drop.
Qed.

Lemma nulfree_deleteChar T row col : nulfree T → nulfree (Spec.deleteChar T row col).
Proof.
  intros HT. unfold nulfree, Spec.deleteChar in *.
  apply Forall_alter; [done|]. intros t _ Ht.
  apply Forall_app. split; [by apply Forall_take|by apply Forall_drop].
Qed.

Lemma nulfree_splitLine T row col : nulfree T → nulfree (Spec.splitLine T row col).
Proof.
  intros HT. unfold nulfree, Spec.splitLine in *.
  destruct (T !! row) as [t|] eqn:E; [|done].
  pose proof (Forall_lookup_1 _ _ _ _ HT E) as Ht.
  apply Forall_app. split; [by apply Forall_take|].
  constructor; [by apply Forall_take|].
  constructor; [by apply Forall_drop|by apply Forall_drop].
Qed.

Lemma nulfree_joinWithPrevious T row :
  nulfree T → nulfree (Spec.joinWithPrevious T row).
Proof.
  intros HT. unfold nulfree, Spec.joinWithPrevious in *.
  destruct (T !! (row - 1)%nat) as [p|] eqn:Ep; [|done].
  destruct (T !! row) as [c|] eqn:Ec; [|done].
  pose proof (Forall_lookup_1 _ _ _ _ HT Ep) as Hp.
  pose proof (Forall_lookup_1 _ _ _ _ HT Ec) as Hc.
  apply Forall_app. split; [by apply Forall_take|].
  constructor; [by apply Forall_app|by apply Forall_drop].
Qed.

(** * Loading a file *)

Lemma strip_eol_le line n : (strip_eol line n ≤ n)%nat.
Proof.
  induction n as [|m IH]; simpl; [lia|].
  destruct (line !! m); [|lia]. case_decide; lia.
Qed.

Lemma buf_ok_init : buf_ok buffer_init.
Proof.
  split; simpl; try done.
  constructor; [|constructor]. split; [done|]. done.
Qed.

Lemma insertLine_end T bytes n :
  n = length T → Spec.insertLine T n bytes = T ++ [bytes].
Proof.
  intros ->. unfold Spec.insertLine. by rewrite take_ge, drop_ge by lia.
Qed.

Lemma load_lines_rest d ls :
  buf_ok (buf d) →
  ∃ d', load_lines d false ls = Ok d' ∧ buf_ok (buf d') ∧ dirty d' = dirty d ∧
        text (buf d') = text (buf d) ++ (chomp <$> ls).
Proof.
  revert d. induction ls as [|line ls IH]; intros d Hok; simpl.
  - exists d. by rewrite app_nil_r.
  - pose proof (strip_eol_le line (length line)) as Hs.
    destruct (insert_line_refines d (count (buf d)) line
                (Z.of_nat (strip_eol line (length line))))
      as (d1 & -> & Hok1 & Hd1 & Ht1); [done|destruct Hok; lia|unfold Zlen; lia|].
    simpl. destruct (IH d1 Hok1) as (d' & -> & Hok' & Hd' & Ht').
    exists d'. split; [done|]. split; [done|]. split; [congruence|].
    rewrite Ht', Ht1, insertLine_end.
    + rewrite Nat2Z.id. by rewrite <- app_assoc.
    + rewrite <- (text_length _ Hok). unfold Zlen. lia.
Qed.

Lemma load_file_refines content :
  ∃ d, load_file content = Ok d ∧ buf_ok (buf d) ∧ dirty d = false ∧
       text (buf d) = file_text content.
Proof.
  unfold load_file, file_text. destruct (getlines [] content) as [|line ls]; simpl.
  - eexists. split; [done|]. split; [apply buf_ok_init|]. done.
  - pose proof (strip_eol_le line (length line)) as Hs.
    set (n := strip_eol line (length line)) in *.
    pose proof (fresh_line_block line (Z.of_nat n)) as Hb.
    destruct (memcpy _ _ _ _) as [blk|]; simpl in *;
      [|specialize (Hb ltac:(unfold Zlen; lia)); discriminate].
    rewrite Hb by (unfold Zlen; lia). simpl. rewrite Nat2Z.id.
    set (d1 := mkDoc _ _).
    assert (Hok1 : buf_ok (buf d1)).
    { subst d1. simpl. split; simpl; try done.
      constructor; [|constructor]. apply line_ok_intro'.
      unfold Zlen. rewrite length_take. lia. }
    destruct (load_lines_rest d1 ls Hok1) as (d' & -> & Hok' & Hd' & Ht').
    simpl. eexists. split; [done|]. split; [done|]. split; [done|].
    simpl. rewrite Ht'. subst d1. unfold text at 1. simpl. f_equal.
    unfold row_bytes, chomp. rewrite Nat2Z.id.
    rewrite take_app_le by (rewrite length_take; lia).
    apply take_ge. rewrite length_take. lia.
Qed.

Lemma getlines_Forall (P : Z → Prop) cur bs :
  Forall P cur → Forall P bs → Forall (Forall P) (getlines cur bs).
Proof.
  revert cur. induction bs as [|b bs IH]; intros cur Hc Hb; simpl.
  - destruct cur; [constructor|]. by constructor.
  - inversion Hb; subst. case_decide.
    + constructor; [|by apply IH].
      apply Forall_app. split; [done|]. by constructor.
    + apply IH; [|done]. apply Forall_app. split; [done|]. by constructor.
Qed.

Lemma file_text_Forall (P : Z → Prop) content :
  Forall P content → Forall (Forall P) (file_text content).
Proof.
  intros H. unfold file_text.
  pose proof (getlines_Forall P [] content ltac:(constructor) H) as HF.
  destruct (getlines [] content) as [|l ls]; [by repeat constructor|].
  apply Forall_fmap. eapply Forall_impl; [exact HF|].
  intros x Hx. simpl. unfold chomp. by apply Forall_take.
Qed.

(** * Version 0.1 of the guarded functions *)

Lemma v1_insert_char d row col c :
  V1buf.buffer_insert_char d row col c
  = if decide (row < 0 ∨ row >= count (buf d)) then Ok d
    else V3buf.buffer_insert_char d row col c.
Proof. reflexivity. Qed.

Lemma v1_delete_char d row col :
  V1buf.buffer_delete_char d row col
  = if decide (row < 0 ∨ row >= count (buf d)) then Ok d
    else V3buf.buffer_delete_char d row col.
Proof. reflexivity. Qed.

Lemma v1_split_line d row col :
  V1buf.buffer_split_line d row col
  = if decide (row < 0 ∨ row >= count (buf d)) then Ok d
    else V3buf.buffer_split_line d row col.
Proof. reflexivity. Qed.

(** * Reachable buffers *)

Lemma insert_line_inv d at_ s n d' :
  buf_ok (buf d) → buffer_insert_line d at_ s n = Ok d' →
  ((at_ < 0 ∨ count (buf d) < at_) ∧ d' = d)
  ∨ (0 ≤ at_ ≤ count (buf d) ∧ 0 ≤ n ≤ Zlen s).
Proof.
  intros Hok. unfold buffer_insert_line. case_decide as Hat.
  - intros [= <-]. left. split; [lia|done].
  - destruct (buffer_ensure_capacity_ok (buf d) (count (buf d) + 1))
      as (c' & -> & _); [by destruct Hok|destruct Hok; lia|].
    simpl. unfold memcpy. case_decide as Hm; [|discriminate].
    intros _. right. lia.
Qed.

Lemma v3_insert_char_row d row col c d' :
  buf_ok (buf d) → V3buf.buffer_insert_char d row col c = Ok d' →
  0 ≤ row < count (buf d).
Proof.
  intros Hok. unfold V3buf.buffer_insert_char.
  destruct (slot (len (buf d)) row) as [L|] eqn:E; [|discriminate].
  intros _. by destruct (slot_len_text _ _ _ Hok E) as (t & _ & _ & ?).
Qed.

Lemma v3_delete_char_row d row col d' :
  buf_ok (buf d) → V3buf.buffer_delete_char d row col = Ok d' →
  0 ≤ row < count (buf d).
Proof.
  intros Hok. unfold V3buf.buffer_delete_char.
  destruct (slot (len (buf d)) row) as [L|] eqn:E; [|discriminate].
  intros _. by destruct (slot_len_text _ _ _ Hok E) as (t & _ & _ & ?).
Qed.

Lemma v3_split_line_row d row col d' :
  buf_ok (buf d) → V3buf.buffer_split_line d row col = Ok d' →
  0 ≤ row < count (buf d).
Proof.
  intros Hok. unfold V3buf.buffer_split_line.
  destruct (slot (len (buf d)) row) as [L|] eqn:E; [|discriminate].
  intros _. by destruct (slot_len_text _ _ _ Hok E) as (t & _ & _ & ?).
Qed.

Lemma inv_insert_char nz d row col c d' :
  buf_inv nz d → (nz → c ≠ 0) →
  V3buf.buffer_insert_char d row col c = Ok d' → buf_inv nz d'.
Proof.
  intros [Hok Hnz] Hc Hop.
  pose proof (v3_insert_char_row _ _ _ _ _ Hok Hop) as Hr.
  destruct (insert_char_refines d row col c Hok Hr) as (t & d2 & _ & E & Hok2 & _ & Ht).
  rewrite Hop in E. injection E as <-. split; [done|].
  intros H. rewrite Ht. apply nulfree_insertChar; auto.
Qed.

Lemma inv_delete_char nz d row col d' :
  buf_inv nz d → V3buf.buffer_delete_char d row col = Ok d' → buf_inv nz d'.
Proof.
  intros [Hok Hnz] Hop.
  pose proof (v3_delete_char_row _ _ _ _ Hok Hop) as Hr.
  destruct (delete_char_refines d row col Hok Hr) as (t & d2 & _ & E & Hok2 & Ht).
  rewrite Hop in E. injection E as <-. split; [done|].
  intros H. case_decide.
  - destruct Ht as [_ ->]. apply nulfree_deleteChar; auto.
  - subst d'. auto.
Qed.

Lemma inv_split_line nz d row col d' :
  buf_inv nz d → V3buf.buffer_split_line d row col = Ok d' → buf_inv nz d'.
Proof.
  intros [Hok Hnz] Hop.
  pose proof (v3_split_line_row _ _ _ _ Hok Hop) as Hr.
  destruct (split_line_refines d row col Hok Hr) as (t & d2 & _ & E & Hok2 & _ & Ht).
  rewrite Hop in E. injection E as <-. split; [done|].
  intros H. rewrite Ht. apply nulfree_splitLine; auto.
Qed.

Lemma inv_join nz d row d' :
  buf_inv nz d → buffer_join_with_prev d row = Ok d' → buf_inv nz d'.
Proof.
  intros [Hok Hnz] Hop.
  destruct (decide (0 < row < count (buf d))) as [Hr|Hr].
  - destruct (join_refines d row Hok Hr) as (d2 & E & Hok2 & _ & Ht).
    rewrite Hop in E. injection E as <-. split; [done|].
    intros H. rewrite Ht. apply nulfree_joinWithPrevious; auto.
  - rewrite join_noop in Hop by lia. injection Hop as <-. by split.
Qed.

Lemma inv_insert_line nz d at_ s n d' :
  buf_inv nz d → (nz → Forall (λ x, x ≠ 0) (take (Z.to_nat n) s)) →
  buffer_insert_line d at_ s n = Ok d' → buf_inv nz d'.
Proof.
  intros [Hok Hnz] Hs Hop.
  destruct (insert_line_inv _ _ _ _ _ Hok Hop) as [[_ ->]|[Hat Hn]]; [by split|].
  destruct (insert_line_refines d at_ s n Hok Hat Hn) as (d2 & E & Hok2 & _ & Ht).
  rewrite Hop in E. injection E as <-. split; [done|].
  intros H. rewrite Ht. apply nulfree_insertLine; auto.
Qed.

Lemma inv_load nz content d :
  (nz → Forall (λ x, x ≠ 0) content) → load_file content = Ok d → buf_inv nz d.
Proof.
  intros Hc Hop.
  destruct (load_file_refines content) as (d2 & E & Hok2 & _ & Ht).
  rewrite Hop in E. injection E as <-. split; [done|].
  intros H. rewrite Ht. apply file_text_Forall. auto.
Qed.

Lemma reachable_inv byte_ok o d :
  o = ops_v3 ∨ o = ops_v1 →
  reachable byte_ok o d → buf_inv (∀ x, byte_ok x → x ≠ 0) d.
Proof.
  intros Ho. induction 1 as
    [ | content d Hc Hl
      | d at_ s n d' _ IH Hs Hop
      | d row col c d' _ IH Hc Hop
      | d row col d' _ IH Hop
      | d row col d' _ IH Hop
      | d row d' _ IH Hop ].
  - split; [apply buf_ok_init|]. intros _. by repeat constructor.
  - eapply inv_load; [|done]. intros H. eapply Forall_impl; [exact Hc|]. done.
  - eapply inv_insert_line; [done| |done].
    intros H. eapply Forall_impl; [exact Hs|]. done.
  - destruct Ho as [-> | ->]; simpl in Hop.
    + eapply inv_insert_char; [done| |done]. auto.
    + rewrite v1_insert_char in Hop. case_decide; [by injection Hop as <-|].
      eapply inv_insert_char; [done| |done]. auto.
  - destruct Ho as [-> | ->]; simpl in Hop.
    + by eapply inv_delete_char.
    + rewrite v1_delete_char in Hop. case_decide; [by injection Hop as <-|].
      by eapply inv_delete_char.
  - destruct Ho as [-> | ->]; simpl in Hop.
    + by eapply inv_split_line.
    + rewrite v1_split_line in Hop. case_decide; [by injection Hop as <-|].
      by eapply inv_split_line.
  - by eapply inv_join.
Qed.

(** C2, as amended.  In every state reachable from the initial buffer by
    the buffer operations of either version (insert line, insert char,
    delete char, split line, join with previous, load), the line count is
    at least 1 and every cached length [len[i]] lies inside the block of
    line [i] with the terminating NUL at that offset; when no NUL byte is
    ever inserted or loaded, [len[i]] is moreover the length of the C
    string [lines[i]]. *)
Theorem C2_buffer_invariant byte_ok o d :
  o = ops_v3 ∨ o = ops_v1 →
  reachable byte_ok o d →
  1 ≤ count (buf d)
  ∧ count (buf d) = Zlen (lines (buf d))
  ∧ Forall2 line_ok (lines (buf d)) (len (buf d))
  ∧ ((∀ x, byte_ok x → x ≠ 0) →
     ∀ i blk l, lines (buf d) !! i = Some blk → len (buf d) !! i = Some l →
                strlen blk = l).
Proof.
  intros Ho Hr. destruct (reachable_inv byte_ok o d Ho Hr) as [Hok Hnz].
  pose proof Hok as [F Hc H1 _].
  repeat split; try done.
  intros H i blk l Hb Hl. specialize (Hnz H).
  apply (buf_cached_nulfree _ Hok) in Hnz.
  destruct (Forall2_lookup_l _ _ _ _ _ Hnz Hb) as (l' & Hl' & Hcached).
  congruence.
Qed.

Lemma c2_sample_reachable : reachable (λ x, x ≠ 0) ops_v3 c2_sample.
Proof.
  eapply (reach_delete_char _ _ _ 1 1).
  eapply (reach_insert_char _ _ _ 1 0 120); [|done|].
  eapply (reach_split_line _ _ _ 0 2).
  eapply (reach_insert_char _ _ _ 0 1 105); [|done|].
  eapply (reach_insert_char _ _ _ 0 0 104); [|done|].
  apply reach_init.
  all: vm_compute; reflexivity.
Defined.

Lemma C2_buffer_invariant_witness :
  1 ≤ count (buf c2_sample)
  ∧ count (buf c2_sample) = Zlen (lines (buf c2_sample))
  ∧ Forall2 line_ok (lines (buf c2_sample)) (len (buf c2_sample))
  ∧ ((∀ x : Z, x ≠ 0 → x ≠ 0) →
     ∀ i blk l, lines (buf c2_sample) !! i = Some blk →
                len (buf c2_sample) !! i = Some l → strlen blk = l).
Proof.
  apply (C2_buffer_invariant (λ x, x ≠ 0) ops_v3 c2_sample).
  - left. reflexivity.
  - exact c2_sample_reachable.
Defined.

(** C2 as stated fails: loading the four bytes "a", NUL, "b", newline
    gives one line with cached length 3 whose C string has length 1. *)
Lemma C2_counterexample :
  ¬ (∀ d, reachable (λ _, True) ops_v3 d →
          1 ≤ count (buf d)
          ∧ ∀ i blk l, lines (buf d) !! i = Some blk → len (buf d) !! i = Some l →
                       strlen blk = l).
Proof.
  intros H.
  assert (Hl : load_file [97; 0; 98; 10]
               = Ok (mkDoc (mkBuffer [[97; 0; 98; 0]] [3] 1 64) false))
    by (vm_compute; reflexivity).
  pose proof (reach_load (λ _, True) ops_v3 [97; 0; 98; 10] _
                ltac:(by repeat constructor) Hl) as Hr.
  destruct (H _ Hr) as [_ Hc].
  specialize (Hc 0%nat [97; 0; 98; 0] 3 eq_refl eq_refl).
  vm_compute in Hc. discriminate.
Qed.

(** * Split followed by join *)

Lemma join_after_split (T : list (list Z)) row k t :
  T !! row = Some t →
  Spec.joinWithPrevious (Spec.splitLine T row k) (S row) = T.
Proof.
  intros Ht. unfold Spec.splitLine. rewrite Ht.
  destruct (list_elem_of_split_length _ _ _ Ht) as (T1 & T2 & -> & ->).
  rewrite take_middle, drop_S_middle by done.
  unfold Spec.joinWithPrevious.
  replace (S (length T1) - 1)%nat with (length T1) by lia.
  rewrite list_lookup_middle by done.
  rewrite lookup_S_middle by done.
  rewrite take_middle, drop_SS_middle by done.
  by rewrite take_drop.
Qed.

Lemma cstring_terminated t s : cstring (t ++ 0 :: s) = cstring (t ++ [0]).
Proof.
  induction t as [|x t IH]; simpl; [done|]. case_decide; [done|]. by rewrite IH.
Qed.

Lemma cstrings_of_text ls ns :
  Forall2 line_ok ls ns →
  cstring <$> ls = (λ t, cstring (t ++ [0])) <$> zip_with row_bytes ls ns.
Proof.
  induction 1 as [|blk L ls ns Hok _ IH]; csimpl; [done|].
  apply line_ok_split in Hok as (t & s & -> & ->).
  rewrite row_bytes_app. f_equal; [apply cstring_terminated|done].
Qed.

Lemma same_text_same_view b1 b2 :
  buf_ok b1 → buf_ok b2 → text b2 = text b1 →
  len b2 = len b1 ∧ count b2 = count b1
  ∧ cstring <$> lines b2 = cstring <$> lines b1.
Proof.
  intros H1 H2 Ht. split; [|split].
  - by rewrite (len_text _ H1), (len_text _ H2), Ht.
  - by rewrite <- (text_length _ H1), <- (text_length _ H2), Ht.
  - destruct H1 as [F1 _ _ _], H2 as [F2 _ _ _].
    rewrite (cstrings_of_text _ _ F1), (cstrings_of_text _ _ F2).
    unfold text in Ht. by rewrite Ht.
Qed.

Lemma v3_split_then_join d row col :
  buf_ok (buf d) → 0 ≤ row < count (buf d) →
  ∃ d1 d2,
    V3buf.buffer_split_line d row col = Ok d1 ∧
    buffer_join_with_prev d1 (row + 1) = Ok d2 ∧
    buf_ok (buf d2) ∧ text (buf d2) = text (buf d).
Proof.
  intros Hok Hr.
  destruct (split_line_refines d row col Hok Hr) as (t & d1 & Ht & Hs & Hok1 & _ & Ht1).
  assert (Hc1 : count (buf d1) = count (buf d) + 1).
  { rewrite <- (text_length _ Hok1), <- (text_length _ Hok), Ht1.
    unfold Spec.splitLine. rewrite Ht. unfold Zlen.
    rewrite length_app. simpl. rewrite length_take, length_drop.
    apply lookup_lt_Some in Ht. lia. }
  destruct (join_refines d1 (row + 1) Hok1 ltac:(lia)) as (d2 & Hj & Hok2 & _ & Ht2).
  exists d1, d2. split; [done|]. split; [done|]. split; [done|].
  rewrite Ht2, Ht1.
  replace (Z.to_nat (row + 1)) with (S (Z.to_nat row)) by lia.
  by eapply join_after_split.
Qed.

(** C7.  In both versions, for every well-formed buffer, every valid row
    [r] and every column [c], [buffer_split_line (r, c)] followed by
    [buffer_join_with_prev (r + 1)] succeeds and gives back the text: every
    line has the bytes, the cached length and the C string it had, and
    the line count is the same.  (The capacity may have grown, slack behind
    the terminators may differ, and the dirty flag is set.) *)
Theorem C7_split_join_inverse d r c :
  buf_ok (buf d) → 0 ≤ r < count (buf d) →
  (∃ d1 d2,
     V3buf.buffer_split_line d r c = Ok d1 ∧
     buffer_join_with_prev d1 (r + 1) = Ok d2 ∧
     text (buf d2) = text (buf d) ∧
     len (buf d2) = len (buf d) ∧
     count (buf d2) = count (buf d) ∧
     cstring <$> lines (buf d2) = cstring <$> lines (buf d))
  ∧
  (∃ d1 d2,
     V1buf.buffer_split_line d r c = Ok d1 ∧
     buffer_join_with_prev d1 (r + 1) = Ok d2 ∧
     text (buf d2) = text (buf d) ∧
     len (buf d2) = len (buf d) ∧
     count (buf d2) = count (buf d) ∧
     cstring <$> lines (buf d2) = cstring <$> lines (buf d)).
Proof.
  intros Hok Hr.
  destruct (v3_split_then_join d r c Hok Hr) as (d1 & d2 & Hs & Hj & Hok2 & Ht).
  destruct (same_text_same_view _ _ Hok Hok2 Ht) as (Hl & Hc & Hcs).
  split; exists d1, d2; (split; [|done]); [done|].
  rewrite v1_split_line. by rewrite decide_False by lia.
Qed.

Lemma c7_sample_ok : buf_ok (buf c7_sample).
Proof.
  split; simpl; [|reflexivity|lia|lia].
  apply Forall2_cons. split; [apply (line_ok_intro [97; 98] [])|].
  apply Forall2_cons. split; [apply (line_ok_intro [99; 100; 101] [7])|].
  apply Forall2_nil_2.
Defined.

Lemma C7_split_join_inverse_witness :
  (∃ d1 d2,
     V3buf.buffer_split_line c7_sample 1 1 = Ok d1 ∧
     buffer_join_with_prev d1 (1 + 1) = Ok d2 ∧
     text (buf d2) = text (buf c7_sample) ∧
     len (buf d2) = len (buf c7_sample) ∧
     count (buf d2) = count (buf c7_sample) ∧
     cstring <$> lines (buf d2) = cstring <$> lines (buf c7_sample))
  ∧
  (∃ d1 d2,
     V1buf.buffer_split_line c7_sample 1 1 = Ok d1 ∧
     buffer_join_with_prev d1 (1 + 1) = Ok d2 ∧
     text (buf d2) = text (buf c7_sample) ∧
     len (buf d2) = len (buf c7_sample) ∧
     count (buf d2) = count (buf c7_sample) ∧
     cstring <$> lines (buf d2) = cstring <$> lines (buf c7_sample)).
Proof.
  apply (C7_split_join_inverse c7_sample 1 1).
  - exact c7_sample_ok.
  - simpl. lia.
Defined.

(** * Scrolling *)

Lemma adjust_idem p o n : adjust p (adjust p o n) n = adjust p o n.
Proof. unfold adjust. repeat case_decide; lia. Qed.

Lemma v3_scroll_adjust v :
  V3.editor_scroll v
  = V3.mkView (V3.cx v) (V3.cy v)
      (adjust (V3.cy v) (V3.rowoff v) (V3.screenrows v))
      (adjust (V3.cx v) (V3.coloff v) (V3.screencols v))
      (V3.screenrows v) (V3.screencols v) (V3.pref_cx v).
Proof.
  destruct v as [x y ro co sr sc p]. unfold V3.editor_scroll, adjust. simpl.
  destruct (decide (y < ro)); simpl;
    destruct (decide (_ >= _ + sr)); simpl;
    destruct (decide (x < co)); simpl;
    destruct (decide (_ >= _ + sc)); simpl; reflexivity.
Qed.

Lemma v3_scroll_idem v : V3.editor_scroll (V3.editor_scroll v) = V3.editor_scroll v.
Proof. rewrite !v3_scroll_adjust. simpl. by rewrite !adjust_idem. Qed.

Lemma v3_scroll_frame v :
  V3.cx (V3.editor_scroll v) = V3.cx v ∧ V3.cy (V3.editor_scroll v) = V3.cy v
  ∧ V3.pref_cx (V3.editor_scroll v) = V3.pref_cx v
  ∧ V3.screenrows (V3.editor_scroll v) = V3.screenrows v
  ∧ V3.screencols (V3.editor_scroll v) = V3.screencols v.
Proof. rewrite v3_scroll_adjust. done. Qed.

Lemma v1_scroll_adjust v :
  V1.editor_scroll v
  = V1.mkView (V1.cx v) (V1.cy v)
      (adjust (V1.cy v) (V1.rowoff v) (V1.screenrows v - 1))
      (if decide (V1.coloff v < 0) then 0 else V1.coloff v)
      (V1.screenrows v) (V1.screencols v).
Proof.
  destruct v as [x y ro co sr sc]. unfold V1.editor_scroll, adjust. simpl.
  destruct (decide (y < ro)); simpl.
  - destruct (decide (y >= y + sr - 1)), (decide (y >= y + (sr - 1)));
      simpl; try lia; destruct (decide (co < 0)); simpl; f_equal; lia.
  - destruct (decide (y >= ro + sr - 1)), (decide (y >= ro + (sr - 1)));
      simpl; try lia; destruct (decide (co < 0)); simpl; f_equal; lia.
Qed.

Lemma v1_scroll_idem v : V1.editor_scroll (V1.editor_scroll v) = V1.editor_scroll v.
Proof.
  rewrite !v1_scroll_adjust. simpl. rewrite !adjust_idem.
  f_equal. repeat case_decide; lia.
Qed.

Lemma v1_scroll_frame v :
  V1.cx (V1.editor_scroll v) = V1.cx v ∧ V1.cy (V1.editor_scroll v) = V1.cy v
  ∧ V1.screenrows (V1.editor_scroll v) = V1.screenrows v
  ∧ V1.screencols (V1.editor_scroll v) = V1.screencols v.
Proof. rewrite v1_scroll_adjust. done. Qed.

(** C9.  In both versions the scroll adjustment is idempotent on every
    view: run on its own result it changes nothing, so [rowoff] and
    [coloff] stay as the first run left them; and it changes neither the
    cursor ([cx], [cy], and the preferred column of 0.3) nor the screen
    dimensions. *)
Theorem C9_scroll_idempotent :
  (∀ v : V3.View,
     V3.editor_scroll (V3.editor_scroll v) = V3.editor_scroll v
     ∧ V3.cx (V3.editor_scroll v) = V3.cx v
     ∧ V3.cy (V3.editor_scroll v) = V3.cy v
     ∧ V3.pref_cx (V3.editor_scroll v) = V3.pref_cx v
     ∧ V3.screenrows (V3.editor_scroll v) = V3.screenrows v
     ∧ V3.screencols (V3.editor_scroll v) = V3.screencols v)
  ∧
  (∀ v : V1.View,
     V1.editor_scroll (V1.editor_scroll v) = V1.editor_scroll v
     ∧ V1.cx (V1.editor_scroll v) = V1.cx v
     ∧ V1.cy (V1.editor_scroll v) = V1.cy v
     ∧ V1.screenrows (V1.editor_scroll v) = V1.screenrows v
     ∧ V1.screencols (V1.editor_scroll v) = V1.screencols v).
Proof.
  split; intros v.
  - split; [apply v3_scroll_idem|apply v3_scroll_frame].
  - split; [apply v1_scroll_idem|apply v1_scroll_frame].
Qed.

(** * Version 0.3: the editing operations keep the invariant *)

Section V3_editing.
Import V3.

Lemma row_text b row :
  buf_ok b → 0 ≤ row < count b →
  ∃ t, text b !! Z.to_nat row = Some t ∧ slot (len b) row = Ok (Zlen t).
Proof.
  intros Hok Hr.
  destruct (buf_ok_at b row Hok Hr) as (l1&t&s&l2&n1&n2&Hb&->&Hn1&_&_&_&_&Ht&Hl).
  exists t. split.
  - rewrite Ht. by apply list_lookup_middle.
  - rewrite Hb. simpl. by apply slot_app.
Qed.

Lemma cursor_ok_text e :
  buf_ok (buf (doc e)) →
  cursor_ok e ↔
  0 ≤ cy (view e) ∧
  ∃ t, text (buf (doc e)) !! Z.to_nat (cy (view e)) = Some t
       ∧ 0 ≤ cx (view e) ≤ Zlen t.
Proof.
  intros Hok. unfold cursor_ok. split.
  - intros [Hy (L & HL & Hx)]. split; [lia|].
    destruct (slot_len_text _ _ _ Hok HL) as (t & Ht & -> & _). eauto.
  - intros [Hy (t & Ht & Hx)].
    destruct (text_lookup_len _ _ _ Hok Ht Hy) as [HL Hr]. eauto.
Qed.

Lemma inv_intro e t :
  buf_ok (buf (doc e)) →
  0 ≤ cy (view e) →
  text (buf (doc e)) !! Z.to_nat (cy (view e)) = Some t →
  0 ≤ cx (view e) ≤ Zlen t →
  0 ≤ pref_cx (view e) →
  search_ok e →
  inv e.
Proof.
  intros Hok Hy Ht Hx Hp Hs. split; try done.
  apply cursor_ok_text; eauto.
Qed.

Lemma inv_elim e :
  inv e →
  buf_ok (buf (doc e)) ∧ 0 ≤ cy (view e) < count (buf (doc e)) ∧
  0 ≤ pref_cx (view e) ∧ search_ok e ∧
  ∃ t, text (buf (doc e)) !! Z.to_nat (cy (view e)) = Some t
       ∧ slot (len (buf (doc e))) (cy (view e)) = Ok (Zlen t)
       ∧ 0 ≤ cx (view e) ≤ Zlen t.
Proof.
  intros [Hok Hc Hp Hs]. pose proof Hc as [Hy _].
  apply (cursor_ok_text e Hok) in Hc as [_ (t & Ht & Hx)].
  split; [done|]. split; [done|]. split; [done|]. split; [done|].
  exists t. split; [done|]. split; [|done].
  by destruct (text_lookup_len _ _ _ Hok Ht ltac:(lia)).
Qed.

(** Whatever leaves the buffer, the cursor and the search position alone
    keeps the invariant. *)
Lemma inv_frame e e' :
  inv e →
  buf (doc e') = buf (doc e) →
  cx (view e') = cx (view e) → cy (view e') = cy (view e) →
  pref_cx (view e') = pref_cx (view e) →
  last_query e' = last_query e →
  last_match_row e' = last_match_row e →
  last_match_col e' = last_match_col e →
  inv e'.
Proof.
  intros [Hok Hc Hp Hs] Hb Hx Hy Hpr Hq Hr Hcl.
  split; unfold cursor_ok, search_ok in *; rewrite ?Hb, ?Hx, ?Hy, ?Hpr, ?Hq, ?Hr, ?Hcl;
    done.
Qed.

Lemma min_pref_range p L : 0 ≤ p → 0 ≤ L →
  0 ≤ (if decide (p <= L) then p else L) ≤ L.
Proof. intros. case_decide; lia. Qed.

Lemma editor_move_cursor_vert_inv e key :
  inv e →
  ∃ e', editor_move_cursor_vert e key = Ok e' ∧ inv e' ∧ doc e' = doc e.
Proof.
  intros Hi. destruct (inv_elim e Hi) as (Hok & Hy & Hp & Hs & t & Ht & HL & Hx).
  unfold editor_move_cursor_vert.
  set (page := if decide (screenrows (view e) - 2 < 1) then 1
               else screenrows (view e) - 2).
  assert (Hpage : 1 ≤ page) by (subst page; case_decide; lia).
  set (y := if decide (key = 1005) then _ else _).
  assert (Hyr : 0 ≤ y < count (buf (doc e))).
  { subst y. repeat case_decide; lia. }
  destruct (row_text _ y Hok Hyr) as (t' & Ht' & HL').
  rewrite HL'. simpl. eexists. split; [done|]. split; [|done].
  apply (inv_intro _ t'); simpl; try done; try lia.
  apply min_pref_range; [done|apply Zlen_nonneg].
Qed.

Lemma append_empty_refines d :
  buf_ok (buf d) →
  ∃ d', buffer_append_empty d = Ok d' ∧ buf_ok (buf d') ∧ dirty d' = dirty d ∧
        text (buf d') = text (buf d) ++ [[]].
Proof.
  intros Hok. unfold buffer_append_empty.
  destruct (insert_line_refines d (count (buf d)) [0] 0 Hok)
    as (d' & Hop & Hok' & Hd & Ht).
  { destruct Hok. lia. }
  { unfold Zlen. simpl. lia. }
  exists d'. split; [done|]. split; [done|]. split; [done|].
  rewrite Ht, insertLine_end; [done|].
  rewrite <- (text_length _ Hok). unfold Zlen. lia.
Qed.

Lemma insertChar_lookup T row k c t :
  T !! row = Some t →
  Spec.insertChar T row k c !! row = Some (take k t ++ c :: drop k t).
Proof. intros H. unfold Spec.insertChar. by rewrite list_lookup_alter_eq, H. Qed.

Lemma deleteChar_lookup T row k t :
  T !! row = Some t →
  Spec.deleteChar T row k !! row = Some (take (k - 1) t ++ drop k t).
Proof. intros H. unfold Spec.deleteChar. by rewrite list_lookup_alter_eq, H. Qed.

Lemma splitLine_lookup T row k t :
  T !! row = Some t → Spec.splitLine T row k !! S row = Some (drop k t).
Proof.
  intros H. unfold Spec.splitLine. rewrite H.
  apply lookup_S_middle. rewrite length_take. apply lookup_lt_Some in H. lia.
Qed.

Lemma joinWithPrevious_lookup T row p c :
  (0 < row)%nat → T !! (row - 1)%nat = Some p → T !! row = Some c →
  Spec.joinWithPrevious T row !! (row - 1)%nat = Some (p ++ c).
Proof.
  intros Hr Hp Hc. unfold Spec.joinWithPrevious. rewrite Hp, Hc.
  apply list_lookup_middle. rewrite length_take. apply lookup_lt_Some in Hp. lia.
Qed.

Lemma editor_move_cursor_inv e key :
  inv e →
  key = 1001 ∨ key = 1002 ∨ key = 1003 ∨ key = 1004 ∨ key = 72 ∨ key = 69 →
  ∃ e', editor_move_cursor e key = Ok e' ∧ inv e' ∧
        dirty (doc e') = dirty (doc e) ∧
        (text (buf (doc e')) = text (buf (doc e))
         ∨ (key = 1002 ∧ cy (view e) + 1 = count (buf (doc e))
            ∧ text (buf (doc e')) = text (buf (doc e)) ++ [[]])).
Proof.
  intros Hi Hk. destruct (inv_elim e Hi) as (Hok & Hy & Hp & Hs & t & Ht & HL & Hx).
  pose proof (Zlen_nonneg t) as Ht0.
  unfold editor_move_cursor.
  destruct Hk as [->|[->|[->|[->|[->| ->]]]]]; simpl.
  - (* Up *)
    set (y := if decide (cy (view e) > 0) then cy (view e) - 1 else cy (view e)).
    assert (Hyr : 0 ≤ y < count (buf (doc e))) by (subst y; case_decide; lia).
    destruct (row_text _ y Hok Hyr) as (t' & Ht' & HL').
    rewrite HL'. simpl. eexists. split; [done|]. split; [|by auto].
    apply (inv_intro _ t'); simpl; try done; try lia.
    apply min_pref_range; [done|apply Zlen_nonneg].
  - (* Down *)
    case_decide as Hlast; simpl.
    + destruct (row_text _ (cy (view e) + 1) Hok ltac:(lia)) as (t' & Ht' & HL').
      rewrite HL'. simpl. eexists. split; [done|]. split; [|by auto].
      destruct e as [d v f m q r c h1 h2 h3 qt]; destruct d; simpl in *.
      apply (inv_intro _ t'); simpl; try done; try lia.
      apply min_pref_range; [done|apply Zlen_nonneg].
    + destruct (append_empty_refines (doc e) Hok) as (d' & -> & Hok' & Hd' & Ht').
      simpl.
      assert (Hnew : text (buf d') !! Z.to_nat (cy (view e) + 1) = Some []).
      { rewrite Ht'. apply list_lookup_middle.
        pose proof (text_length _ Hok). unfold Zlen in *. lia. }
      destruct (text_lookup_len _ _ _ Hok' Hnew ltac:(lia)) as [-> _].
      simpl. eexists. split; [done|]. split; [|split; [done|]].
      * apply (inv_intro _ []); simpl; try done; try lia.
        apply min_pref_range; [done|apply Zlen_nonneg].
      * right. split; [done|]. split; [lia|done].
  - (* Right *)
    rewrite decide_True by lia. rewrite HL. simpl.
    case_decide; [|case_decide].
    + eexists. split; [done|]. split; [|by auto].
      apply (inv_intro _ t); simpl; try done; lia.
    + destruct (row_text _ (cy (view e) + 1) Hok ltac:(lia)) as (t' & Ht' & HL').
      eexists. split; [done|]. split; [|by auto].
      apply (inv_intro _ t'); simpl; try done; try lia.
      pose proof (Zlen_nonneg t'). lia.
    + eexists. split; [done|]. by auto.
  - (* Left *)
    case_decide; [|case_decide].
    + eexists. split; [done|]. split; [|by auto].
      apply (inv_intro _ t); simpl; try done; lia.
    + destruct (row_text _ (cy (view e) - 1) Hok ltac:(lia)) as (t' & Ht' & HL').
      rewrite HL'. simpl. eexists. split; [done|]. split; [|by auto].
      pose proof (Zlen_nonneg t').
      apply (inv_intro _ t'); simpl; try done; lia.
    + eexists. split; [done|]. by auto.
  - (* Home *)
    eexists. split; [done|]. split; [|by auto].
    apply (inv_intro _ t); simpl; try done; lia.
  - (* End *)
    rewrite HL. simpl. eexists. split; [done|]. split; [|by auto].
    apply (inv_intro _ t); simpl; try done; lia.
Qed.

Lemma search_ok_frame e e' :
  search_ok e →
  last_query e' = last_query e → last_match_row e' = last_match_row e →
  last_match_col e' = last_match_col e → search_ok e'.
Proof. unfold search_ok. intros H -> -> ->. done. Qed.

Lemma editor_insert_char_spec e c :
  inv e →
  ∃ t e', text (buf (doc e)) !! Z.to_nat (cy (view e)) = Some t ∧
    editor_insert_char e c = Ok e' ∧ inv e' ∧
    dirty (doc e') = true ∧
    text (buf (doc e'))
    = Spec.insertChar (text (buf (doc e))) (Z.to_nat (cy (view e)))
        (Z.to_nat (cx (view e))) c ∧
    cx (view e') = cx (view e) + 1 ∧ cy (view e') = cy (view e).
Proof.
  intros Hi. destruct (inv_elim e Hi) as (Hok & Hy & Hp & Hs & t & Ht & HL & Hx).
  unfold editor_insert_char.
  destruct (insert_char_refines (doc e) (cy (view e)) (cx (view e)) c Hok Hy)
    as (t' & d' & Ht' & -> & Hok' & Hd' & HT').
  rewrite Ht in Ht'. injection Ht' as <-.
  rewrite clamp_col_id in HT' by done.
  simpl. exists t. eexists. split; [done|]. split; [done|].
  split; [|by auto].
  eapply (inv_intro _ _); simpl; try done; try lia.
  - rewrite HT'. by apply insertChar_lookup.
  - rewrite Zlen_app, Zlen_cons. unfold Zlen in *.
    rewrite length_take, length_drop. lia.
Qed.

Lemma editor_insert_newline_spec e :
  inv e →
  ∃ e', editor_insert_newline e = Ok e' ∧ inv e' ∧
    dirty (doc e') = true ∧
    text (buf (doc e'))
    = Spec.splitLine (text (buf (doc e))) (Z.to_nat (cy (view e)))
        (Z.to_nat (cx (view e))) ∧
    cx (view e') = 0 ∧ cy (view e') = cy (view e) + 1.
Proof.
  intros Hi. destruct (inv_elim e Hi) as (Hok & Hy & Hp & Hs & t & Ht & HL & Hx).
  unfold editor_insert_newline.
  destruct (split_line_refines (doc e) (cy (view e)) (cx (view e)) Hok Hy)
    as (t' & d' & Ht' & -> & Hok' & Hd' & HT').
  rewrite Ht in Ht'. injection Ht' as <-.
  rewrite clamp_col_id in HT' by done.
  simpl. eexists. split; [done|]. split; [|by auto].
  eapply (inv_intro _ _); simpl; try done; try lia.
  - rewrite HT'.
    replace (Z.to_nat (cy (view e) + 1)) with (S (Z.to_nat (cy (view e)))) by lia.
    by apply splitLine_lookup.
  - pose proof (Zlen_nonneg (drop (Z.to_nat (cx (view e))) t)). lia.
Qed.

Lemma editor_backspace_spec e :
  inv e →
  ∃ t e', text (buf (doc e)) !! Z.to_nat (cy (view e)) = Some t ∧
    editor_backspace e = Ok e' ∧ inv e' ∧
    if decide (cx (view e) > 0) then
      dirty (doc e') = true ∧
      text (buf (doc e'))
      = Spec.deleteChar (text (buf (doc e))) (Z.to_nat (cy (view e)))
          (Z.to_nat (cx (view e))) ∧
      cx (view e') = cx (view e) - 1 ∧ cy (view e') = cy (view e)
    else if decide (cy (view e) > 0) then
      dirty (doc e') = true ∧
      text (buf (doc e'))
      = Spec.joinWithPrevious (text (buf (doc e))) (Z.to_nat (cy (view e))) ∧
      cy (view e') = cy (view e) - 1 ∧
      ∃ p, text (buf (doc e)) !! Z.to_nat (cy (view e) - 1) = Some p
           ∧ cx (view e') = Zlen p
    else doc e' = doc e ∧ view e' = view e.
Proof.
  intros Hi. destruct (inv_elim e Hi) as (Hok & Hy & Hp & Hs & t & Ht & HL & Hx).
  unfold editor_backspace. exists t.
  case_decide as Hcx; [|case_decide as Hcy].
  - destruct (delete_char_refines (doc e) (cy (view e)) (cx (view e)) Hok Hy)
      as (t' & d' & Ht' & -> & Hok' & HT').
    rewrite Ht in Ht'. injection Ht' as <-.
    rewrite decide_True in HT' by lia. destruct HT' as [Hd' HT'].
    simpl. eexists. split; [done|]. split; [done|]. split; [|by auto].
    eapply (inv_intro _ _); simpl; try done; try lia.
    + rewrite HT'. by apply deleteChar_lookup.
    + rewrite Zlen_app. unfold Zlen in *.
      rewrite length_take, length_drop. lia.
  - destruct (row_text _ (cy (view e) - 1) Hok ltac:(lia)) as (p & Hp' & HLp).
    rewrite HLp. simpl.
    destruct (join_refines (doc e) (cy (view e)) Hok ltac:(lia))
      as (d' & -> & Hok' & Hd' & HT').
    simpl. eexists. split; [done|]. split; [done|]. split.
    + eapply (inv_intro _ (p ++ t)); simpl; try done; try lia.
      * rewrite HT'.
        replace (Z.to_nat (cy (view e) - 1)) with (Z.to_nat (cy (view e)) - 1)%nat
          by lia.
        apply joinWithPrevious_lookup; [lia| |done].
        by replace (Z.to_nat (cy (view e)) - 1)%nat
          with (Z.to_nat (cy (view e) - 1)) by lia.
      * rewrite Zlen_app. pose proof (Zlen_nonneg p). lia.
      * pose proof (Zlen_nonneg p). lia.
    + split; [done|]. split; [done|]. split; [done|]. eauto.
  - eexists. split; [done|]. split; [done|]. split; [|done].
    eapply inv_frame; [exact Hi|done..].
Qed.
End V3_editing.

(** * Search *)

Lemma starts_with_length q h : starts_with q h = true → (length q ≤ length h)%nat.
Proof.
  revert h. induction q as [|x q IH]; intros [|y h]; simpl; try lia; try done.
  intros [_ H]%andb_prop. apply IH in H. lia.
Qed.

Lemma strstr_val_Some h q i :
  strstr_val h q = Some i →
  0 ≤ i ∧ i + Zlen q ≤ Zlen h ∧ starts_with q (drop (Z.to_nat i) h) = true.
Proof.
  revert i. induction h as [|y h IH]; intros i; simpl.
  - destruct (starts_with q []) eqn:E; [|done]. intros [= <-].
    apply starts_with_length in E as E'. unfold Zlen. simpl in *. split; [lia|]. split; [lia|done].
  - destruct (starts_with q (y :: h)) eqn:E.
    + intros [= <-]. apply starts_with_length in E as E'.
      unfold Zlen. simpl in *. split; [lia|]. split; [lia|done].
    + destruct (strstr_val h q) as [j|] eqn:Ej; [|done]. simpl. intros [= <-].
      destruct (IH j eq_refl) as (H0 & H1 & H2).
      rewrite Zlen_cons. split; [lia|]. split; [lia|].
      replace (Z.to_nat (Z.succ j)) with (S (Z.to_nat j)) by lia. done.
Qed.

(** What [strstr] does on a well-formed line. *)
Lemma strstr_line t s off q :
  0 ≤ off ≤ Zlen t →
  strstr (t ++ 0 :: s) off q = Ok ((λ i, off + i) <$> strstr_val (visible t off) q).
Proof.
  intros Hoff. unfold strstr, visible.
  assert (Hd : drop (Z.to_nat off) (t ++ 0 :: s) = drop (Z.to_nat off) t ++ 0 :: s).
  { apply drop_app_le. unfold Zlen in *. lia. }
  rewrite decide_True.
  - by rewrite Hd, cstring_terminated.
  - split; [rewrite Zlen_app, Zlen_cons; pose proof (Zlen_nonneg s); lia|].
    unfold terminated. rewrite Hd. apply list_elem_of_In, in_or_app.
    right. by left.
Qed.

Lemma visible_length t k : 0 ≤ k ≤ Zlen t → Zlen (visible t k) ≤ Zlen t - k.
Proof.
  intros Hk. unfold visible.
  pose proof (strlen_le (drop (Z.to_nat k) t) []) as H. unfold strlen in H.
  unfold Zlen in *. rewrite length_drop in H. lia.
Qed.

Lemma visible_nulfree t k :
  Forall (λ x, x ≠ 0) t → visible t k = drop (Z.to_nat k) t.
Proof. intros H. unfold visible. apply cstring_app_nul. by apply Forall_drop. Qed.

(** One round of the search, seen on the text. *)
Lemma find_scan_refines b q fuel r c :
  buf_ok b → 0 ≤ r → 0 ≤ c → count b - r ≤ Z.of_nat fuel →
  V3.find_scan fuel b q r c = Ok (scan_rows (drop (Z.to_nat r) (text b)) q r c).
Proof.
  intros Hok. revert r c. induction fuel as [|f IH]; intros r c Hr Hc Hf; simpl.
  - rewrite decide_False by lia.
    rewrite drop_ge; [done|]. pose proof (text_length _ Hok). unfold Zlen in *. lia.
  - case_decide as Hlt.
    + destruct (buf_ok_at b r Hok ltac:(lia))
        as (l1&t&s&l2&n1&n2&Hb&->&Hn1&_&_&_&_&Ht&Hl).
      rewrite Ht. rewrite <- Hl, drop_app_length. simpl.
      assert (Hls : lines b = l1 ++ (t ++ 0 :: s) :: l2) by (by rewrite Hb).
      assert (Hns : len b = n1 ++ Zlen t :: n2) by (by rewrite Hb).
      rewrite Hls, Hns.
      rewrite (slot_app l1) by done. simpl.
      rewrite (slot_app n1) by done. simpl.
      assert (Hrest : drop (Z.to_nat (Zlen l1 + 1)) (text b)
                      = zip_with row_bytes l2 n2).
      { rewrite Ht. replace (Z.to_nat (Zlen l1 + 1)) with (S (Z.to_nat (Zlen l1))) by lia.
        by apply drop_S_middle. }
      case_decide as HL.
      * rewrite IH by lia. by rewrite Hrest.
      * pose proof (Zlen_nonneg t).
        rewrite strstr_line by (case_decide; lia).
        simpl. destruct (strstr_val _ q) as [i|]; simpl; [done|].
        rewrite IH by lia. by rewrite Hrest.
    + rewrite drop_ge; [done|]. pose proof (text_length _ Hok). unfold Zlen in *. lia.
Qed.

(** Where a round can end. *)
Lemma scan_rows_range rows q r c p :
  0 ≤ c → scan_rows rows q r c = Some p →
  r ≤ p.1 < r + Zlen rows ∧
  ∃ t, rows !! Z.to_nat (p.1 - r) = Some t ∧ 0 ≤ p.2 ∧ p.2 + Zlen q ≤ Zlen t
       ∧ (p.1 = r → (if decide (c < Zlen t) then c else Zlen t) ≤ p.2).
Proof.
  revert r c. induction rows as [|t rest IH]; intros r c Hc; simpl; [done|].
  pose proof (Zlen_nonneg t) as Ht0. pose proof (Zlen_nonneg rest) as Hr0.
  assert (Hrec : scan_rows rest q (r + 1) 0 = Some p →
    r ≤ p.1 < r + Zlen (t :: rest) ∧
    ∃ t0, (t :: rest) !! Z.to_nat (p.1 - r) = Some t0 ∧ 0 ≤ p.2
          ∧ p.2 + Zlen q ≤ Zlen t0
          ∧ (p.1 = r → (if decide (c < Zlen t0) then c else Zlen t0) ≤ p.2)).
  { intros H. destruct (IH (r + 1) 0 ltac:(lia) H) as (H1 & t0 & Ht & H2 & H3 & _).
    rewrite Zlen_cons. split; [lia|]. exists t0.
    replace (Z.to_nat (p.1 - r)) with (S (Z.to_nat (p.1 - (r + 1)))) by lia.
    simpl. repeat split; try done. lia. }
  case_decide as HL; [done|].
  set (k := if decide (c < Zlen t) then c else Zlen t).
  assert (Hk : 0 ≤ k ≤ Zlen t) by (subst k; case_decide; lia).
  destruct (strstr_val (visible t k) q) as [i|] eqn:E; [|done].
  intros [= <-]. simpl. apply strstr_val_Some in E as (H0 & H1 & _).
  pose proof (visible_length t k Hk).
  rewrite Zlen_cons. split; [lia|]. exists t.
  replace (r - r) with 0 by lia. simpl. repeat split; try done; lia.
Qed.

Section V3_search.
Import V3.

Lemma find_start_nonneg e fc :
  inv e → last_query e ≠ [] → 0 ≤ (find_start e fc).1 ∧ 0 ≤ (find_start e fc).2.
Proof.
  intros Hi Hq. destruct (inv_elim e Hi) as (Hok & Hy & Hp & Hs & t & Ht & HL & Hx).
  unfold find_start. destruct fc; simpl; [lia|].
  destruct Hs as [Hs|Hs]; [done|lia].
Qed.

(** [editor_find_next] computes [scan_text] on the text. *)
Lemma editor_find_next_text e fc :
  inv e → last_query e ≠ [] →
  editor_find_next e fc
  = Ok (match scan_text (text (buf (doc e))) (last_query e)
                (find_start e fc).1 (find_start e fc).2 with
        | Some (r, col) => (found_at e r col, true)
        | None => (e, false)
        end).
Proof.
  intros Hi Hq. destruct (find_start_nonneg e fc Hi Hq) as [Hr Hc].
  destruct (inv_elim e Hi) as (Hok & _).
  unfold editor_find_next, found_at. rewrite decide_False by done.
  unfold scan_text.
  replace (if fc then cy (view e) else last_match_row e) with (find_start e fc).1
    by (by destruct fc).
  replace (if fc then cx (view e) else last_match_col e + 1) with (find_start e fc).2
    by (by destruct fc).
  rewrite (find_scan_refines _ _ _ (find_start e fc).1 (find_start e fc).2)
    by (try done; lia).
  simpl.
  destruct (scan_rows (drop _ _) _ _ _) as [[r col]|]; simpl; [done|].
  rewrite (find_scan_refines _ _ _ 0 0) by (try done; destruct Hok; lia). simpl.
  rewrite drop_0. by destruct (scan_rows _ _ _ _) as [[r col]|].
Qed.

Lemma scan_text_range T q r c p :
  0 ≤ r → 0 ≤ c → scan_text T q r c = Some p →
  0 ≤ p.1 ∧ ∃ t, T !! Z.to_nat p.1 = Some t ∧ 0 ≤ p.2 ∧ p.2 + Zlen q ≤ Zlen t.
Proof.
  intros Hr Hc. unfold scan_text.
  destruct (scan_rows (drop _ T) q r c) as [p'|] eqn:E.
  - intros [= ->].
    destruct (scan_rows_range _ _ _ _ _ Hc E) as (H1 & t & Ht & H2 & H3 & _).
    split; [lia|]. exists t. rewrite lookup_drop in Ht.
    replace (Z.to_nat r + Z.to_nat (p.1 - r))%nat with (Z.to_nat p.1) in Ht by lia.
    done.
  - intros E'.
    destruct (scan_rows_range T q 0 0 p ltac:(lia) E') as (H1 & t & Ht & H2 & H3 & _).
    split; [lia|]. exists t. replace (p.1 - 0) with p.1 in Ht by lia. done.
Qed.

Lemma editor_find_next_inv e fc :
  inv e →
  ∃ e' found, editor_find_next e fc = Ok (e', found) ∧ inv e' ∧
              doc e' = doc e ∧ (found = false → e' = e).
Proof.
  intros Hi. destruct (decide (last_query e = [])) as [Hq|Hq].
  - unfold editor_find_next. rewrite decide_True by done. by exists e, false.
  - rewrite editor_find_next_text by done.
    destruct (find_start_nonneg e fc Hi Hq) as [Hr Hc].
    destruct (scan_text _ _ _ _) as [[r col]|] eqn:E; [|by exists e, false].
    destruct (scan_text_range _ _ _ _ _ Hr Hc E) as (H1 & t & Ht & H2 & H3).
    simpl in *. eexists _, true. split; [done|]. split; [|done].
    destruct (inv_elim e Hi) as (Hok & _).
    pose proof (Zlen_nonneg (last_query e)).
    unfold found_at.
    apply (inv_intro _ t); simpl; try done; try lia.
    right. simpl. lia.
Qed.
End V3_search.

(** * Version 0.3: the main loop *)

Lemma wait_byte_cases inp :
  (∃ b rest, wait_byte inp = Ok (b, rest) ∧ (length rest < length inp)%nat)
  ∨ wait_byte inp = Err Starved ∨ wait_byte inp = Err Died.
Proof.
  induction inp as [|[b| |] inp IH]; simpl; auto.
  - left. exists b, inp. split; [done|lia].
  - destruct IH as [(b & rest & -> & H)|[->| ->]]; auto.
    left. exists b, rest. split; [done|lia].
Qed.

Section V3_main.
Import V3.

Lemma read_seq_length fuel inp seq :
  (length (read_seq fuel inp seq).2 ≤ length inp)%nat.
Proof.
  revert inp seq. induction fuel as [|f IH]; intros inp seq; simpl; [lia|].
  destruct inp as [|[b| |] rest]; simpl; try lia.
  destruct (is_final b); simpl; [lia|]. specialize (IH rest (seq ++ [b])). lia.
Qed.

Lemma editor_read_key_cases inp :
  (∃ c rest, editor_read_key inp = Ok (c, rest) ∧ (length rest < length inp)%nat)
  ∨ editor_read_key inp = Err Starved ∨ editor_read_key inp = Err Died.
Proof.
  unfold editor_read_key.
  destruct (wait_byte_cases inp) as [(b & rest & -> & H)|[->| ->]]; auto.
  left. unfold mbind, res_bind. cbv beta iota.
  destruct (decide (b ≠ 27)).
  - eexists _, _. split; [done|lia].
  - pose proof (read_seq_length 16 rest []) as Hl.
    destruct (read_seq 16 rest []) as [seq inp']. simpl in Hl.
    case_decide; eexists _, _; (split; [done|lia]).
Qed.

Lemma same_but_screen_refl e : same_but_screen e e.
Proof. by repeat split. Qed.

Lemma same_but_screen_trans e1 e2 e3 :
  same_but_screen e1 e2 → same_but_screen e2 e3 → same_but_screen e1 e3.
Proof.
  unfold same_but_screen. intros (?&?&?&?&?&?&?&?&?&?&?&?) (?&?&?&?&?&?&?&?&?&?&?&?).
  repeat split; congruence.
Qed.

Lemma same_but_screen_inv e e' : same_but_screen e e' → inv e → inv e'.
Proof.
  intros (?&?&?&?&?&?&?&?&?&?&?&?) Hi.
  eapply inv_frame; [exact Hi|congruence..].
Qed.

Lemma draw_same e : same_but_screen e (editor_draw_screen e).
Proof.
  unfold editor_draw_screen, same_but_screen. simpl.
  destruct (v3_scroll_frame (view e)) as (?&?&?&?&?). by repeat split.
Qed.

Lemma status_same e m : same_but_screen e (editor_set_status e m).
Proof. by repeat split. Qed.

Lemma dimensions_same os e :
  same_but_screen e (editor_update_dimensions os e).1.2.
Proof.
  unfold editor_update_dimensions.
  destruct (get_window_size os) as [[[rows cols]|] os']; simpl; by repeat split.
Qed.

Lemma editor_prompt_cases fuel os e prompt out :
  (length (stdin os) < fuel)%nat →
  (∃ os' e' ans,
     editor_prompt fuel os e prompt out = Ok (os', e', ans) ∧
     same_but_screen e e' ∧ fs os' = fs os ∧ faults os' = faults os ∧
     statusmsg e' = match ans with None => MsgCanceled | Some _ => MsgEmpty end)
  ∨ editor_prompt fuel os e prompt out = Err Starved
  ∨ editor_prompt fuel os e prompt out = Err Died.
Proof.
  revert os e out. induction fuel as [|f IH]; intros os e out Hf; [lia|].
  simpl.
  destruct (editor_read_key_cases (stdin os)) as [(c & rest & -> & Hl)|[->| ->]];
    auto.
  simpl.
  set (e1 := editor_draw_screen (editor_set_status e (MsgPrompt prompt out))).
  assert (H1 : same_but_screen e e1).
  { eapply same_but_screen_trans; [apply status_same|apply draw_same]. }
  assert (Hrec : ∀ out',
    (∃ os' e' ans,
       editor_prompt f (set_stdin os rest) e1 prompt out' = Ok (os', e', ans) ∧
       same_but_screen e e' ∧ fs os' = fs os ∧ faults os' = faults os ∧
       statusmsg e' = match ans with None => MsgCanceled | Some _ => MsgEmpty end)
    ∨ editor_prompt f (set_stdin os rest) e1 prompt out' = Err Starved
    ∨ editor_prompt f (set_stdin os rest) e1 prompt out' = Err Died).
  { intros out'.
    destruct (IH (set_stdin os rest) e1 out' ltac:(simpl; lia))
      as [(os' & e' & ans & -> & H2 & Hfs & Hfl & Hst)|[->| ->]]; auto.
    left. exists os', e', ans. split; [done|]. split; [|done].
    by eapply same_but_screen_trans. }
  case_decide.
  { left. exists (set_stdin os rest), (editor_set_status e1 MsgCanceled), None.
    split; [done|]. split; [|done].
    eapply same_but_screen_trans; [exact H1|apply status_same]. }
  case_decide.
  { case_decide; [|apply Hrec].
    left. exists (set_stdin os rest), (editor_set_status e1 MsgEmpty), (Some out).
    split; [done|]. split; [|done].
    eapply same_but_screen_trans; [exact H1|apply status_same]. }
  case_decide.
  { case_decide; apply Hrec. }
  destruct (isprint c); [case_decide|]; apply Hrec.
Qed.
End V3_main.

(** * Saving *)


Lemma sys_ok_frame os :
  stdin (sys_ok os).2 = stdin os ∧ fs (sys_ok os).2 = fs os
  ∧ winsz (sys_ok os).2 = winsz os.
Proof. unfold sys_ok. by destruct (faults os). Qed.

(** A write appends to the file behind [path] or changes nothing. *)
Lemma sys_write_spec os path content bytes :
  fs os !! path = Some content →
  let r := sys_write os path bytes in
  stdin r.2 = stdin os ∧ winsz r.2 = winsz os ∧
  (if r.1 then fs r.2 = <[path := content ++ bytes]> (fs os)
   else fs r.2 = fs os).
Proof.
  intros Hc. unfold sys_write. destruct (sys_ok_frame os) as (H1 & H2 & H3).
  destruct (sys_ok os) as [[] os1]; simpl in *; [|done].
  split; [done|]. split; [done|].
  rewrite H2. by rewrite (alter_alt_Some _ _ _ _ Hc).
Qed.

Lemma text_lookup_slots b i blk L :
  slot (lines b) i = Ok blk → slot (len b) i = Ok L →
  text b !! Z.to_nat i = Some (take (Z.to_nat L) blk).
Proof.
  intros [_ H1]%slot_Ok [_ H2]%slot_Ok. unfold text.
  rewrite lookup_zip_with, H1. simpl. by rewrite H2.
Qed.

Lemma write_lines_spec fuel os b path i content os' ok :
  0 ≤ i → fs os !! path = Some content →
  write_lines fuel os b path i = Ok (os', ok) →
  stdin os' = stdin os ∧ winsz os' = winsz os ∧
  ∃ w, fs os' = <[path := content ++ w]> (fs os) ∧
       (ok = true →
        w = file_image (take fuel (drop (Z.to_nat i) (text b)))).
Proof.
  revert os i content. induction fuel as [|f IH]; intros os i content Hi Hc; simpl.
  - intros [= <- <-]. split; [done|]. split; [done|]. exists [].
    rewrite app_nil_r. split; [|done]. by rewrite insert_id.
  - destruct (slot (lines b) i) as [blk|] eqn:Eb; [|done]. simpl.
    destruct (slot (len b) i) as [L|] eqn:EL; [|done]. simpl.
    case_decide; [|done].
    pose proof (text_lookup_slots b i blk L Eb EL) as Ht.
    pose proof (sys_write_spec os path content (take (Z.to_nat L) blk) Hc) as Hw1.
    simpl in Hw1.
    destruct (sys_write os path (take (Z.to_nat L) blk)) as [[] os1];
      simpl in *; destruct Hw1 as (Hs1 & Hz1 & Hf1).
    2:{ intros [= <- <-]. split; [done|]. split; [done|]. exists [].
        rewrite app_nil_r, Hf1. split; [|done]. by rewrite insert_id. }
    assert (Hc1 : fs os1 !! path = Some (content ++ take (Z.to_nat L) blk)).
    { rewrite Hf1. apply lookup_insert_eq. }
    pose proof (sys_write_spec os1 path _ [10] Hc1) as Hw2. simpl in Hw2.
    destruct (sys_write os1 path [10]) as [[] os2];
      simpl in *; destruct Hw2 as (Hs2 & Hz2 & Hf2).
    2:{ intros [= <- <-]. split; [congruence|]. split; [congruence|].
        exists (take (Z.to_nat L) blk). rewrite Hf2, Hf1. split; [done|]. done. }
    assert (Hc2 : fs os2 !! path = Some ((content ++ take (Z.to_nat L) blk) ++ [10])).
    { rewrite Hf2. apply lookup_insert_eq. }
    intros Hrec.
    destruct (IH os2 (i + 1) _ ltac:(lia) Hc2 Hrec) as (Hs3 & Hz3 & w & Hf3 & Hw).
    split; [congruence|]. split; [congruence|].
    exists (take (Z.to_nat L) blk ++ [10] ++ w). split.
    + rewrite Hf3, Hf2, Hf1, !insert_insert_eq. f_equal.
      by rewrite <- !app_assoc.
    + intros Hok. rewrite (Hw Hok).
      rewrite (drop_S _ _ _ Ht). simpl. unfold file_image. simpl.
      replace (Z.to_nat (i + 1)) with (S (Z.to_nat i)) by lia.
      by rewrite <- app_assoc.
Qed.

Lemma write_lines_no_fault fuel os b path i :
  buf_ok b → 0 ≤ i → i + Z.of_nat fuel ≤ count b →
  ∃ os' ok, write_lines fuel os b path i = Ok (os', ok).
Proof.
  intros Hok. revert os i. induction fuel as [|f IH]; intros os i Hi Hf; simpl.
  - eauto.
  - destruct (buf_ok_at b i Hok ltac:(lia)) as (l1&t&s&l2&n1&n2&Hb&->&Hn1&_).
    assert (Hls : lines b = l1 ++ (t ++ 0 :: s) :: l2) by (by rewrite Hb).
    assert (Hns : len b = n1 ++ Zlen t :: n2) by (by rewrite Hb).
    rewrite Hls, Hns.
    rewrite (slot_app l1) by done. simpl.
    rewrite (slot_app n1) by done. simpl.
    rewrite decide_True.
    2:{ rewrite Zlen_app, Zlen_cons. pose proof (Zlen_nonneg t).
        pose proof (Zlen_nonneg s). lia. }
    destruct (sys_write os _ _) as [[] os1]; [|eauto].
    destruct (sys_write os1 _ _) as [[] os2]; [|eauto].
    apply IH; lia.
Qed.

Lemma v3_save_spec os e os' e' saved :
  V3.editor_save_atomic os e = Ok (os', e', saved) →
  let tmp := (V3.filename e +:+ ".tmp")%string in
  let b := buf (V3.doc e) in
  stdin os' = stdin os ∧ winsz os' = winsz os ∧
  if saved then
    e' = V3.set_dirty e false ∧
    fs os' = <[V3.filename e := file_image (take (Z.to_nat (count b)) (text b))]>
               (delete tmp (fs os))
  else
    e' = e ∧
    if (sys_ok os).1
    then fs os' = delete tmp (fs os) ∨ ∃ w, fs os' = <[tmp := w]> (fs os)
    else fs os' = fs os.
Proof.
  unfold V3.editor_save_atomic, sys_open_trunc.
  destruct (sys_ok_frame os) as (Hs0 & Hf0 & Hw0).
  destruct (sys_ok os) as [[] os0]; simpl in *.
  2:{ intros [= <- <- <-]. done. }
  set (tmp := (V3.filename e +:+ ".tmp")%string).
  set (os1 := mkOS _ _ _ _).
  destruct (write_lines _ os1 _ tmp 0) as [[os2 ok]|] eqn:Ew; [|done]. simpl.
  destruct (write_lines_spec _ os1 _ tmp 0 [] os2 ok ltac:(lia)
              ltac:(apply lookup_insert_eq) Ew) as (Hs2 & Hw2 & w & Hf2 & Hw).
  simpl in Hs2, Hw2, Hf2. rewrite insert_insert_eq in Hf2.
  assert (Hdel : ∀ os3, stdin os3 = stdin os2 → winsz os3 = winsz os2 →
            fs os3 = fs os2 →
            stdin (sys_unlink os3 tmp) = stdin os2 ∧
            winsz (sys_unlink os3 tmp) = winsz os2 ∧
            (fs (sys_unlink os3 tmp) = delete tmp (fs os)
             ∨ ∃ w', fs (sys_unlink os3 tmp) = <[tmp := w']> (fs os))).
  { intros os3 E1 E2 E3. unfold sys_unlink.
    destruct (sys_ok_frame os3) as (Hu1 & Hu2 & Hu3).
    destruct (sys_ok os3) as [[] os4]; simpl in *.
    - split; [congruence|]. split; [congruence|]. left.
      by rewrite Hu2, E3, Hf2, Hf0, delete_insert_eq.
    - split; [congruence|]. split; [congruence|]. right. exists w.
      by rewrite Hu2, E3, Hf2, Hf0. }
  assert (Hfail : ∀ os3, stdin os3 = stdin os2 → winsz os3 = winsz os2 →
            fs os3 = fs os2 →
            Ok (sys_unlink os3 tmp, e, false) = Ok (os', e', saved) →
            stdin os' = stdin os ∧ winsz os' = winsz os ∧
            (if saved then
               e' = V3.set_dirty e false ∧
               fs os' = <[V3.filename e :=
                            file_image (take (Z.to_nat (count (buf (V3.doc e))))
                                             (text (buf (V3.doc e))))]>
                          (delete tmp (fs os))
             else e' = e ∧
                  (fs os' = delete tmp (fs os) ∨ ∃ w', fs os' = <[tmp := w']> (fs os)))).
  { intros os3 E1 E2 E3 [= <- <- <-].
    destruct (Hdel os3 E1 E2 E3) as (Hd1 & Hd2 & Hd3).
    split; [congruence|]. split; [congruence|]. split; [done|]. exact Hd3. }
  destruct ok.
  - (* every write succeeded *)
    destruct (sys_ok_frame os2) as (Hs3 & Hf3 & Hw3).
    destruct (sys_ok os2) as [synced os3]; simpl in *.
    destruct (sys_ok_frame os3) as (Hs4 & Hf4 & Hw4).
    destruct (sys_ok os3) as [closed os4]; simpl in *.
    destruct (synced && closed) eqn:Eok; simpl.
    2:{ apply Hfail; congruence. }
    unfold sys_rename.
    destruct (sys_ok_frame os4) as (Hs5 & Hf5 & Hw5).
    destruct (sys_ok os4) as [[] os5]; simpl in *.
    2:{ apply Hfail; congruence. }
    assert (Htmp : fs os5 !! tmp = Some w).
    { rewrite Hf5, Hf4, Hf3, Hf2. apply lookup_insert_eq. }
    rewrite Htmp. simpl. intros [= <- <- <-]. simpl.
    split; [congruence|]. split; [congruence|]. split; [done|].
    rewrite Hf5, Hf4, Hf3, Hf2, Hf0, delete_insert_eq.
    rewrite (Hw eq_refl). by rewrite drop_0.
  - (* a write failed *)
    simpl.
    destruct (sys_ok_frame os2) as (Hs3 & Hf3 & Hw3).
    destruct (sys_ok os2) as [closed os3]; simpl in *.
    apply Hfail; congruence.
Qed.


Lemma editor_save_atomic_returns os e :
  buf_ok (buf (V3.doc e)) →
  ∃ os' e' saved, V3.editor_save_atomic os e = Ok (os', e', saved).
Proof.
  intros Hok. unfold V3.editor_save_atomic.
  destruct (sys_open_trunc os _) as [[] os1]; simpl; [|eauto].
  destruct (write_lines_no_fault (Z.to_nat (count (buf (V3.doc e)))) os1
              (buf (V3.doc e)) (V3.filename e +:+ ".tmp")%string 0 Hok ltac:(lia))
    as (os2 & ok & ->); [destruct Hok; lia|].
  simpl.
  destruct (if ok then sys_ok os2 else (false, os2)) as [ok' os3].
  destruct (sys_ok os3) as [closed os4].
  destruct (ok' && closed); simpl; [|eauto].
  destruct (sys_rename os4 _ _) as [[] os5]; simpl; eauto.
Qed.





(** * Version 0.3: every round of the main loop keeps the invariant *)

Section V3_loop.
Import V3.

Lemma set_dirty_inv e x : inv e → inv (set_dirty e x).
Proof. intros Hi. eapply inv_frame; [exact Hi|done..]. Qed.

Lemma set_quit_inv e q : inv e → inv (set_quit e q).
Proof. intros Hi. eapply inv_frame; [exact Hi|done..]. Qed.

Lemma clear_hl_inv e : inv e → inv (clear_hl e).
Proof. intros Hi. eapply inv_frame; [exact Hi|done..]. Qed.

Lemma set_status_inv e m : inv e → inv (editor_set_status e m).
Proof. intros Hi. eapply inv_frame; [exact Hi|done..]. Qed.

Lemma editor_save_atomic_inv os e :
  inv e →
  ∃ os' e' saved, editor_save_atomic os e = Ok (os', e', saved) ∧ inv e'
                  ∧ buf (doc e') = buf (doc e) ∧ view e' = view e.
Proof.
  intros Hi. destruct (editor_save_atomic_returns os e (inv_buf e Hi))
    as (os' & e' & saved & H).
  exists os', e', saved. split; [done|].
  destruct (v3_save_spec _ _ _ _ _ H) as (_ & _ & Hr).
  destruct saved; destruct Hr as [-> _]; [|done].
  split; [by apply set_dirty_inv|done].
Qed.

Lemma editor_find_next_result e fc e' found :
  editor_find_next e fc = Ok (e', found) →
  if found then ∃ r col, e' = found_at e r col else e' = e.
Proof.
  unfold editor_find_next, found_at. cbv zeta.
  case_decide; [by intros [= <- <-]|].
  destruct (find_scan (Z.to_nat (_ - _)) _ _ _ _) as [[[r col]|]|]; simpl; try done.
  - intros [= <- <-]. eauto.
  - destruct (find_scan _ _ _ _ _) as [[[r col]|]|]; simpl; try done.
    + intros [= <- <-]. eauto.
    + by intros [= <- <-].
Qed.

Lemma editor_find_result os e os' e' :
  editor_find os e = Ok (os', e') →
  doc e' = doc e ∧ quit_times_needed e' = quit_times_needed e
  ∧ fs os' = fs os ∧ faults os' = faults os ∧ filename e' = filename e
  ∧ find_outcome e e'.
Proof.
  unfold editor_find.
  destruct (editor_prompt_cases (S (length (stdin os))) os e "/" [] ltac:(lia))
    as [(os1 & e1 & ans & -> & Hsame & Hfs & Hfl & Hst)|[->| ->]]; [|done..].
  simpl. destruct Hsame as (Hd&Hf&Hx&Hy&Hp&Hq&Hr&Hc&H1&H2&H3&Hqt).
  destruct ans as [query|].
  - set (e2 := mkEditor _ _ _ _ query _ _ _ _ _ _).
    destruct (editor_find_next e2 true) as [[e3 found]|] eqn:E; [|done]. simpl.
    apply editor_find_next_result in E.
    destruct found.
    + destruct E as (r & col & ->). intros [= <- <-]. simpl.
      repeat split; try done. by right.
    + subst e3. intros [= <- <-]. simpl.
      repeat split; try done. left. repeat split; try done. by right.
  - intros [= <- <-]. simpl. repeat split; try done.
    left. repeat split; try done. by left.
Qed.

Lemma editor_find_cases os e :
  inv e →
  (∃ os' e', editor_find os e = Ok (os', e') ∧ inv e')
  ∨ editor_find os e = Err Starved ∨ editor_find os e = Err Died.
Proof.
  intros Hi. unfold editor_find.
  destruct (editor_prompt_cases (S (length (stdin os))) os e "/" [] ltac:(lia))
    as [(os1 & e1 & ans & -> & Hsame & _)|[->| ->]]; auto.
  left. simpl.
  pose proof (same_but_screen_inv _ _ Hsame Hi) as Hi1.
  destruct ans as [query|]; simpl.
  - set (e2 := mkEditor _ _ _ _ query _ _ _ _ _ _).
    assert (Hi2 : inv e2).
    { destruct (inv_elim e1 Hi1) as (Hok & Hyr & Hpr & _ & t & Ht & _ & Hxr).
      apply (inv_intro _ t); try done; [simpl; lia|].
      right. simpl. lia. }
    destruct (editor_find_next_inv e2 true Hi2) as (e3 & found & -> & Hi3 & _).
    simpl. destruct found; eexists _, _; (split; [done|]);
      (eapply inv_frame; [exact Hi3|done..]).
  - eexists _, _. split; [done|]. eapply inv_frame; [exact Hi1|done..].
Qed.

Lemma main_dispatch_inv os e c :
  inv e → completes (main_dispatch os e c) (λ '(_, e', _, _), inv e').
Proof.
  intros Hi. unfold main_dispatch, completes.
  case_decide.
  { left. destruct (dirty (doc e) && bool_decide (quit_times_needed e > 0));
      eexists; (split; [done|]); [|done].
    eapply inv_frame; [exact Hi|done..]. }
  case_decide.
  { left. destruct (editor_save_atomic_inv os e Hi) as (os' & e' & saved & -> & Hi' & _).
    simpl. eexists. split; [done|]. simpl.
    destruct saved; (eapply inv_frame; [exact Hi'|done..]). }
  case_decide.
  { destruct (editor_find_cases os e Hi) as [(os' & e' & -> & Hi')|[->| ->]]; auto.
    left. simpl. eexists. split; [done|]. simpl.
    eapply inv_frame; [exact Hi'|done..]. }
  case_decide.
  { left. destruct (editor_find_next_inv e false Hi) as (e' & found & -> & Hi' & _).
    simpl. eexists. split; [done|]. simpl.
    destruct found; (eapply inv_frame; [exact Hi'|done..]). }
  case_decide.
  { left. destruct (editor_move_cursor_vert_inv e c Hi) as (e' & -> & Hi' & _).
    simpl. eexists. split; [done|]. simpl.
    eapply inv_frame; [exact Hi'|done..]. }
  case_decide as Hk.
  { left. destruct (editor_move_cursor_inv e c Hi ltac:(lia)) as (e' & -> & Hi' & _).
    simpl. eexists. split; [done|]. simpl.
    eapply inv_frame; [exact Hi'|done..]. }
  case_decide.
  { left. destruct (editor_insert_newline_spec e Hi) as (e' & -> & Hi' & _).
    simpl. eexists. split; [done|]. simpl.
    eapply inv_frame; [exact Hi'|done..]. }
  case_decide.
  { left. destruct (editor_backspace_spec e Hi) as (t & e' & _ & -> & Hi' & _).
    simpl. eexists. split; [done|]. simpl.
    eapply inv_frame; [exact Hi'|done..]. }
  destruct (isprint c).
  { left. destruct (editor_insert_char_spec e c Hi) as (t & e' & _ & -> & Hi' & _).
    simpl. eexists. split; [done|]. simpl.
    eapply inv_frame; [exact Hi'|done..]. }
  left. eexists. split; [done|]. done.
Qed.

Lemma dimensions_inv os e : inv e → inv (editor_update_dimensions os e).1.2.
Proof. apply same_but_screen_inv, dimensions_same. Qed.

Lemma draw_inv e : inv e → inv (editor_draw_screen e).
Proof. apply same_but_screen_inv, draw_same. Qed.

Lemma main_iter_inv os e :
  inv e → completes (main_iter os e) (λ '(_, e', _), inv e').
Proof.
  intros Hi. unfold main_iter, completes.
  destruct (editor_read_key_cases (stdin os)) as [(c & rest & -> & _)|[->| ->]];
    auto.
  simpl.
  destruct (main_dispatch_inv (set_stdin os rest) e c Hi)
    as [([[[os1 e1] rd] ex] & Hd & Hi1)|[Hd|Hd]]; simpl in Hd; rewrite Hd; auto.
  left. simpl. destruct ex; [by eexists|].
  pose proof (dimensions_inv os1 e1 Hi1) as Hi2.
  destruct (editor_update_dimensions os1 e1) as [[os2 e2] changed]. simpl in Hi2.
  destruct (changed || rd); eexists; (split; [done|]); [|done].
  by apply draw_inv.
Qed.

Lemma main_init_inv os arg os' e : main_init os arg = Ok (os', e) → inv e.
Proof.
  unfold main_init.
  set (e0 := set_doc globals0 _).
  assert (Hstart : ∀ e1, buf_ok (buf (doc e1)) → last_query e1 = [] →
            ∀ e2, same_but_screen
                    (set_view e1 (mkView 0 0 0 0 (screenrows (view e1))
                                         (screencols (view e1)) 0)) e2 →
            inv e2).
  { intros e1 Hok Hq e2 Hs. eapply same_but_screen_inv; [exact Hs|].
    destruct (row_text _ 0 Hok ltac:(destruct Hok; lia)) as (t & Ht & HL).
    apply (inv_intro _ t); simpl; try done.
    - pose proof (Zlen_nonneg t). lia.
    - by left. }
  assert (Hrest : ∀ e1, buf_ok (buf (doc e1)) → last_query e1 = [] →
            (let e := set_view e1 (mkView 0 0 0 0 (screenrows (view e1))
                                          (screencols (view e1)) 0) in
             let '(os, e, _) := editor_update_dimensions os e in
             Ok (os, editor_draw_screen (editor_set_status e MsgHelp)))
            = Ok (os', e) → inv e).
  { intros e1 Hok Hq. cbv zeta.
    set (e2 := set_view e1 _).
    pose proof (dimensions_same os e2) as Hs.
    destruct (editor_update_dimensions os e2) as [[os3 e3] ch]. simpl in Hs.
    intros [= <- <-]. eapply (Hstart e1 Hok Hq).
    eapply same_but_screen_trans; [exact Hs|].
    eapply same_but_screen_trans; [apply status_same|apply draw_same]. }
  destruct arg as [path|]; simpl.
  - unfold editor_open.
    destruct (fs os !! path) as [content|].
    + destruct (load_file_refines content) as (d & -> & Hok & _).
      simpl. apply Hrest; done.
    + simpl. apply Hrest; [apply buf_ok_init|done].
  - apply Hrest; [apply buf_ok_init|done].
Qed.

Lemma reachable_state_inv e : reachable_state e → inv e.
Proof.
  induction 1 as [os arg os' e H|os e os' e' x _ IH H].
  - by eapply main_init_inv.
  - destruct (main_iter_inv os e IH) as [([[os1 e1] x1] & E & Hi)|[E|E]];
      rewrite E in H; [|done..].
    by injection H as <- <- <-.
Qed.
End V3_loop.

(** * The cursor, the dirty flag, the quit counter *)

Lemma completes_and {A} (r : res A) (P Q : A → Prop) :
  completes r P → (∀ a, r = Ok a → Q a) → completes r (λ a, P a ∧ Q a).
Proof.
  intros [(a & Ha & HP)|H] HQ; [left|by right].
  exists a. split; [done|]. split; [done|]. by apply HQ.
Qed.

Lemma completes_impl {A} (r : res A) (P Q : A → Prop) :
  completes r P → (∀ a, P a → Q a) → completes r Q.
Proof.
  intros [(a & Ha & HP)|H] HQ; [left|by right].
  exists a. split; [done|]. by apply HQ.
Qed.

(** The memory shape of a buffer given by its blocks. *)
Ltac sample_buf_ok :=
  split; simpl;
  [ repeat (apply Forall2_cons; split;
            [split; [unfold Zlen; simpl; lia|reflexivity]|]);
    apply Forall2_nil_2
  | reflexivity | lia | lia ].

Lemma sample_fresh3_init :
  V3.main_init sample_os_idle None = Ok (sample_os_idle, sample_fresh3).
Proof. vm_compute. reflexivity. Qed.

(** C3.  In every state the session of version 0.3 reaches, the cursor is
    on a line of the buffer and at a column between 0 and the cached length
    of that line; and a key dispatched from such a state either returns
    with the cursor again in that range, or the process ends in [die] or
    waits for input that never comes.  No key makes the dispatch touch
    memory it does not own. *)
Theorem C3_cursor_invariant (e : V3.Editor) :
  V3.reachable_state e →
  V3.cursor_ok e ∧
  ∀ os c, completes (V3.main_dispatch os e c) (λ '(_, e', _, _), V3.cursor_ok e').
Proof.
  intros Hr. pose proof (reachable_state_inv e Hr) as Hi. split.
  - by destruct Hi.
  - intros os c. eapply completes_impl; [by apply main_dispatch_inv|].
    intros [[[os' e'] rd] ex] Hi'. by destruct Hi'.
Qed.

Lemma C3_cursor_invariant_witness :
  V3.cursor_ok sample_fresh3 ∧
  ∀ os c, completes (V3.main_dispatch os sample_fresh3 c)
            (λ '(_, e', _, _), V3.cursor_ok e').
Proof.
  apply (C3_cursor_invariant sample_fresh3).
  apply (V3.rs_init sample_os_idle None sample_os_idle).
  vm_compute. reflexivity.
Defined.

(** Down on the last line: the text gains an empty line and the flag
    keeps its value. *)
Lemma down_on_last_line e :
  V3.inv e → V3.cy (V3.view e) + 1 = count (buf (V3.doc e)) →
  ∃ e', V3.editor_move_cursor e 1002 = Ok e' ∧
        text (buf (V3.doc e')) = text (buf (V3.doc e)) ++ [[]] ∧
        dirty (V3.doc e') = dirty (V3.doc e).
Proof.
  intros Hi Hy.
  destruct (editor_move_cursor_inv e 1002 Hi ltac:(auto)) as (e' & He & _ & Hd & HT).
  exists e'. split; [done|]. split; [|done].
  destruct HT as [HT|(_ & _ & HT)]; [|done].
  exfalso. revert He. unfold V3.editor_move_cursor. simpl.
  rewrite decide_False by lia.
  destruct (append_empty_refines (V3.doc e) ltac:(by destruct Hi))
    as (d' & -> & Hok' & _ & HT').
  simpl. destruct (slot _ _); simpl; [|done].
  intros [= <-]. simpl in HT. rewrite HT' in HT.
  apply (f_equal length) in HT. rewrite length_app in HT. simpl in HT. lia.
Qed.

(** C4.  Started without a file, version 0.3 holds one empty line and is
    not modified.  The bytes ESC [ B are decoded as Down; the key is
    dispatched to [editor_move_cursor], which appends an empty line through
    [buffer_append_empty], and the document then has two lines while the
    dirty flag is still false. *)
Theorem C4_down_on_last_line_stays_clean :
  V3.main_init sample_os_idle None = Ok (sample_os_idle, sample_fresh3) ∧
  V3.editor_read_key [RByte 27; RByte 91; RByte 66] = Ok (1002, []) ∧
  text (buf (V3.doc sample_fresh3)) = [[]] ∧
  dirty (V3.doc sample_fresh3) = false ∧
  ∃ e', V3.main_dispatch sample_os_idle sample_fresh3 1002
        = Ok (sample_os_idle, e', true, false) ∧
        text (buf (V3.doc e')) = [[]; []] ∧
        count (buf (V3.doc e')) = 2 ∧
        dirty (V3.doc e') = false.
Proof.
  split; [vm_compute; reflexivity|].
  split; [vm_compute; reflexivity|].
  split; [vm_compute; reflexivity|].
  split; [reflexivity|].
  eexists. split; [vm_compute; reflexivity|].
  split; [vm_compute; reflexivity|]. split; reflexivity.
Qed.

Lemma is_action_true c :
  c = CTRL_KEY 115 ∨ c = CTRL_KEY 102 ∨ c = CTRL_KEY 110
  ∨ c = 1005 ∨ c = 1006
  ∨ c = 1001 ∨ c = 1002 ∨ c = 1003 ∨ c = 1004 ∨ c = 72 ∨ c = 69
  ∨ c = 13 ∨ c = 10 ∨ c = 127 →
  is_action c = true.
Proof. intros H. unfold is_action. by rewrite bool_decide_eq_true_2. Qed.

(** What a key other than Ctrl-Q does to the quit counter. *)
Lemma dispatch_counter os e c os' e' rd ex :
  c ≠ CTRL_KEY 113 →
  V3.main_dispatch os e c = Ok (os', e', rd, ex) →
  ex = false ∧
  if is_action c then V3.quit_times_needed e' = 1 else e' = e.
Proof.
  intros Hc. unfold V3.main_dispatch.
  rewrite decide_False by done.
  destruct (decide (c = CTRL_KEY 115)) as [H1|H1].
  { rewrite is_action_true by tauto.
    destruct (V3.editor_save_atomic os e) as [[[os1 e1] sv]|]; simpl; [|done].
    by intros [= <- <- <- <-]. }
  destruct (decide (c = CTRL_KEY 102)) as [H2|H2].
  { rewrite is_action_true by tauto.
    destruct (V3.editor_find os e) as [[os1 e1]|]; simpl; [|done].
    by intros [= <- <- <- <-]. }
  destruct (decide (c = CTRL_KEY 110)) as [H3|H3].
  { rewrite is_action_true by tauto.
    destruct (V3.editor_find_next e false) as [[e1 fd]|]; simpl; [|done].
    by intros [= <- <- <- <-]. }
  destruct (decide (c = 1005 ∨ c = 1006)) as [H4|H4].
  { rewrite is_action_true by tauto.
    destruct (V3.editor_move_cursor_vert e c) as [e1|]; simpl; [|done].
    by intros [= <- <- <- <-]. }
  destruct (decide (c = 1001 ∨ c = 1002 ∨ c = 1003 ∨ c = 1004 ∨ c = 72 ∨ c = 69))
    as [H5|H5].
  { rewrite is_action_true by tauto.
    destruct (V3.editor_move_cursor e c) as [e1|]; simpl; [|done].
    by intros [= <- <- <- <-]. }
  destruct (decide (c = 13 ∨ c = 10)) as [H6|H6].
  { rewrite is_action_true by tauto.
    destruct (V3.editor_insert_newline e) as [e1|]; simpl; [|done].
    by intros [= <- <- <- <-]. }
  destruct (decide (c = 127)) as [H7|H7].
  { rewrite is_action_true by tauto.
    destruct (V3.editor_backspace e) as [e1|]; simpl; [|done].
    by intros [= <- <- <- <-]. }
  unfold is_action. rewrite bool_decide_eq_false_2 by tauto. rewrite orb_false_l.
  destruct (isprint c).
  - destruct (V3.editor_insert_char e c) as [e1|]; simpl; [|done].
    by intros [= <- <- <- <-].
  - by intros [= <- <- <- <-].
Qed.

Lemma main_init_counter os arg os' e :
  V3.main_init os arg = Ok (os', e) → V3.quit_times_needed e = 1.
Proof.
  unfold V3.main_init.
  set (e0 := V3.set_doc V3.globals0 _).
  assert (Hrest : ∀ e1, V3.quit_times_needed e1 = 1 →
            (let e := V3.set_view e1 (V3.mkView 0 0 0 0 (V3.screenrows (V3.view e1))
                                          (V3.screencols (V3.view e1)) 0) in
             let '(os, e, _) := V3.editor_update_dimensions os e in
             Ok (os, V3.editor_draw_screen (V3.editor_set_status e MsgHelp)))
            = Ok (os', e) → V3.quit_times_needed e = 1).
  { intros e1 Hq. cbv zeta.
    set (e2 := V3.set_view e1 _).
    pose proof (dimensions_same os e2) as Hs.
    destruct (V3.editor_update_dimensions os e2) as [[os3 e3] ch]. simpl in Hs.
    intros [= <- <-].
    assert (Hs' : same_but_screen e2
                    (V3.editor_draw_screen (V3.editor_set_status e3 MsgHelp))).
    { eapply same_but_screen_trans; [exact Hs|].
      eapply same_but_screen_trans; [apply status_same|apply draw_same]. }
    destruct Hs' as (_&_&_&_&_&_&_&_&_&_&_&Hq'). etrans; [exact Hq'|exact Hq]. }
  destruct arg as [path|]; simpl.
  - unfold V3.editor_open.
    destruct (fs os !! path) as [content|].
    + destruct (load_file_refines content) as (d & -> & Hok & _).
      simpl. apply Hrest; done.
    + simpl. apply Hrest; done.
  - apply Hrest; done.
Qed.

(** C5 (amended).  In version 0.3 the counter is 1 when the program
    starts and when [main] enters its loop.  Ctrl-Q on a modified buffer
    with a positive counter warns, takes one off the counter and stays in
    the loop; Ctrl-Q on an unmodified buffer, or with the counter at 0 or
    below, leaves the loop with the state as it is.  Any other key stays
    in the loop; if the dispatcher has a branch for it the counter is 1
    afterwards, and if it has none the state is untouched, counter
    included.  From a state of the session such a key does return, or the
    process ends in [die] or waits for input.  Version 0.1 has no counter:
    Ctrl-Q leaves its loop at once, whatever the dirty flag says. *)
Theorem C5_quit_confirmation (os : OS) (e : V3.Editor) (c : Z) :
  V3.quit_times_needed V3.globals0 = 1 ∧
  (∀ os0 arg os1 e1, V3.main_init os0 arg = Ok (os1, e1) → V3.quit_times_needed e1 = 1) ∧
  (dirty (V3.doc e) = true → V3.quit_times_needed e > 0 →
   V3.main_dispatch os e (CTRL_KEY 113)
   = Ok (os, V3.set_quit (V3.editor_set_status e MsgUnsaved) (V3.quit_times_needed e - 1),
         true, false)) ∧
  (dirty (V3.doc e) = false ∨ V3.quit_times_needed e <= 0 →
   V3.main_dispatch os e (CTRL_KEY 113) = Ok (os, e, false, true)) ∧
  (c ≠ CTRL_KEY 113 → V3.inv e →
   completes (V3.main_dispatch os e c)
     (λ '(_, e', _, exit_editor),
        exit_editor = false ∧
        if is_action c then V3.quit_times_needed e' = 1 else e' = e)) ∧
  (∀ os1 (e1 : V1.Editor), V1.main_dispatch os1 e1 (CTRL_KEY 113) = Ok (os1, e1, true)).
Proof.
  split; [reflexivity|].
  split; [apply main_init_counter|].
  split.
  { intros Hd Hq. unfold V3.main_dispatch. rewrite decide_True by done.
    rewrite Hd. by rewrite bool_decide_eq_true_2. }
  split.
  { intros H. unfold V3.main_dispatch. rewrite decide_True by done.
    destruct H as [->|H]; [done|].
    rewrite bool_decide_eq_false_2 by lia. by rewrite andb_false_r. }
  split.
  { intros Hc Hi.
    eapply completes_impl.
    - apply (completes_and _ _ (λ '(_, e', _, ex),
               ex = false ∧ if is_action c then V3.quit_times_needed e' = 1 else e' = e)
               (main_dispatch_inv os e c Hi)).
      intros [[[os' e'] rd] ex] H. by apply (dispatch_counter os e c os' e' rd ex).
    - intros [[[os' e'] rd] ex] [_ H]. exact H. }
  intros os1 e1. reflexivity.
Qed.

Lemma C5_quit_confirmation_witness :
  V3.main_dispatch sample_os_idle sample_editor3 (CTRL_KEY 113)
  = Ok (sample_os_idle,
        V3.set_quit (V3.editor_set_status sample_editor3 MsgUnsaved) 0, true, false)
  ∧ V3.main_dispatch sample_os_idle
      (V3.set_quit (V3.editor_set_status sample_editor3 MsgUnsaved) 0) (CTRL_KEY 113)
    = Ok (sample_os_idle,
          V3.set_quit (V3.editor_set_status sample_editor3 MsgUnsaved) 0, false, true)
  ∧ completes (V3.main_dispatch sample_os_idle
                 (V3.set_quit (V3.editor_set_status sample_editor3 MsgUnsaved) 0) 97)
      (λ '(_, e', _, exit_editor),
         exit_editor = false ∧ V3.quit_times_needed e' = 1).
Proof.
  split; [|split].
  - apply (C5_quit_confirmation sample_os_idle sample_editor3 0); [reflexivity|].
    simpl. lia.
  - apply (C5_quit_confirmation sample_os_idle
             (V3.set_quit (V3.editor_set_status sample_editor3 MsgUnsaved) 0) 0).
    right. simpl. lia.
  - apply (C5_quit_confirmation sample_os_idle
             (V3.set_quit (V3.editor_set_status sample_editor3 MsgUnsaved) 0) 97).
    + vm_compute. discriminate.
    + apply (inv_intro _ [104; 105]); simpl; try done.
      * sample_buf_ok.
      * by left.
Defined.

(** Version 0.1 on Ctrl-Q with a modified buffer: the loop is left. *)
Lemma C5_counterexample :
  ¬ (∀ os (e : V1.Editor) os' e' exit_editor,
       dirty (V1.doc e) = true →
       V1.main_dispatch os e (CTRL_KEY 113) = Ok (os', e', exit_editor) →
       exit_editor = false).
Proof.
  intros H.
  specialize (H sample_os_idle sample_editor1 sample_os_idle sample_editor1 true
                eq_refl eq_refl).
  discriminate.
Qed.

(** * Search without a match, and the Delete key *)

Lemma editor_find_next_returns e fc :
  V3.inv e → ∃ e' found, V3.editor_find_next e fc = Ok (e', found).
Proof.
  intros Hi. destruct (decide (V3.last_query e = [])) as [Hq|Hq].
  - unfold V3.editor_find_next. rewrite decide_True by done. eauto.
  - rewrite (editor_find_next_text e fc Hi Hq).
    destruct (scan_text _ _ _ _) as [[r col]|]; eauto.
Qed.

(** C8 (amended).  [editor_find_next] that finds nothing, after the pass
    from its starting point and the pass from the top, returns false and
    the state it was called in: cursor, highlight and last match are as
    before; from a state of the session it does return.  [editor_find]
    ends with the cursor where it was and with the highlight cleared
    (row, column and length set to -1) both when the prompt is cancelled
    and when the query is not found; the document is not touched. *)
Theorem C8_search_without_match (os : OS) (e : V3.Editor) (from_current : bool) :
  (V3.inv e → ∃ e' found, V3.editor_find_next e from_current = Ok (e', found)) ∧
  (∀ e', V3.editor_find_next e from_current = Ok (e', false) → e' = e) ∧
  (∀ os' e', V3.editor_find os e = Ok (os', e') →
     V3.statusmsg e' = MsgCanceled ∨ V3.statusmsg e' = MsgNotFound (V3.last_query e') →
     V3.cx (V3.view e') = V3.cx (V3.view e) ∧ V3.cy (V3.view e') = V3.cy (V3.view e) ∧
     V3.doc e' = V3.doc e ∧
     V3.hl_row e' = -1 ∧ V3.hl_col e' = -1 ∧ V3.hl_len e' = -1).
Proof.
  split; [apply editor_find_next_returns|]. split.
  - intros e' H. by apply (editor_find_next_result e from_current e' false).
  - intros os' e' H Hst.
    destruct (editor_find_result os e os' e' H) as (Hd & _ & _ & _ & _ & Ho).
    destruct Ho as [(Hx & Hy & H1 & H2 & H3 & _)|(Hf & _)].
    + done.
    + rewrite Hf in Hst. by destruct Hst.
Qed.

Lemma C8_search_without_match_witness :
  (∃ e' found, V3.editor_find_next (V3.set_query sample_found3 [122]) false
               = Ok (e', found)) ∧
  (∃ os' e', V3.editor_find sample_os_query sample_found3 = Ok (os', e') ∧
     V3.statusmsg e' = MsgNotFound [122] ∧
     V3.cx (V3.view e') = 0 ∧ V3.cy (V3.view e') = 0 ∧
     V3.doc e' = V3.doc sample_found3 ∧
     V3.hl_row e' = -1 ∧ V3.hl_col e' = -1 ∧ V3.hl_len e' = -1).
Proof.
  split.
  - apply (C8_search_without_match sample_os_idle (V3.set_query sample_found3 [122]) false).
    apply (inv_intro _ [104; 105]); simpl; try done.
    + sample_buf_ok.
    + right. simpl. lia.
  - eexists _, _. split; [vm_compute; reflexivity|]. split; [reflexivity|].
    eapply (C8_search_without_match sample_os_query sample_found3 true).
    + vm_compute. reflexivity.
    + right. reflexivity.
Defined.

(** With "h" of "hi" highlighted, Ctrl-F, "z", Enter: the query is not
    found, nothing was cancelled, and the highlight is gone. *)
Lemma C8_counterexample :
  ¬ (∀ os e os' e',
       V3.editor_find os e = Ok (os', e') →
       V3.statusmsg e' = MsgNotFound (V3.last_query e') →
       V3.hl_row e' = V3.hl_row e ∧ V3.hl_col e' = V3.hl_col e ∧
       V3.hl_len e' = V3.hl_len e).
Proof.
  intros H.
  destruct (H sample_os_query sample_found3 (set_stdin sample_os_query [])
              (V3.clear_hl (V3.editor_set_status
                 (V3.set_match (V3.set_query sample_found3 [122]) 0 (-1))
                 (MsgNotFound [122])))) as (Hr & _).
  - vm_compute. reflexivity.
  - reflexivity.
  - discriminate Hr.
Qed.

(** ** Delete *)

Lemma v3_read_delete inp : V3.editor_read_key (delete_seq ++ inp) = Ok (127, inp).
Proof. reflexivity. Qed.

Lemma v3_read_backspace inp : V3.editor_read_key (RByte 127 :: inp) = Ok (127, inp).
Proof. reflexivity. Qed.

Lemma v1_read_delete inp : V1.editor_read_key (delete_seq ++ inp) = Ok (127, inp).
Proof. reflexivity. Qed.

Lemma v1_read_backspace inp : V1.editor_read_key (RByte 127 :: inp) = Ok (127, inp).
Proof. reflexivity. Qed.

Lemma v3_backspace_text e :
  V3.inv e →
  ∃ e', V3.editor_backspace e = Ok e' ∧
    text (buf (V3.doc e'))
    = backspace_text (text (buf (V3.doc e))) (V3.cy (V3.view e)) (V3.cx (V3.view e)) ∧
    (V3.cy (V3.view e'), V3.cx (V3.view e'))
    = backspace_cursor (text (buf (V3.doc e))) (V3.cy (V3.view e)) (V3.cx (V3.view e)).
Proof.
  intros Hi.
  destruct (editor_backspace_spec e Hi) as (t & e' & Ht & He & _ & H).
  exists e'. split; [done|]. unfold backspace_text, backspace_cursor.
  destruct (decide (V3.cx (V3.view e) > 0)) as [Hx|Hx].
  - destruct H as (_ & -> & -> & ->). done.
  - destruct (decide (V3.cy (V3.view e) > 0)) as [Hy|Hy].
    + destruct H as (_ & -> & -> & p & -> & ->). done.
    + destruct H as [-> ->]. done.
Qed.

Lemma v1_backspace_text e :
  buf_ok (buf (V1.doc e)) → V1.cursor_ok e →
  ∃ e', V1.backspace_op e = Ok e' ∧
    text (buf (V1.doc e'))
    = backspace_text (text (buf (V1.doc e))) (V1.cy (V1.view e)) (V1.cx (V1.view e)) ∧
    (V1.cy (V1.view e'), V1.cx (V1.view e'))
    = backspace_cursor (text (buf (V1.doc e))) (V1.cy (V1.view e)) (V1.cx (V1.view e)).
Proof.
  intros Hok [Hy (L & HL & Hx)].
  destruct (slot_len_text _ _ _ Hok HL) as (t & Ht & -> & _).
  unfold V1.backspace_op, backspace_text, backspace_cursor. cbv zeta.
  destruct (decide (V1.cx (V1.view e) > 0)) as [Hcx|Hcx].
  - rewrite v1_delete_char, decide_False by lia.
    destruct (delete_char_refines (V1.doc e) (V1.cy (V1.view e)) (V1.cx (V1.view e))
                Hok Hy) as (t' & d' & Ht' & -> & Hok' & HT').
    rewrite Ht in Ht'. injection Ht' as <-.
    rewrite decide_True in HT' by lia. destruct HT' as [_ HT'].
    simpl. eexists. split; [done|]. simpl. by rewrite HT'.
  - destruct (decide (V1.cy (V1.view e) > 0)) as [Hcy|Hcy].
    + destruct (row_text _ (V1.cy (V1.view e) - 1) Hok ltac:(lia)) as (p & Hp & HLp).
      rewrite HLp. simpl.
      destruct (join_refines (V1.doc e) (V1.cy (V1.view e)) Hok ltac:(lia))
        as (d' & -> & _ & _ & HT').
      simpl. eexists. split; [done|]. simpl. by rewrite HT', Hp.
    + eexists. split; [done|]. done.
Qed.

(** C10.  Both decoders turn the bytes ESC [ 3 ~ into the key 127, the
    key they return for the byte 127 that Backspace sends, so a round of
    the main loop that reads Delete is the round that reads Backspace.
    Key 127 is dispatched to the backspace operation (and, in 0.3, the
    quit counter goes back to 1): on a well-formed state the byte before
    the cursor is removed and the cursor steps left, or at column 0 of a
    line that is not the first the line is appended to the one above and
    the cursor goes to the joint; at the origin the text stays.  Nothing
    at or after the cursor is removed. *)
Theorem C10_delete_is_backspace (os : OS) (inp : list rd)
    (e3 : V3.Editor) (e1 : V1.Editor) :
  V3.editor_read_key (delete_seq ++ inp) = Ok (127, inp) ∧
  V3.editor_read_key (RByte 127 :: inp) = Ok (127, inp) ∧
  V1.editor_read_key (delete_seq ++ inp) = Ok (127, inp) ∧
  V1.editor_read_key (RByte 127 :: inp) = Ok (127, inp) ∧
  V3.main_iter (set_stdin os (delete_seq ++ inp)) e3
  = V3.main_iter (set_stdin os (RByte 127 :: inp)) e3 ∧
  V1.main_step (set_stdin os (delete_seq ++ inp)) e1
  = V1.main_step (set_stdin os (RByte 127 :: inp)) e1 ∧
  (V3.inv e3 →
   ∃ e', V3.editor_backspace e3 = Ok e' ∧
     V3.main_dispatch os e3 127 = Ok (os, V3.set_quit e' 1, true, false) ∧
     text (buf (V3.doc e'))
     = backspace_text (text (buf (V3.doc e3))) (V3.cy (V3.view e3)) (V3.cx (V3.view e3)) ∧
     (V3.cy (V3.view e'), V3.cx (V3.view e'))
     = backspace_cursor (text (buf (V3.doc e3)))
         (V3.cy (V3.view e3)) (V3.cx (V3.view e3))) ∧
  (buf_ok (buf (V1.doc e1)) → V1.cursor_ok e1 →
   ∃ e', V1.backspace_op e1 = Ok e' ∧
     V1.main_dispatch os e1 127 = Ok (os, e', false) ∧
     text (buf (V1.doc e'))
     = backspace_text (text (buf (V1.doc e1))) (V1.cy (V1.view e1)) (V1.cx (V1.view e1)) ∧
     (V1.cy (V1.view e'), V1.cx (V1.view e'))
     = backspace_cursor (text (buf (V1.doc e1)))
         (V1.cy (V1.view e1)) (V1.cx (V1.view e1))).
Proof.
  split; [apply v3_read_delete|]. split; [apply v3_read_backspace|].
  split; [apply v1_read_delete|]. split; [apply v1_read_backspace|].
  assert (Hin : ∀ i, stdin (set_stdin os i) = i) by done.
  split.
  { unfold V3.main_iter. rewrite !Hin, v3_read_delete, v3_read_backspace.
    reflexivity. }
  split.
  { unfold V1.main_step. rewrite !Hin, v1_read_delete, v1_read_backspace.
    reflexivity. }
  split.
  - intros Hi. destruct (v3_backspace_text e3 Hi) as (e' & He & HT & Hc).
    exists e'. split; [done|]. split; [|done].
    unfold V3.main_dispatch. simpl. by rewrite He.
  - intros Hok Hc. destruct (v1_backspace_text e1 Hok Hc) as (e' & He & HT & Hc').
    exists e'. split; [done|]. split; [|done].
    unfold V1.main_dispatch. simpl. by rewrite He.
Qed.

Lemma C10_delete_is_backspace_witness :
  (∃ e', V3.editor_backspace sample_two_lines3 = Ok e' ∧
     V3.main_dispatch sample_os_idle sample_two_lines3 127
     = Ok (sample_os_idle, V3.set_quit e' 1, true, false) ∧
     text (buf (V3.doc e')) = [[97; 98; 99; 100]] ∧
     (V3.cy (V3.view e'), V3.cx (V3.view e')) = (0, 2)) ∧
  (∃ e', V1.backspace_op sample_two_lines1 = Ok e' ∧
     V1.main_dispatch sample_os_idle sample_two_lines1 127
     = Ok (sample_os_idle, e', false) ∧
     text (buf (V1.doc e')) = [[97; 98; 99; 100]] ∧
     (V1.cy (V1.view e'), V1.cx (V1.view e')) = (0, 2)).
Proof.
  destruct (C10_delete_is_backspace sample_os_idle [] sample_two_lines3 sample_two_lines1)
    as (_ & _ & _ & _ & _ & _ & H3 & H1).
  split.
  - apply H3. apply (inv_intro _ [99; 100]); simpl; try done.
    + sample_buf_ok.
    + by left.
  - apply H1.
    + sample_buf_ok.
    + split; simpl; [lia|]. exists 2. split; [reflexivity|lia].
Defined.

(** * Search: the order in which matches are visited *)

(** ** Filters and sorted lists *)

Lemma filter_all {A} (P : A → Prop) `{∀ x, Decision (P x)} (l : list A) :
  Forall P l → filter P l = l.
Proof.
  induction 1 as [|x l Hx Hl IH]; [done|].
  by rewrite filter_cons_True, IH.
Qed.

Lemma filter_none {A} (P : A → Prop) `{∀ x, Decision (P x)} (l : list A) :
  Forall (λ x, ¬ P x) l → filter P l = [].
Proof.
  induction 1 as [|x l Hx Hl IH]; [done|].
  by rewrite filter_cons_False.
Qed.

Lemma filter_through_fmap {A B} (f : A → B) (P : B → Prop) (Q : A → Prop)
    `{∀ x, Decision (P x)} `{∀ x, Decision (Q x)} (l : list A) :
  (∀ x, P (f x) ↔ Q x) → filter P (f <$> l) = f <$> filter Q l.
Proof.
  intros HPQ. induction l as [|x l IH]; [done|].
  rewrite fmap_cons, !filter_cons.
  destruct (decide (P (f x))) as [HP|HP], (decide (Q x)) as [HQ|HQ].
  - by rewrite fmap_cons, IH.
  - by apply HPQ in HP.
  - by apply HPQ in HQ.
  - done.
Qed.

Lemma sorted_filter {A} (R : relation A) (P : A → Prop) `{∀ x, Decision (P x)}
    (l : list A) :
  StronglySorted R l → StronglySorted R (filter P l).
Proof.
  induction 1 as [|x l Hl IH Hx]; [constructor|].
  rewrite filter_cons. destruct (decide (P x)); [|done].
  constructor; [done|].
  apply Forall_forall. intros y [_ Hy]%list_elem_of_filter.
  rewrite Forall_forall in Hx. by apply Hx.
Qed.

Lemma sorted_seq k n : StronglySorted lt (seq k n).
Proof.
  revert k. induction n as [|n IH]; intros k; simpl; constructor; [apply IH|].
  apply Forall_forall. intros y Hy%elem_of_seq. lia.
Qed.

Lemma head_app_cases {A} (l1 l2 : list A) :
  head (l1 ++ l2) = match head l1 with Some x => Some x | None => head l2 end.
Proof. by destruct l1. Qed.

Lemma head_through_fmap {A B} (f : A → B) (l : list A) :
  head (f <$> l) = f <$> head l.
Proof. by destruct l. Qed.

(** ** [strstr] finds the first occurrence *)

Lemma strstr_val_first t q k :
  q ≠ [] → (k ≤ length t)%nat →
  (λ i, Z.of_nat k + i) <$> strstr_val (drop k t) q
  = Z.of_nat <$> head (filter (λ c, occurs_at t q c = true) (seq k (length t - k))).
Proof.
  intros Hq. remember (length t - k)%nat as n eqn:Hn.
  revert k Hn. induction n as [|n IH]; intros k Hn Hk.
  - rewrite drop_ge by lia. simpl. by destruct q.
  - destruct (lookup_lt_is_Some_2 t k ltac:(lia)) as [y Hy].
    assert (Hocc : occurs_at t q k = starts_with q (y :: drop (S k) t)).
    { unfold occurs_at. by rewrite (drop_S _ _ _ Hy). }
    rewrite (drop_S _ _ _ Hy). simpl seq. rewrite filter_cons.
    cbn [strstr_val].
    destruct (starts_with q (y :: drop (S k) t)) eqn:E.
    + rewrite decide_True by done. simpl. f_equal. lia.
    + rewrite decide_False by (by rewrite Hocc).
      rewrite <- (IH (S k)) by lia.
      destruct (strstr_val (drop (S k) t) q); simpl; [|done]. f_equal. lia.
Qed.

(** The occurrences of a row at or after column [c]. *)
Lemma row_occurrences_from t q c :
  0 ≤ c →
  filter (λ c', c ≤ Z.of_nat c') (row_occurrences t q)
  = filter (λ c', occurs_at t q c' = true)
      (seq (Z.to_nat (if decide (c < Zlen t) then c else Zlen t))
           (length t - Z.to_nat (if decide (c < Zlen t) then c else Zlen t))).
Proof.
  intros Hc. unfold row_occurrences.
  set (k := Z.to_nat (if decide (c < Zlen t) then c else Zlen t)).
  assert (Hk : (k ≤ length t)%nat).
  { unfold k, Zlen. case_decide; lia. }
  replace (length t) with (k + (length t - k))%nat at 1 by lia.
  rewrite seq_app, !filter_app. simpl.
  rewrite (filter_none _ (filter _ (seq 0 k))).
  - simpl. apply filter_all.
    apply Forall_forall. intros y [_ Hy%elem_of_seq]%list_elem_of_filter.
    unfold k, Zlen in *. case_decide; lia.
  - apply Forall_forall. intros y [_ Hy%elem_of_seq]%list_elem_of_filter.
    unfold k, Zlen in *. case_decide; lia.
Qed.

(** ** The list of occurrences *)

Lemma occurrences_from_range rows q r :
  Forall (λ p, r ≤ p.1 < r + Zlen rows ∧ 0 ≤ p.2) (occurrences_from rows q r).
Proof.
  revert r. induction rows as [|t rest IH]; intros r; simpl; [constructor|].
  pose proof (Zlen_nonneg rest).
  apply Forall_app. split.
  - apply Forall_fmap, Forall_forall. intros c _. simpl. rewrite Zlen_cons. lia.
  - eapply Forall_impl; [apply IH|]. intros p. simpl. rewrite Zlen_cons. lia.
Qed.

Lemma occurrences_from_app A B q r :
  occurrences_from (A ++ B) q r
  = occurrences_from A q r ++ occurrences_from B q (r + Zlen A).
Proof.
  revert r. induction A as [|t A IH]; intros r; simpl.
  - rewrite Zlen_nil. by rewrite Z.add_0_r.
  - rewrite IH, Zlen_cons, <- app_assoc. do 3 f_equal. lia.
Qed.

Lemma occurrences_from_sorted rows q r :
  StronglySorted pos_lt (occurrences_from rows q r).
Proof.
  revert r. induction rows as [|t rest IH]; intros r; simpl; [constructor|].
  apply StronglySorted_app_2.
  - intros p1 p2 (c & -> & _)%list_elem_of_fmap Hp2.
    pose proof (occurrences_from_range rest q (r + 1)) as Hr.
    rewrite Forall_forall in Hr. apply Hr in Hp2. left. simpl. lia.
  - apply (StronglySorted_fmap _ lt).
    + intros x y Hxy. right. simpl. lia.
    + apply sorted_filter, sorted_seq.
  - apply IH.
Qed.

(** One round of the search returns the first occurrence at or after
    the starting point. *)
Lemma scan_rows_first rows q r c :
  nulfree rows → q ≠ [] → 0 ≤ c →
  scan_rows rows q r c = head (filter (pos_le (r, c)) (occurrences_from rows q r)).
Proof.
  intros Hnul Hq. revert r c.
  induction Hnul as [|t rest Ht Hrest IH]; intros r c Hc; [done|].
  assert (Hnext : scan_rows rest q (r + 1) 0
                  = head (filter (pos_le (r, c)) (occurrences_from rest q (r + 1)))).
  { rewrite IH by lia. f_equal.
    rewrite !filter_all; [done|..];
      (eapply Forall_impl; [apply occurrences_from_range|]);
      intros [pr pc] Hp; unfold pos_le; simpl in *; lia. }
  cbn [scan_rows occurrences_from]. rewrite filter_app, head_app_cases.
  rewrite (filter_through_fmap _ _ (λ c', c ≤ Z.of_nat c')).
  2:{ intros x. unfold pos_le. simpl. lia. }
  rewrite row_occurrences_from by done.
  case_decide as Hz.
  - destruct t; [|rewrite Zlen_cons in Hz; pose proof (Zlen_nonneg t); lia].
    simpl. exact Hnext.
  - set (k := if decide (c < Zlen t) then c else Zlen t).
    assert (Hk : 0 ≤ k ≤ Zlen t).
    { unfold k. pose proof (Zlen_nonneg t). case_decide; lia. }
    rewrite (visible_nulfree _ _ Ht).
    pose proof (strstr_val_first t q (Z.to_nat k) Hq ltac:(unfold Zlen in *; lia)) as Hs.
    destruct (strstr_val (drop (Z.to_nat k) t) q) as [i|]; simpl in Hs.
    + destruct (head (filter _ (seq (Z.to_nat k) _))) as [c'|] eqn:Eh; [|done].
      injection Hs as Hs. rewrite head_through_fmap, Eh. simpl. do 2 f_equal. lia.
    + destruct (head (filter _ (seq (Z.to_nat k) _))) as [c'|] eqn:Eh; [done|].
      rewrite head_through_fmap, Eh. simpl. exact Hnext.
Qed.

(** Both rounds: the first occurrence at or after the starting point, or
    else the first of all. *)
Lemma scan_text_first T q r c :
  nulfree T → q ≠ [] → 0 ≤ r → 0 ≤ c →
  scan_text T q r c
  = match head (filter (pos_le (r, c)) (occurrences T q)) with
    | Some p => Some p
    | None => head (occurrences T q)
    end.
Proof.
  intros Hnul Hq Hr Hc. unfold scan_text.
  rewrite (scan_rows_first (drop _ T)) by (done || by apply Forall_drop).
  rewrite (scan_rows_first T) by done.
  assert (Hall : filter (pos_le (0, 0)) (occurrences_from T q 0) = occurrences T q).
  { apply filter_all. eapply Forall_impl; [apply occurrences_from_range|].
    intros [pr pc] Hp. unfold pos_le. simpl in *. lia. }
  rewrite Hall.
  assert (Hsame : filter (pos_le (r, c)) (occurrences_from (drop (Z.to_nat r) T) q r)
                  = filter (pos_le (r, c)) (occurrences T q)).
  { destruct (decide (Z.to_nat r ≤ length T)%nat) as [Hn|Hn].
    - unfold occurrences.
      rewrite <- (take_drop (Z.to_nat r) T) at 2.
      rewrite occurrences_from_app, filter_app.
      rewrite (filter_none _ (occurrences_from (take _ T) q 0)).
      + simpl. do 2 f_equal. unfold Zlen. rewrite length_take. lia.
      + eapply Forall_impl; [apply occurrences_from_range|].
        intros [pr pc] Hp. unfold pos_le, Zlen in *. rewrite length_take in Hp.
        simpl in *. lia.
    - rewrite drop_ge by lia. simpl. symmetry. apply filter_none.
      eapply Forall_impl; [apply occurrences_from_range|].
      intros [pr pc] Hp. unfold pos_le, Zlen in *. simpl in *. lia. }
  rewrite Hsame.
  by destruct (head (filter (pos_le (r, c)) (occurrences T q))).
Qed.

(** In a sorted list, what lies at or after the column behind an entry is
    what follows the entry. *)
Lemma after_match pre (p : Z * Z) rest :
  StronglySorted pos_lt (pre ++ p :: rest) →
  filter (pos_le (p.1, p.2 + 1)) (pre ++ p :: rest) = rest.
Proof.
  intros Hs. rewrite filter_app, filter_cons.
  rewrite (filter_none _ pre).
  - rewrite decide_False by (unfold pos_le; simpl; lia). simpl.
    apply filter_all.
    apply StronglySorted_app_1_r, StronglySorted_inv in Hs as [_ Hs].
    eapply Forall_impl; [exact Hs|].
    intros [xr xc]. unfold pos_lt, pos_le. simpl. lia.
  - apply Forall_forall. intros [xr xc] Hx.
    pose proof (StronglySorted_app_1_elem_of _ _ _ (xr, xc) p Hs Hx ltac:(by left)) as H.
    revert H. unfold pos_lt, pos_le. simpl. lia.
Qed.

Lemma from_before (s p1 : Z * Z) rest :
  StronglySorted pos_lt (p1 :: rest) → pos_le s p1 →
  filter (pos_le s) (p1 :: rest) = p1 :: rest.
Proof.
  intros [_ Hs]%StronglySorted_inv Hle. apply filter_all.
  constructor; [done|].
  eapply Forall_impl; [exact Hs|].
  intros [xr xc]. revert Hle. unfold pos_lt, pos_le. simpl. lia.
Qed.

Section V3_search_order.
Import V3.

Variable T : list (list Z).
Variable q : list Z.
Hypothesis T_nulfree : nulfree T.
Hypothesis q_nonempty : q ≠ [].

Lemma editor_find_next_first e fc :
  inv e → text (buf (doc e)) = T → last_query e = q →
  editor_find_next e fc
  = Ok (match (match head (filter (pos_le (find_start e fc)) (occurrences T q)) with
               | Some p => Some p
               | None => head (occurrences T q)
               end) with
        | Some (r, col) => (found_at e r col, true)
        | None => (e, false)
        end).
Proof.
  intros Hi HT Hq.
  rewrite (editor_find_next_text e fc Hi) by (by rewrite Hq).
  destruct (find_start_nonneg e fc Hi ltac:(by rewrite Hq)) as [Hr Hc].
  rewrite HT, Hq.
  rewrite scan_text_first by done.
  by destruct (find_start e fc).
Qed.

Lemma found_at_inv e fc r col :
  inv e → editor_find_next e fc = Ok (found_at e r col, true) → inv (found_at e r col).
Proof.
  intros Hi He.
  destruct (editor_find_next_inv e fc Hi) as (e' & fd & He' & Hi' & _).
  rewrite He in He'. by injection He' as <- <-.
Qed.

Lemma find_next_run_S m fc e :
  find_next_run (S m) fc e
  = '(e', found) ← editor_find_next e fc;
    rest ← find_next_run m false e';
    Ok ((found, (cy (view e'), cx (view e'))) :: rest).
Proof. reflexivity. Qed.

Lemma find_next_run_from p1 tl rest :
  occurrences T q = p1 :: tl →
  ∀ pre p e,
    inv e → text (buf (doc e)) = T → last_query e = q →
    p1 :: tl = pre ++ p :: rest →
    find_start e false = (p.1, p.2 + 1) →
    find_next_run (S (length rest)) false e
    = Ok ((λ x, (true, x)) <$> (rest ++ [p1])).
Proof.
  intros Hocc.
  pose proof (occurrences_from_sorted T q 0) as Hsorted.
  fold (occurrences T q) in Hsorted. rewrite Hocc in Hsorted.
  induction rest as [|p' rest' IH]; intros pre p e Hi HT Hq Hsplit Hstart.
  - cbn [length find_next_run].
    pose proof (editor_find_next_first e false Hi HT Hq) as He.
    rewrite Hstart, Hocc, Hsplit, after_match in He by (by rewrite <- Hsplit).
    rewrite <- Hsplit in He. simpl in He. destruct p1 as [r1 c1].
    rewrite He. reflexivity.
  - cbn [length]. rewrite find_next_run_S.
    pose proof (editor_find_next_first e false Hi HT Hq) as He.
    rewrite Hstart, Hocc, Hsplit, after_match in He by (by rewrite <- Hsplit).
    simpl in He. destruct p' as [r' c'].
    pose proof (found_at_inv e false r' c' Hi He) as Hi'.
    rewrite He. cbn [mbind res_bind].
    rewrite (IH (pre ++ [p]) (r', c') (found_at e r' c')); try done.
    by rewrite <- app_assoc.
Qed.
End V3_search_order.

(** C6 (amended).  Let no line of the document hold a NUL byte, let the
    query be non-empty and occur at the positions [p1 :: rest], listed
    rows from the top and columns from the left, and let the search start
    at or before [p1] (from the cursor when [from_current] is true, behind
    the last match otherwise).  Then the list is strictly increasing in
    document order, and [length rest + 2] calls of [editor_find_next] in a
    row, the first with [from_current] and the others without, all find a
    match and leave the cursor on [p1], then on each position of [rest] in
    turn, then on [p1] again. *)
Theorem C6_search_wraparound (e : V3.Editor) (from_current : bool)
    (p1 : Z * Z) (rest : list (Z * Z)) :
  V3.inv e →
  nulfree (text (buf (V3.doc e))) →
  V3.last_query e ≠ [] →
  occurrences (text (buf (V3.doc e))) (V3.last_query e) = p1 :: rest →
  pos_le (V3.find_start e from_current) p1 →
  StronglySorted pos_lt (p1 :: rest) ∧
  V3.find_next_run (S (S (length rest))) from_current e
  = Ok ((λ p, (true, p)) <$> (p1 :: rest ++ [p1])).
Proof.
  intros Hi Hnul Hq Hocc Hstart.
  pose proof (occurrences_from_sorted (text (buf (V3.doc e))) (V3.last_query e) 0)
    as Hsorted.
  fold (occurrences (text (buf (V3.doc e))) (V3.last_query e)) in Hsorted.
  rewrite Hocc in Hsorted. split; [done|].
  rewrite find_next_run_S.
  pose proof (editor_find_next_first _ _ Hnul Hq e from_current Hi eq_refl eq_refl) as He.
  rewrite Hocc, from_before in He by done.
  simpl in He. destruct p1 as [r1 c1].
  pose proof (found_at_inv e from_current r1 c1 Hi He) as Hi'.
  rewrite He. cbn [mbind res_bind].
  rewrite (find_next_run_from _ _ Hnul Hq (r1, c1) rest rest Hocc [] (r1, c1)
             (V3.found_at e r1 c1)); done.
Qed.

Lemma C6_search_wraparound_witness :
  StronglySorted pos_lt [(0, 0); (0, 2); (2, 1)] ∧
  V3.find_next_run 4 true sample_search3
  = Ok [(true, (0, 0)); (true, (0, 2)); (true, (2, 1)); (true, (0, 0))].
Proof.
  apply (C6_search_wraparound sample_search3 true (0, 0) [(0, 2); (2, 1)]).
  - apply (inv_intro _ [97; 98; 97; 98]); simpl; try done.
    + sample_buf_ok.
    + right. simpl. lia.
  - vm_compute. repeat first [apply Forall_nil_2 | apply Forall_cons_2 | done].
  - discriminate.
  - vm_compute. reflexivity.
  - right. simpl. lia.
Defined.

(** A line with a NUL byte in it: "ab" occurs at (0, 3) and at (1, 0),
    the search starts at (0, 0), and all three calls end on (1, 0).  The
    occurrence behind the NUL is never visited. *)
Lemma C6_counterexample :
  ¬ (∀ (e : V3.Editor) (from_current : bool) (p1 : Z * Z) (rest : list (Z * Z)),
       V3.inv e →
       V3.last_query e ≠ [] →
       occurrences (text (buf (V3.doc e))) (V3.last_query e) = p1 :: rest →
       pos_le (V3.find_start e from_current) p1 →
       V3.find_next_run (S (S (length rest))) from_current e
       = Ok ((λ p, (true, p)) <$> (p1 :: rest ++ [p1]))).
Proof.
  intros H.
  specialize (H sample_nul3 true (0, 3) [(1, 0)]).
  assert (Hrun : V3.find_next_run 3 true sample_nul3
                 = Ok [(true, (1, 0)); (true, (1, 0)); (true, (1, 0))])
    by (vm_compute; reflexivity).
  simpl length in H. rewrite Hrun in H.
  assert (Hi : V3.inv sample_nul3).
  { apply (inv_intro _ [120; 120; 0; 97; 98]); simpl; try done.
    - sample_buf_ok.
    - right. simpl. lia. }
  specialize (H Hi ltac:(discriminate) ltac:(vm_compute; reflexivity)
                ltac:(by right; simpl; lia)).
  discriminate H.
Qed.

(** * The line operations, one by one *)

Lemma count_of_text b b' :
  buf_ok b → buf_ok b' → length (text b') = length (text b) → count b' = count b.
Proof.
  intros Hok Hok' Hl.
  rewrite <- (text_length b Hok), <- (text_length b' Hok'). unfold Zlen. lia.
Qed.

(** X1.  [buffer_insert_char] on a line of a well-formed buffer, in both
    versions: the column is first clamped into the line, the byte goes in
    at that column, the bytes from there on move one to the right.  No
    other line changes, the number of lines stays, the buffer stays
    well-formed and [dirty] is set. *)
Theorem insert_char_at_clamped_column d row col c :
  buf_ok (buf d) → 0 ≤ row < count (buf d) →
  ∃ t d',
    text (buf d) !! Z.to_nat row = Some t ∧
    V3buf.buffer_insert_char d row col c = Ok d' ∧
    V1buf.buffer_insert_char d row col c = Ok d' ∧
    buf_ok (buf d') ∧ dirty d' = true ∧ count (buf d') = count (buf d) ∧
    text (buf d')
    = <[Z.to_nat row := take (Z.to_nat (clamp_col col (Zlen t))) t
                          ++ c :: drop (Z.to_nat (clamp_col col (Zlen t))) t]>
        (text (buf d)).
Proof.
  intros Hok Hr.
  destruct (insert_char_refines d row col c Hok Hr) as (t & d' & Ht & He & Hok' & Hd & HT).
  exists t, d'. split; [done|]. split; [done|]. split.
  { rewrite v1_insert_char, decide_False by lia. done. }
  split; [done|]. split; [done|].
  assert (HT' : text (buf d')
                = <[Z.to_nat row := take (Z.to_nat (clamp_col col (Zlen t))) t
                          ++ c :: drop (Z.to_nat (clamp_col col (Zlen t))) t]>
                    (text (buf d))).
  { rewrite HT. unfold Spec.insertChar.
    apply list_eq. intros i. destruct (decide (i = Z.to_nat row)) as [->|Hi].
    - rewrite list_lookup_alter_eq, Ht, list_lookup_insert_eq; [done|].
      by apply lookup_lt_Some in Ht.
    - by rewrite list_lookup_alter_ne, list_lookup_insert_ne. }
  split; [|done].
  apply count_of_text; [done..|]. by rewrite HT', length_insert.
Qed.

Lemma insert_char_at_clamped_column_witness :
  ∃ t d',
    text (buf c7_sample) !! Z.to_nat 1 = Some t ∧
    V3buf.buffer_insert_char c7_sample 1 9 120 = Ok d' ∧
    V1buf.buffer_insert_char c7_sample 1 9 120 = Ok d' ∧
    buf_ok (buf d') ∧ dirty d' = true ∧ count (buf d') = count (buf c7_sample) ∧
    text (buf d')
    = <[Z.to_nat 1 := take (Z.to_nat (clamp_col 9 (Zlen t))) t
                        ++ 120 :: drop (Z.to_nat (clamp_col 9 (Zlen t))) t]>
        (text (buf c7_sample)).
Proof.
  apply (insert_char_at_clamped_column c7_sample 1 9 120).
  - exact c7_sample_ok.
  - simpl. lia.
Defined.

(** X2.  [buffer_delete_char] on a line of a well-formed buffer, in both
    versions.  For a column from 1 to the length of the line the byte
    before the column is removed, the line gets one shorter and [dirty]
    is set.  For any other column (0, negative, or behind the end)
    nothing at all changes, [dirty] included. *)
Theorem delete_char_before_column d row col :
  buf_ok (buf d) → 0 ≤ row < count (buf d) →
  ∃ t d',
    text (buf d) !! Z.to_nat row = Some t ∧
    V3buf.buffer_delete_char d row col = Ok d' ∧
    V1buf.buffer_delete_char d row col = Ok d' ∧
    buf_ok (buf d') ∧ count (buf d') = count (buf d) ∧
    if decide (0 < col ≤ Zlen t) then
      dirty d' = true ∧
      text (buf d')
      = <[Z.to_nat row := take (Z.to_nat col - 1) t ++ drop (Z.to_nat col) t]>
          (text (buf d))
    else d' = d.
Proof.
  intros Hok Hr.
  destruct (delete_char_refines d row col Hok Hr) as (t & d' & Ht & He & Hok' & HT).
  exists t, d'. split; [done|]. split; [done|]. split.
  { rewrite v1_delete_char, decide_False by lia. done. }
  split; [done|].
  destruct (decide (0 < col ≤ Zlen t)) as [Hc|Hc]; [|by subst].
  destruct HT as [Hd HT].
  assert (HT' : text (buf d')
                = <[Z.to_nat row := take (Z.to_nat col - 1) t ++ drop (Z.to_nat col) t]>
                    (text (buf d))).
  { rewrite HT. unfold Spec.deleteChar.
    apply list_eq. intros i. destruct (decide (i = Z.to_nat row)) as [->|Hi].
    - rewrite list_lookup_alter_eq, Ht, list_lookup_insert_eq; [done|].
      by apply lookup_lt_Some in Ht.
    - by rewrite list_lookup_alter_ne, list_lookup_insert_ne. }
  split; [|done].
  apply count_of_text; [done..|]. by rewrite HT', length_insert.
Qed.

Lemma delete_char_before_column_witness :
  ∃ t d',
    text (buf c7_sample) !! Z.to_nat 1 = Some t ∧
    V3buf.buffer_delete_char c7_sample 1 3 = Ok d' ∧
    V1buf.buffer_delete_char c7_sample 1 3 = Ok d' ∧
    buf_ok (buf d') ∧ count (buf d') = count (buf c7_sample) ∧
    if decide (0 < 3 ≤ Zlen t) then
      dirty d' = true ∧
      text (buf d')
      = <[Z.to_nat 1 := take (Z.to_nat 3 - 1) t ++ drop (Z.to_nat 3) t]>
          (text (buf c7_sample))
    else d' = c7_sample.
Proof.
  apply (delete_char_before_column c7_sample 1 3).
  - exact c7_sample_ok.
  - simpl. lia.
Defined.

Lemma insert_then_delete_text (t : list Z) (k : nat) c :
  (k ≤ length t)%nat →
  take (S k - 1) (take k t ++ c :: drop k t) ++ drop (S k) (take k t ++ c :: drop k t) = t.
Proof.
  intros Hk.
  replace (S k - 1)%nat with k by lia.
  rewrite take_app_le, take_take by (rewrite length_take; lia).
  replace (k `min` k)%nat with k by lia.
  rewrite (drop_app_ge _ _ (S k)) by (rewrite length_take; lia).
  rewrite length_take. replace (S k - k `min` length t)%nat with 1%nat by lia.
  simpl. rewrite drop_0. apply take_drop.
Qed.

(** X3.  Inserting a byte and deleting at the column behind it is a round
    trip: in both versions, on any line of a well-formed buffer and for
    any requested column, [buffer_insert_char] followed by
    [buffer_delete_char] at the clamped column plus one gives back the
    text, line for line, and the cached lengths. *)
Theorem insert_then_delete_char d row col c :
  buf_ok (buf d) → 0 ≤ row < count (buf d) →
  ∃ t d1 d2,
    text (buf d) !! Z.to_nat row = Some t ∧
    V3buf.buffer_insert_char d row col c = Ok d1 ∧
    V3buf.buffer_delete_char d1 row (clamp_col col (Zlen t) + 1) = Ok d2 ∧
    V1buf.buffer_insert_char d row col c = Ok d1 ∧
    V1buf.buffer_delete_char d1 row (clamp_col col (Zlen t) + 1) = Ok d2 ∧
    text (buf d2) = text (buf d) ∧ len (buf d2) = len (buf d) ∧
    count (buf d2) = count (buf d).
Proof.
  intros Hok Hr.
  destruct (insert_char_refines d row col c Hok Hr)
    as (t & d1 & Ht & He1 & Hok1 & Hd1 & HT1).
  assert (Hc1 : count (buf d1) = count (buf d)).
  { apply count_of_text; [done..|]. rewrite HT1. unfold Spec.insertChar.
    by rewrite length_alter. }
  pose proof (clamp_col_range col (Zlen t) (Zlen_nonneg t)) as Hk.
  set (k := clamp_col col (Zlen t)) in *.
  destruct (delete_char_refines d1 row (k + 1) Hok1 ltac:(lia))
    as (t1 & d2 & Ht1 & He2 & Hok2 & HT2).
  assert (Et1 : t1 = take (Z.to_nat k) t ++ c :: drop (Z.to_nat k) t).
  { rewrite HT1 in Ht1. rewrite (insertChar_lookup _ _ _ _ t Ht) in Ht1.
    by injection Ht1 as <-. }
  assert (Hlen1 : Zlen t1 = Zlen t + 1).
  { rewrite Et1. unfold Zlen. rewrite length_app, length_take. simpl.
    rewrite length_drop. unfold Zlen in Hk. lia. }
  rewrite decide_True in HT2 by lia. destruct HT2 as [_ HT2].
  assert (HT : text (buf d2) = text (buf d)).
  { rewrite HT2, HT1. unfold Spec.deleteChar, Spec.insertChar.
    apply list_eq. intros i. destruct (decide (i = Z.to_nat row)) as [->|Hi].
    - rewrite !list_lookup_alter_eq, Ht. simpl. f_equal.
      replace (Z.to_nat (k + 1)) with (S (Z.to_nat k)) by lia.
      apply insert_then_delete_text. unfold Zlen in Hk. lia.
    - by rewrite !list_lookup_alter_ne. }
  exists t, d1, d2. split; [done|]. split; [done|]. split; [done|].
  split. { rewrite v1_insert_char, decide_False by lia. done. }
  split. { rewrite v1_delete_char, decide_False by lia. done. }
  split; [done|]. split.
  - by rewrite (len_text _ Hok2), (len_text _ Hok), HT.
  - apply count_of_text; [done..|]. by rewrite HT.
Qed.

Lemma insert_then_delete_char_witness :
  ∃ t d1 d2,
    text (buf c7_sample) !! Z.to_nat 0 = Some t ∧
    V3buf.buffer_insert_char c7_sample 0 1 120 = Ok d1 ∧
    V3buf.buffer_delete_char d1 0 (clamp_col 1 (Zlen t) + 1) = Ok d2 ∧
    V1buf.buffer_insert_char c7_sample 0 1 120 = Ok d1 ∧
    V1buf.buffer_delete_char d1 0 (clamp_col 1 (Zlen t) + 1) = Ok d2 ∧
    text (buf d2) = text (buf c7_sample) ∧ len (buf d2) = len (buf c7_sample) ∧
    count (buf d2) = count (buf c7_sample).
Proof.
  apply (insert_then_delete_char c7_sample 0 1 120).
  - exact c7_sample_ok.
  - simpl. lia.
Defined.

(** X4.  [buffer_insert_line] on a well-formed buffer.  For a position
    from 0 to the number of lines, a new line holding the first [n] bytes
    of the source is put at that position, the lines from there on move
    down by one, and [dirty] is left alone.  For any other position the
    call returns without touching anything. *)
Theorem insert_line_at_position d at_ src n :
  buf_ok (buf d) → 0 ≤ n ≤ Zlen src →
  ∃ d',
    buffer_insert_line d at_ src n = Ok d' ∧
    if decide (0 ≤ at_ ≤ count (buf d)) then
      buf_ok (buf d') ∧ dirty d' = dirty d ∧ count (buf d') = count (buf d) + 1 ∧
      text (buf d')
      = take (Z.to_nat at_) (text (buf d)) ++ take (Z.to_nat n) src
          :: drop (Z.to_nat at_) (text (buf d))
    else d' = d.
Proof.
  intros Hok Hn. destruct (decide (0 ≤ at_ ≤ count (buf d))) as [Ha|Ha].
  - destruct (insert_line_refines d at_ src n Hok Ha Hn) as (d' & He & Hok' & Hd & HT).
    exists d'. split; [done|]. split; [done|]. split; [done|]. split; [|done].
    rewrite <- (text_length _ Hok'), <- (text_length _ Hok), HT.
    unfold Spec.insertLine, Zlen. rewrite length_app. simpl.
    rewrite length_take, length_drop. lia.
  - exists d. split; [|done]. apply insert_line_out_of_range. lia.
Qed.

Lemma insert_line_at_position_witness :
  ∃ d',
    buffer_insert_line c7_sample 1 [120; 121; 122] 2 = Ok d' ∧
    if decide (0 ≤ 1 ≤ count (buf c7_sample)) then
      buf_ok (buf d') ∧ dirty d' = dirty c7_sample ∧
      count (buf d') = count (buf c7_sample) + 1 ∧
      text (buf d')
      = take (Z.to_nat 1) (text (buf c7_sample)) ++ take (Z.to_nat 2) [120; 121; 122]
          :: drop (Z.to_nat 1) (text (buf c7_sample))
    else d' = c7_sample.
Proof.
  apply (insert_line_at_position c7_sample 1 [120; 121; 122] 2).
  - exact c7_sample_ok.
  - unfold Zlen. simpl. lia.
Defined.

(** X5.  [buffer_split_line] on a line of a well-formed buffer, in both
    versions: the column is clamped into the line, the line keeps the
    bytes before it, a new line right below takes the bytes from it on,
    and the lines further down move by one.  [dirty] is set. *)
Theorem split_line_at_clamped_column d row col :
  buf_ok (buf d) → 0 ≤ row < count (buf d) →
  ∃ t d',
    text (buf d) !! Z.to_nat row = Some t ∧
    V3buf.buffer_split_line d row col = Ok d' ∧
    V1buf.buffer_split_line d row col = Ok d' ∧
    buf_ok (buf d') ∧ dirty d' = true ∧ count (buf d') = count (buf d) + 1 ∧
    text (buf d')
    = take (Z.to_nat row) (text (buf d))
        ++ take (Z.to_nat (clamp_col col (Zlen t))) t
        :: drop (Z.to_nat (clamp_col col (Zlen t))) t
        :: drop (S (Z.to_nat row)) (text (buf d)).
Proof.
  intros Hok Hr.
  destruct (split_line_refines d row col Hok Hr) as (t & d' & Ht & He & Hok' & Hd & HT).
  exists t, d'. split; [done|]. split; [done|]. split.
  { rewrite v1_split_line, decide_False by lia. done. }
  split; [done|]. split; [done|].
  unfold Spec.splitLine in HT. rewrite Ht in HT. split; [|done].
  rewrite <- (text_length _ Hok'), <- (text_length _ Hok), HT.
  apply lookup_lt_Some in Ht.
  unfold Zlen. rewrite length_app. simpl. rewrite length_take, length_drop. lia.
Qed.

Lemma split_line_at_clamped_column_witness :
  ∃ t d',
    text (buf c7_sample) !! Z.to_nat 1 = Some t ∧
    V3buf.buffer_split_line c7_sample 1 2 = Ok d' ∧
    V1buf.buffer_split_line c7_sample 1 2 = Ok d' ∧
    buf_ok (buf d') ∧ dirty d' = true ∧ count (buf d') = count (buf c7_sample) + 1 ∧
    text (buf d')
    = take (Z.to_nat 1) (text (buf c7_sample))
        ++ take (Z.to_nat (clamp_col 2 (Zlen t))) t
        :: drop (Z.to_nat (clamp_col 2 (Zlen t))) t
        :: drop (S (Z.to_nat 1)) (text (buf c7_sample)).
Proof.
  apply (split_line_at_clamped_column c7_sample 1 2).
  - exact c7_sample_ok.
  - simpl. lia.
Defined.

(** X6.  [buffer_join_with_prev] on a well-formed buffer.  For a row that
    has a line above it, the line is appended to the one above, the lines
    further down move up by one and [dirty] is set.  For row 0, a
    negative row or a row that is not a line nothing changes, [dirty]
    included. *)
Theorem join_with_previous_line d row :
  buf_ok (buf d) →
  ∃ d',
    buffer_join_with_prev d row = Ok d' ∧
    if decide (0 < row < count (buf d)) then
      ∃ p c,
        text (buf d) !! Z.to_nat (row - 1) = Some p ∧
        text (buf d) !! Z.to_nat row = Some c ∧
        buf_ok (buf d') ∧ dirty d' = true ∧ count (buf d') = count (buf d) - 1 ∧
        text (buf d')
        = take (Z.to_nat (row - 1)) (text (buf d)) ++ (p ++ c)
            :: drop (S (Z.to_nat row)) (text (buf d))
    else d' = d.
Proof.
  intros Hok. destruct (decide (0 < row < count (buf d))) as [Hr|Hr].
  - destruct (join_refines d row Hok Hr) as (d' & He & Hok' & Hd & HT).
    destruct (row_text _ (row - 1) Hok ltac:(lia)) as (p & Hp & _).
    destruct (row_text _ row Hok ltac:(lia)) as (c & Hc & _).
    exists d'. split; [done|]. exists p, c.
    unfold Spec.joinWithPrevious in HT.
    replace (Z.to_nat row - 1)%nat with (Z.to_nat (row - 1)) in HT by lia.
    rewrite Hp, Hc in HT.
    split; [done|]. split; [done|]. split; [done|]. split; [done|]. split; [|done].
    rewrite <- (text_length _ Hok'), <- (text_length _ Hok), HT.
    apply lookup_lt_Some in Hc.
    unfold Zlen. rewrite length_app. simpl. rewrite length_take, length_drop. lia.
  - exists d. split; [|done]. apply join_noop. lia.
Qed.

Lemma join_with_previous_line_witness :
  ∃ d',
    buffer_join_with_prev c7_sample 1 = Ok d' ∧
    if decide (0 < 1 < count (buf c7_sample)) then
      ∃ p c,
        text (buf c7_sample) !! Z.to_nat (1 - 1) = Some p ∧
        text (buf c7_sample) !! Z.to_nat 1 = Some c ∧
        buf_ok (buf d') ∧ dirty d' = true ∧
        count (buf d') = count (buf c7_sample) - 1 ∧
        text (buf d')
        = take (Z.to_nat (1 - 1)) (text (buf c7_sample)) ++ (p ++ c)
            :: drop (S (Z.to_nat 1)) (text (buf c7_sample))
    else d' = c7_sample.
Proof.
  apply (join_with_previous_line c7_sample 1). exact c7_sample_ok.
Defined.

(** ** Capacity *)

Lemma grow_cap_doubles fuel c need :
  1 ≤ c → need - c ≤ Z.of_nat fuel →
  ∃ c' (k : nat),
    grow_cap fuel c need = Ok c' ∧ c' = c * 2 ^ Z.of_nat k ∧ need ≤ c' ∧
    (c < need → c' < 2 * need) ∧ (need ≤ c → c' = c).
Proof.
  revert c. induction fuel as [|f IH]; intros c Hc Hf.
  - exists c, 0%nat. simpl. rewrite decide_False by lia.
    split; [done|]. split; [lia|]. lia.
  - simpl. destruct (decide (c < need)) as [Hlt|Hge].
    + destruct (IH (c * 2) ltac:(lia) ltac:(lia)) as (c' & k & He & Hk & Hn & Hb & Hi).
      exists c', (S k). split; [done|]. split.
      { rewrite Hk, Nat2Z.inj_succ, Z.pow_succ_r by lia. lia. }
      split; [done|]. split; [|lia].
      intros _. destruct (decide (c * 2 < need)) as [H2|H2]; [by apply Hb|].
      rewrite Hi by lia. lia.
    + exists c, 0%nat. split; [done|]. split; [simpl; lia|]. lia.
Qed.

(** X7.  [buffer_ensure_capacity] on a buffer whose capacity is a
    positive [int], for a [need] of at most [2^30]: the loop ends, the
    lines are untouched, and the new capacity is the old one doubled some
    number of times, the first such value that is no less than [need]:
    it is the old capacity when that sufficed, and below twice [need]
    otherwise.  Every value the loop goes through is below [2^31], so
    the doubling never overflows the C [int]; for a larger [need] it
    would. *)
Theorem ensure_capacity_doubles b need :
  1 ≤ cap b < 2 ^ 31 → need ≤ 2 ^ 30 →
  ∃ c' (k : nat),
    buffer_ensure_capacity b need = Ok (mkBuffer (lines b) (len b) (count b) c') ∧
    c' = cap b * 2 ^ Z.of_nat k ∧ need ≤ c' ∧
    (∀ j : nat, (j ≤ k)%nat → cap b * 2 ^ Z.of_nat j < 2 ^ 31) ∧
    (cap b < need → c' < 2 * need) ∧ (need ≤ cap b → c' = cap b).
Proof.
  intros Hc Hneed. unfold buffer_ensure_capacity.
  assert (Hmono : ∀ (k j : nat) c', c' = cap b * 2 ^ Z.of_nat k → c' < 2 ^ 31 →
                    (j ≤ k)%nat → cap b * 2 ^ Z.of_nat j < 2 ^ 31).
  { intros k j c' -> Hlt Hj.
    assert (2 ^ Z.of_nat j ≤ 2 ^ Z.of_nat k) by (apply Z.pow_le_mono_r; lia).
    nia. }
  destruct (decide (need ≤ cap b)) as [Hn|Hn].
  - exists (cap b), 0%nat. split; [by destruct b|]. split; [simpl; lia|].
    split; [done|]. split; [|lia].
    intros j Hj. replace j with 0%nat by lia. simpl. lia.
  - destruct (grow_cap_doubles (Z.to_nat need) (cap b) need ltac:(lia) ltac:(lia))
      as (c' & k & -> & Hk & Hle & Hb & Hi).
    exists c', k. simpl. split; [done|]. split; [done|]. split; [done|].
    split; [|split; [done|lia]].
    intros j Hj. apply (Hmono k j c' Hk); [|done].
    specialize (Hb ltac:(lia)). lia.
Qed.

Lemma ensure_capacity_doubles_witness :
  ∃ c' (k : nat),
    buffer_ensure_capacity buffer_init 200
    = Ok (mkBuffer (lines buffer_init) (len buffer_init) (count buffer_init) c') ∧
    c' = cap buffer_init * 2 ^ Z.of_nat k ∧ 200 ≤ c' ∧
    (∀ j : nat, (j ≤ k)%nat → cap buffer_init * 2 ^ Z.of_nat j < 2 ^ 31) ∧
    (cap buffer_init < 200 → c' < 2 * 200) ∧ (200 ≤ cap buffer_init → c' = cap buffer_init).
Proof.
  apply (ensure_capacity_doubles buffer_init 200); simpl; lia.
Defined.

(** ** The row test of version 0.1 *)

(** X8.  The three line operations that differ between the two files.
    Those of version 0.1 test the row first, so on a well-formed buffer
    they accept every row and every column: each returns a well-formed
    buffer, and for a row that is not a line it returns at once with
    everything as it was.  On a row that is a line they return what the
    functions of version 0.3, which have no such test, return. *)
Theorem row_guard_of_version_0_1 d row col c :
  buf_ok (buf d) →
  (∃ d1 d2 d3,
     V1buf.buffer_insert_char d row col c = Ok d1 ∧ buf_ok (buf d1) ∧
     V1buf.buffer_delete_char d row col = Ok d2 ∧ buf_ok (buf d2) ∧
     V1buf.buffer_split_line d row col = Ok d3 ∧ buf_ok (buf d3) ∧
     (¬ 0 ≤ row < count (buf d) → d1 = d ∧ d2 = d ∧ d3 = d)) ∧
  (0 ≤ row < count (buf d) →
   V1buf.buffer_insert_char d row col c = V3buf.buffer_insert_char d row col c ∧
   V1buf.buffer_delete_char d row col = V3buf.buffer_delete_char d row col ∧
   V1buf.buffer_split_line d row col = V3buf.buffer_split_line d row col).
Proof.
  intros Hok. rewrite v1_insert_char, v1_delete_char, v1_split_line.
  destruct (decide (0 ≤ row < count (buf d))) as [Hr|Hr].
  - rewrite !decide_False by lia. split; [|done].
    destruct (insert_char_refines d row col c Hok Hr) as (_ & d1 & _ & -> & Hok1 & _).
    destruct (delete_char_refines d row col Hok Hr) as (_ & d2 & _ & -> & Hok2 & _).
    destruct (split_line_refines d row col Hok Hr) as (_ & d3 & _ & -> & Hok3 & _).
    exists d1, d2, d3. repeat (split; [done|]). done.
  - rewrite !decide_True by lia. split; [|done].
    exists d, d, d. repeat (split; [done|]). done.
Qed.

Lemma row_guard_of_version_0_1_witness :
  (∃ d1 d2 d3,
     V1buf.buffer_insert_char c7_sample 2 0 120 = Ok d1 ∧ buf_ok (buf d1) ∧
     V1buf.buffer_delete_char c7_sample 2 0 = Ok d2 ∧ buf_ok (buf d2) ∧
     V1buf.buffer_split_line c7_sample 2 0 = Ok d3 ∧ buf_ok (buf d3) ∧
     (¬ 0 ≤ 2 < count (buf c7_sample) → d1 = c7_sample ∧ d2 = c7_sample ∧ d3 = c7_sample)) ∧
  (0 ≤ 2 < count (buf c7_sample) →
   V1buf.buffer_insert_char c7_sample 2 0 120 = V3buf.buffer_insert_char c7_sample 2 0 120 ∧
   V1buf.buffer_delete_char c7_sample 2 0 = V3buf.buffer_delete_char c7_sample 2 0 ∧
   V1buf.buffer_split_line c7_sample 2 0 = V3buf.buffer_split_line c7_sample 2 0).
Proof.
  exact (row_guard_of_version_0_1 c7_sample 2 0 120 c7_sample_ok).
Defined.

(** * Files: what a save writes and what a load reads *)

Lemma getlines_line cur t rest :
  10 ∉ t → getlines cur (t ++ 10 :: rest) = (cur ++ t ++ [10]) :: getlines [] rest.
Proof.
  revert cur. induction t as [|x t IH]; intros cur Ht; simpl.
  - reflexivity.
  - apply not_elem_of_cons in Ht as [Hx Ht].
    rewrite decide_False by done. rewrite IH by done. by rewrite <- app_assoc.
Qed.

Lemma getlines_image T :
  Forall (λ t, 10 ∉ t) T → getlines [] (file_image T) = (λ t, t ++ [10]) <$> T.
Proof.
  induction 1 as [|t T Ht HT IH]; [done|].
  unfold file_image. rewrite fmap_cons. simpl concat.
  rewrite <- app_assoc. simpl. rewrite getlines_line by done.
  simpl. f_equal. exact IH.
Qed.

(** What the loop that strips the line end stops at. *)
Lemma strip_eol_stop line n :
  (n ≤ length line)%nat →
  strip_eol line n = 0%nat
  ∨ ∃ b, line !! (strip_eol line n - 1)%nat = Some b ∧ b ≠ 10 ∧ b ≠ 13.
Proof.
  induction n as [|m IH]; intros Hn; simpl; [by left|].
  destruct (lookup_lt_is_Some_2 line m ltac:(lia)) as [b Hb]. rewrite Hb.
  case_decide as Hd.
  - apply IH. lia.
  - right. exists b. replace (S m - 1)%nat with m by lia. split; [done|]. lia.
Qed.

Lemma strip_eol_keeps line n b :
  line !! (n - 1)%nat = Some b → b ≠ 10 → b ≠ 13 → (0 < n)%nat →
  strip_eol line n = n.
Proof.
  intros Hb H10 H13 Hn. destruct n as [|m]; [lia|]. simpl.
  replace (S m - 1)%nat with m in Hb by lia. rewrite Hb.
  rewrite decide_False; [done|]. lia.
Qed.

Lemma chomp_line t : reloadable t → chomp (t ++ [10]) = t.
Proof.
  intros [H10 H13]. unfold chomp. rewrite length_app. simpl.
  replace (length t + 1)%nat with (S (length t)) by lia. simpl.
  rewrite lookup_app_r, Nat.sub_diag by lia. simpl.
  assert (Hs : strip_eol (t ++ [10]) (length t) = length t).
  { destruct t as [|x t0 _] using rev_ind; [done|].
    rewrite last_snoc in H13.
    apply (strip_eol_keeps _ _ x).
    - rewrite length_app. simpl.
      rewrite lookup_app_l by (rewrite length_app; simpl; lia).
      replace (length t0 + 1 - 1)%nat with (length t0) by lia.
      by rewrite lookup_app_r, Nat.sub_diag.
    - intros ->. apply H10. apply elem_of_app. right. by left.
    - intros ->. by apply H13.
    - rewrite length_app. simpl. lia. }
  rewrite Hs. by rewrite take_app_length.
Qed.

Lemma file_text_image T :
  T ≠ [] → Forall reloadable T → file_text (file_image T) = T.
Proof.
  intros Hne HT. unfold file_text.
  rewrite getlines_image by (eapply Forall_impl; [exact HT|]; by intros t [? _]).
  destruct T as [|t T]; [done|].
  apply Forall_cons in HT as [Ht HT]. simpl.
  f_equal; [by apply chomp_line|].
  rewrite <- list_fmap_compose. rewrite <- (list_fmap_id T) at 2.
  apply Forall_fmap_ext. eapply Forall_impl; [exact HT|].
  intros x Hx. simpl. by apply chomp_line.
Qed.

Lemma getlines_shape cur bs :
  10 ∉ cur →
  Forall (λ l, ∃ t, (10 ∉ t) ∧ (l = t ∨ l = t ++ [10])) (getlines cur bs).
Proof.
  revert cur. induction bs as [|b bs IH]; intros cur Hc; simpl.
  - destruct cur; [constructor|]. constructor; [|constructor]. eauto.
  - case_decide as Hb.
    + subst b. constructor; [eauto|]. apply IH. by apply not_elem_of_nil.
    + apply IH. rewrite elem_of_app, list_elem_of_singleton. intros [?|?]; congruence.
Qed.

Lemma chomp_reloadable l t :
  10 ∉ t → l = t ∨ l = t ++ [10] → reloadable (chomp l).
Proof.
  intros Ht Hl. unfold chomp.
  pose proof (strip_eol_le l (length l)) as Hle.
  destruct (strip_eol_stop l (length l) ltac:(lia)) as [H0|(b & Hb & H10 & H13)].
  { rewrite H0. simpl. split; [apply not_elem_of_nil|done]. }
  set (r := strip_eol l (length l)) in *.
  destruct (decide (r = 0%nat)) as [Hr|Hr].
  { rewrite Hr. simpl. split; [apply not_elem_of_nil|done]. }
  assert (Hin : take r l = take r t).
  { destruct Hl as [->| ->]; [done|].
    destruct (decide (r ≤ length t)%nat) as [Hrt|Hrt].
    - by rewrite take_app_le.
    - rewrite length_app in Hle. simpl in Hle.
      assert (r = S (length t)) as Er by lia.
      rewrite Er in Hb. simpl in Hb. rewrite Nat.sub_0_r in Hb.
      rewrite lookup_app_r, Nat.sub_diag in Hb by lia. simpl in Hb. congruence. }
  split.
  - rewrite Hin. intros [i [Hi _]]%elem_of_take. apply Ht.
    by eapply list_elem_of_lookup_2.
  - rewrite last_lookup, length_take.
    replace (Init.Nat.pred (r `min` length l)) with (r - 1)%nat by lia.
    rewrite lookup_take_lt by lia. rewrite Hb. congruence.
Qed.

Lemma file_text_reloadable content : Forall reloadable (file_text content).
Proof.
  unfold file_text.
  pose proof (getlines_shape [] content ltac:(apply not_elem_of_nil)) as HF.
  destruct (getlines [] content) as [|l ls].
  - constructor; [|constructor]. split; [apply not_elem_of_nil|done].
  - apply Forall_fmap. eapply Forall_impl; [exact HF|].
    intros x (t & Ht & Hx). simpl. by apply (chomp_reloadable x t).
Qed.

Lemma file_text_nonempty content : file_text content ≠ [].
Proof. unfold file_text. by destruct (getlines [] content). Qed.





(** X10.  [editor_open] on a file that exists, whatever its bytes: the
    load never fails, the buffer is well-formed with at least one line and
    not dirty, and its lines are the lines of the file without their line
    ends (every trailing newline and carriage return of a line is
    dropped).  No loaded line holds a newline or ends in a carriage
    return, so what was loaded survives a save and a reload unchanged. *)
Theorem open_normalises_line_ends (content : list Z) :
  ∃ d, load_file content = Ok d ∧ buf_ok (buf d) ∧ dirty d = false ∧
       1 ≤ count (buf d) ∧
       text (buf d) = file_text content ∧
       Forall reloadable (text (buf d)) ∧
       file_text (file_image (text (buf d))) = text (buf d).
Proof.
  destruct (load_file_refines content) as (d & He & Hok & Hd & HT).
  exists d. split; [done|]. split; [done|]. split; [done|].
  split; [by destruct Hok|]. split; [done|]. rewrite HT. split.
  - apply file_text_reloadable.
  - apply file_text_image; [apply file_text_nonempty|apply file_text_reloadable].
Qed.

(** * Keys *)

Lemma wait_byte_skips_silence n inp :
  wait_byte (replicate n RNone ++ inp) = wait_byte inp.
Proof. induction n as [|n IH]; [done|]. simpl. exact IH. Qed.

Lemma int_of_char_ascii b : 0 ≤ b < 128 → int_of_char b = b.
Proof. intros H. unfold int_of_char. by rewrite decide_True by lia. Qed.

(** X11.  The first loop of [editor_read_key], in both versions: reads
    that time out are skipped, however many; the first byte that arrives,
    if it is not ESC, is the key, as a signed [char]; a read error ends
    the process through [die]; and on an input that stays silent the
    function never returns. *)
Theorem read_key_waits_for_a_byte (n : nat) (b : Z) (rest : list rd) :
  b ≠ 27 →
  V3.editor_read_key (replicate n RNone ++ RByte b :: rest) = Ok (int_of_char b, rest) ∧
  V1.editor_read_key (replicate n RNone ++ RByte b :: rest) = Ok (int_of_char b, rest) ∧
  V3.editor_read_key (replicate n RNone ++ RFail :: rest) = Err Died ∧
  V1.editor_read_key (replicate n RNone ++ RFail :: rest) = Err Died ∧
  V3.editor_read_key (replicate n RNone) = Err Starved ∧
  V1.editor_read_key (replicate n RNone) = Err Starved.
Proof.
  intros Hb.
  assert (Hnil : wait_byte (replicate n RNone) = Err Starved).
  { rewrite <- (app_nil_r (replicate n RNone)). by rewrite wait_byte_skips_silence. }
  unfold V3.editor_read_key, V1.editor_read_key.
  rewrite !wait_byte_skips_silence, Hnil. simpl.
  rewrite decide_True by done. rewrite decide_False by done. done.
Qed.

Lemma read_key_waits_for_a_byte_witness :
  V3.editor_read_key (replicate 3 RNone ++ RByte 200 :: []) = Ok (int_of_char 200, []) ∧
  V1.editor_read_key (replicate 3 RNone ++ RByte 200 :: []) = Ok (int_of_char 200, []) ∧
  V3.editor_read_key (replicate 3 RNone ++ RFail :: []) = Err Died ∧
  V1.editor_read_key (replicate 3 RNone ++ RFail :: []) = Err Died ∧
  V3.editor_read_key (replicate 3 RNone) = Err Starved ∧
  V1.editor_read_key (replicate 3 RNone) = Err Starved.
Proof. apply (read_key_waits_for_a_byte 3 200 []). lia. Defined.

(** ** Escape sequences in version 0.3 *)

Lemma read_seq_collects fuel s f rest acc :
  Forall (λ b, V3.is_final b = false) s → V3.is_final f = true →
  (length s < fuel)%nat →
  V3.read_seq fuel ((RByte <$> s) ++ RByte f :: rest) acc = (acc ++ s ++ [f], rest).
Proof.
  revert s acc. induction fuel as [|fuel IH]; intros s acc Hs Hf Hl; [lia|].
  destruct s as [|b s]; simpl.
  - by rewrite Hf.
  - apply Forall_cons in Hs as [Hb Hs]. rewrite Hb.
    rewrite IH by (done || simpl in Hl; lia). by rewrite <- app_assoc.
Qed.

Lemma arrow_code_range b :
  V3.arrow_code b ∈ [27; 72; 69; 1001; 1002; 1003; 1004].
Proof. unfold V3.arrow_code. repeat case_match; rewrite !elem_of_cons; auto 20. Qed.

Lemma tilde_code_range n :
  V3.tilde_code n ∈ [27; 72; 69; 127; 1005; 1006].
Proof. unfold V3.tilde_code. repeat case_match; rewrite !elem_of_cons; auto 20. Qed.

Lemma decode_seq_range seq :
  V3.decode_seq seq ∈ [27; 72; 69; 127; 1001; 1002; 1003; 1004; 1005; 1006].
Proof.
  assert (Ha : ∀ b, V3.arrow_code b
                    ∈ [27; 72; 69; 127; 1001; 1002; 1003; 1004; 1005; 1006]).
  { intros b. pose proof (arrow_code_range b) as H. revert H.
    rewrite !elem_of_cons. intuition. }
  assert (Ht : ∀ n, V3.tilde_code n
                    ∈ [27; 72; 69; 127; 1001; 1002; 1003; 1004; 1005; 1006]).
  { intros n. pose proof (tilde_code_range n) as H. revert H.
    rewrite !elem_of_cons. intuition. }
  assert (H27 : 27 ∈ [27; 72; 69; 127; 1001; 1002; 1003; 1004; 1005; 1006])
    by (rewrite !elem_of_cons; auto).
  unfold V3.decode_seq.
  destruct seq as [|x rest]; [done|].
  destruct (decide (x = 91)) as [->|H91].
  - case_decide; destruct rest; try done. case_decide; done.
  - destruct (decide (x = 79)) as [->|H79].
    + case_decide; destruct rest; done.
    + repeat case_match; try done; lia.
Qed.

(** ESC [ 4294967299 ~: the number is 3 once it has gone round the 32-bit
    [int], and the key is Delete. *)
Lemma long_number_wraps :
  V3.decode_seq ([91; 52; 50; 57; 52; 57; 54; 55; 50; 57; 57] ++ [126]) = 127.
Proof. vm_compute. reflexivity. Qed.

(** X12.  Escape sequences in version 0.3.  After ESC the decoder
    collects bytes up to and including the first byte that is a capital
    letter or a tilde.  When that byte comes within 16 bytes, exactly
    these bytes are taken off the input, nothing behind them is
    consumed, and the key is one of ESC, Home, End, 127 and the six arrow
    and paging codes.  The number before a tilde is kept in a 32-bit
    [int], so a long run of digits wraps round.  As the letter O is
    itself a capital, the collection stops right behind ESC O: the branch
    for ESC O and a letter is never reached, ESC is returned and the
    letter stays in the input, to come as the next key. *)
Theorem escape_sequence_consumed_whole (s : list Z) (f : Z) (rest : list rd) :
  Forall (λ b, V3.is_final b = false) s → V3.is_final f = true →
  (length s < 16)%nat →
  V3.editor_read_key (RByte 27 :: (RByte <$> s) ++ RByte f :: rest)
  = Ok (V3.decode_seq (s ++ [f]), rest)
  ∧ V3.decode_seq (s ++ [f])
    ∈ [27; 72; 69; 127; 1001; 1002; 1003; 1004; 1005; 1006]
  ∧ ∀ x, V3.editor_read_key (RByte 27 :: RByte 79 :: RByte x :: rest)
         = Ok (27, RByte x :: rest).
Proof.
  intros Hs Hf Hl. split; [|split; [apply decode_seq_range|by intros x]].
  unfold V3.editor_read_key. cbn [wait_byte]. unfold mbind, res_bind. cbv beta iota.
  rewrite decide_False by (intros H; by apply H).
  rewrite (read_seq_collects 16 s f rest [] Hs Hf Hl). cbn [app].
  rewrite decide_False; [done|].
  unfold Zlen. rewrite length_app. simpl. lia.
Qed.

Lemma escape_sequence_consumed_whole_witness :
  V3.editor_read_key
    (RByte 27 :: (RByte <$> [91; 52; 50; 57; 52; 57; 54; 55; 50; 57; 57])
       ++ RByte 126 :: [RByte 120])
  = Ok (V3.decode_seq ([91; 52; 50; 57; 52; 57; 54; 55; 50; 57; 57] ++ [126]), [RByte 120])
  ∧ V3.decode_seq ([91; 52; 50; 57; 52; 57; 54; 55; 50; 57; 57] ++ [126])
    ∈ [27; 72; 69; 127; 1001; 1002; 1003; 1004; 1005; 1006]
  ∧ ∀ x, V3.editor_read_key (RByte 27 :: RByte 79 :: RByte x :: [RByte 120])
         = Ok (27, RByte x :: [RByte 120]).
Proof.
  apply (escape_sequence_consumed_whole
           [91; 52; 50; 57; 52; 57; 54; 55; 50; 57; 57] 126 [RByte 120]).
  - repeat (apply Forall_cons; split; [reflexivity|]). apply Forall_nil_2.
  - reflexivity.
  - simpl. lia.
Defined.

(** X13.  The two decoders on ESC, an opening bracket and one capital
    letter: both take exactly these three bytes and return the same key,
    the arrow, Home or End code of the letter, or ESC for a letter that
    has none. *)
Theorem decoders_agree_on_arrows (f : Z) (rest : list rd) :
  65 ≤ f ≤ 90 →
  V3.editor_read_key (RByte 27 :: RByte 91 :: RByte f :: rest)
  = Ok (V3.arrow_code f, rest) ∧
  V1.editor_read_key (RByte 27 :: RByte 91 :: RByte f :: rest)
  = Ok (V3.arrow_code f, rest).
Proof.
  intros Hf. split.
  - unfold V3.editor_read_key. cbn [wait_byte]. unfold mbind, res_bind. cbv beta iota.
    rewrite decide_False by (intros H; by apply H).
    assert (Hfin : V3.is_final f = true).
    { unfold V3.is_final. by rewrite (bool_decide_eq_true_2 (65 ≤ f ≤ 90)). }
    pose proof (read_seq_collects 16 [91] f rest []
                  ltac:(by repeat constructor) Hfin ltac:(simpl; lia)) as Hr.
    change ((RByte <$> [91]) ++ RByte f :: rest)
      with (RByte 91 :: RByte f :: rest) in Hr.
    rewrite Hr. reflexivity.
  - unfold V1.editor_read_key. simpl.
    rewrite decide_False by lia.
    unfold V3.arrow_code.
    assert (f = 65 ∨ f = 66 ∨ f = 67 ∨ f = 68 ∨ f = 70 ∨ f = 72
            ∨ (f ≠ 65 ∧ f ≠ 66 ∧ f ≠ 67 ∧ f ≠ 68 ∧ f ≠ 70 ∧ f ≠ 72)) as Hc by lia.
    destruct Hc as [->|[->|[->|[->|[->|[->|Hc]]]]]]; try done.
Qed.

Lemma decoders_agree_on_arrows_witness :
  V3.editor_read_key (RByte 27 :: RByte 91 :: RByte 66 :: []) = Ok (V3.arrow_code 66, []) ∧
  V1.editor_read_key (RByte 27 :: RByte 91 :: RByte 66 :: []) = Ok (V3.arrow_code 66, []).
Proof. apply (decoders_agree_on_arrows 66 []). lia. Defined.

(** ** The prompt *)

Lemma read_plain_key c rest :
  32 ≤ c ≤ 126 → V3.editor_read_key (RByte c :: rest) = Ok (c, rest).
Proof.
  intros Hc. unfold V3.editor_read_key. cbn [wait_byte].
  unfold mbind, res_bind. cbv beta iota.
  rewrite decide_True by lia. by rewrite int_of_char_ascii by lia.
Qed.

Lemma read_enter rest : V3.editor_read_key (RByte 13 :: rest) = Ok (13, rest).
Proof. reflexivity. Qed.

Lemma read_lone_escape rest : V3.editor_read_key (RByte 27 :: RNone :: rest) = Ok (27, rest).
Proof. reflexivity. Qed.

Lemma prompt_collects prompt w rest :
  Forall (λ c, 32 ≤ c ≤ 126) w →
  ∀ fuel os e out,
    stdin os = (RByte <$> w) ++ RByte 13 :: rest →
    (length w < fuel)%nat → Zlen out ≤ 255 → out ++ w ≠ [] →
    ∃ e', V3.editor_prompt fuel os e prompt out
          = Ok (set_stdin os rest, e', Some (take 255 (out ++ w))) ∧
          same_but_screen e e' ∧ V3.statusmsg e' = MsgEmpty.
Proof.
  induction 1 as [|c w Hc Hw IH]; intros fuel os e out Hin Hf Hout Hne;
    (destruct fuel as [|f]; [simpl in Hf; lia|]); cbn [V3.editor_prompt].
  - rewrite Hin. cbn [fmap list_fmap app]. rewrite read_enter.
    unfold mbind, res_bind. cbv beta iota zeta.
    rewrite decide_False by lia. rewrite decide_True by lia.
    rewrite app_nil_r in Hne |- *.
    rewrite decide_True.
    2:{ destruct out; [done|]. rewrite Zlen_cons. pose proof (Zlen_nonneg out). lia. }
    eexists. split.
    + rewrite take_ge; [done|]. unfold Zlen in Hout. lia.
    + split; [|done].
      eapply same_but_screen_trans; [apply status_same|].
      eapply same_but_screen_trans; [apply draw_same|apply status_same].
  - rewrite Hin. cbn [fmap list_fmap app]. rewrite (read_plain_key c) by done.
    unfold mbind, res_bind. cbv beta iota zeta.
    rewrite decide_False by lia. rewrite decide_False by lia.
    rewrite decide_False by lia.
    unfold isprint. rewrite bool_decide_eq_true_2 by lia.
    set (e1 := V3.editor_draw_screen (V3.editor_set_status e (MsgPrompt prompt out))).
    assert (H1 : same_but_screen e e1).
    { eapply same_but_screen_trans; [apply status_same|apply draw_same]. }
    case_decide as Hroom.
    + destruct (IH f (set_stdin os ((RByte <$> w) ++ RByte 13 :: rest)) e1 (out ++ [c]))
        as (e' & He & Hs & Hst).
      * done.
      * simpl in Hf. lia.
      * rewrite Zlen_app, Zlen_cons, Zlen_nil. lia.
      * by destruct out.
      * exists e'. rewrite <- app_assoc in He. split; [exact He|]. split; [|done].
        by eapply same_but_screen_trans.
    + destruct (IH f (set_stdin os ((RByte <$> w) ++ RByte 13 :: rest)) e1 out)
        as (e' & He & Hs & Hst).
      * done.
      * simpl in Hf. lia.
      * done.
      * destruct out; [|done]. rewrite Zlen_nil in Hroom. lia.
      * exists e'. split; [|split; [by eapply same_but_screen_trans|done]].
        rewrite He. do 3 f_equal.
        assert (length out = 255%nat) by (unfold Zlen in *; lia).
        rewrite !take_app_le by lia. done.
Qed.

(** X14.  [editor_prompt] of version 0.3.  When the user types printable
    ASCII bytes, at least one, and then Enter, the prompt returns true
    with these bytes as the answer, cut after 255 of them, and has read
    the input up to and including the Enter, no further.  It leaves the
    document, the cursor and the search state alone and clears the status
    message. *)
Theorem prompt_returns_what_was_typed (os : OS) (e : V3.Editor) (prompt : string)
    (w : list Z) (rest : list rd) :
  Forall (λ c, 32 ≤ c ≤ 126) w → w ≠ [] →
  stdin os = (RByte <$> w) ++ RByte 13 :: rest →
  ∃ e', V3.editor_prompt (S (length (stdin os))) os e prompt []
        = Ok (set_stdin os rest, e', Some (take 255 w)) ∧
        same_but_screen e e' ∧ V3.statusmsg e' = MsgEmpty.
Proof.
  intros Hw Hne Hin.
  apply (prompt_collects prompt w rest Hw (S (length (stdin os))) os e []); try done.
  rewrite Hin, length_app, length_fmap. simpl. lia.
Qed.

Lemma prompt_returns_what_was_typed_witness :
  ∃ e', V3.editor_prompt (S (length (stdin sample_os_query))) sample_os_query
          sample_found3 "/" []
        = Ok (set_stdin sample_os_query [], e', Some (take 255 [122])) ∧
        same_but_screen sample_found3 e' ∧ V3.statusmsg e' = MsgEmpty.
Proof.
  apply (prompt_returns_what_was_typed sample_os_query sample_found3 "/" [122] []).
  - constructor; [lia|constructor].
  - discriminate.
  - reflexivity.
Defined.

(** * The view: scrolling, the terminal cursor, the window size *)

Lemma adjust_visible p o n : 1 ≤ n → adjust p o n ≤ p < adjust p o n + n.
Proof. unfold adjust. intros. repeat case_decide; lia. Qed.

Lemma adjust_stays p o n : o ≤ p < o + n → adjust p o n = o.
Proof. unfold adjust. intros. repeat case_decide; lia. Qed.

Lemma adjust_nonneg p o n : 0 ≤ p → 0 ≤ o → 0 ≤ adjust p o n.
Proof. unfold adjust. intros. repeat case_decide; lia. Qed.

Lemma screen_clamp a n :
  (if decide ((if decide (a < 0) then 0 else a) >= n) then n - 1
   else if decide (a < 0) then 0 else a)
  = if decide (a < 0) then (if decide (0 >= n) then n - 1 else 0)
    else if decide (a >= n) then n - 1 else a.
Proof. repeat case_decide; lia. Qed.

(** X15.  [editor_scroll] of version 0.3 on a screen of at least one row
    and one column: afterwards the cursor lies inside the window on both
    axes, so the clamping that [editor_draw_screen] applies before it
    addresses the terminal cursor changes nothing and the terminal cursor
    is put on the text cursor.  An offset is only moved when the cursor
    is outside the window on its axis, and offsets that are not negative
    stay so for a cursor that is not negative. *)
Theorem scroll_brings_cursor_into_window (v : V3.View) :
  1 ≤ V3.screenrows v → 1 ≤ V3.screencols v →
  let v' := V3.editor_scroll v in
  V3.rowoff v' ≤ V3.cy v < V3.rowoff v' + V3.screenrows v ∧
  V3.coloff v' ≤ V3.cx v < V3.coloff v' + V3.screencols v ∧
  V3.screen_cursor v' = (V3.cy v - V3.rowoff v' + 1, V3.cx v - V3.coloff v' + 1) ∧
  (V3.rowoff v ≤ V3.cy v < V3.rowoff v + V3.screenrows v → V3.rowoff v' = V3.rowoff v) ∧
  (V3.coloff v ≤ V3.cx v < V3.coloff v + V3.screencols v → V3.coloff v' = V3.coloff v) ∧
  (0 ≤ V3.cy v → 0 ≤ V3.rowoff v → 0 ≤ V3.rowoff v') ∧
  (0 ≤ V3.cx v → 0 ≤ V3.coloff v → 0 ≤ V3.coloff v').
Proof.
  intros Hr Hc. cbv zeta. rewrite v3_scroll_adjust.
  pose proof (adjust_visible (V3.cy v) (V3.rowoff v) (V3.screenrows v) Hr) as H1.
  pose proof (adjust_visible (V3.cx v) (V3.coloff v) (V3.screencols v) Hc) as H2.
  split; [exact H1|]. split; [exact H2|]. split.
  { unfold V3.screen_cursor. cbv zeta. simpl. rewrite !screen_clamp.
    rewrite !decide_False by lia. done. }
  simpl. split; [apply adjust_stays|]. split; [apply adjust_stays|].
  split; apply adjust_nonneg.
Qed.

Lemma scroll_brings_cursor_into_window_witness :
  let v := V3.mkView 95 40 0 0 22 80 95 in
  let v' := V3.editor_scroll v in
  V3.rowoff v' ≤ V3.cy v < V3.rowoff v' + V3.screenrows v ∧
  V3.coloff v' ≤ V3.cx v < V3.coloff v' + V3.screencols v ∧
  V3.screen_cursor v' = (V3.cy v - V3.rowoff v' + 1, V3.cx v - V3.coloff v' + 1) ∧
  (V3.rowoff v ≤ V3.cy v < V3.rowoff v + V3.screenrows v → V3.rowoff v' = V3.rowoff v) ∧
  (V3.coloff v ≤ V3.cx v < V3.coloff v + V3.screencols v → V3.coloff v' = V3.coloff v) ∧
  (0 ≤ V3.cy v → 0 ≤ V3.rowoff v → 0 ≤ V3.rowoff v') ∧
  (0 ≤ V3.cx v → 0 ≤ V3.coloff v → 0 ≤ V3.coloff v').
Proof.
  apply (scroll_brings_cursor_into_window (V3.mkView 95 40 0 0 22 80 95)); simpl; lia.
Defined.

(** X16.  [editor_scroll] of version 0.1 adjusts the rows only.  On a
    screen of at least two rows the cursor row ends up among the
    [screenrows - 1] rows that [editor_draw_screen] draws, so the row of
    the terminal cursor is the row of the text cursor.  The column offset
    is never moved to follow the cursor: a non-negative offset stays as
    it is, and once the cursor is [screencols] or more columns to the
    right of it the terminal cursor is held in the last column. *)
Theorem scroll_of_version_0_1_is_vertical (v : V1.View) :
  2 ≤ V1.screenrows v → 0 ≤ V1.coloff v ≤ V1.cx v →
  let v' := V1.editor_scroll v in
  V1.rowoff v' ≤ V1.cy v < V1.rowoff v' + (V1.screenrows v - 1) ∧
  V1.coloff v' = V1.coloff v ∧
  V1.screen_cursor v'
  = (V1.cy v - V1.rowoff v' + 1,
     if decide (V1.cx v - V1.coloff v >= V1.screencols v) then V1.screencols v
     else V1.cx v - V1.coloff v + 1).
Proof.
  intros Hr Hc. cbv zeta. rewrite v1_scroll_adjust.
  pose proof (adjust_visible (V1.cy v) (V1.rowoff v) (V1.screenrows v - 1)
                ltac:(lia)) as H1.
  simpl. split; [exact H1|]. rewrite decide_False by lia. split; [done|].
  unfold V1.screen_cursor. cbv zeta. simpl.
  replace (V1.screenrows v - 2) with (V1.screenrows v - 1 - 1) by lia.
  rewrite !screen_clamp.
  rewrite (decide_False (P := V1.cy v - _ < 0)) by lia.
  rewrite (decide_False (P := V1.cy v - _ >= _)) by lia.
  rewrite (decide_False (P := V1.cx v - _ < 0)) by lia.
  case_decide; f_equal; lia.
Qed.

Lemma scroll_of_version_0_1_is_vertical_witness :
  let v := V1.mkView 95 40 0 0 22 80 in
  let v' := V1.editor_scroll v in
  V1.rowoff v' ≤ V1.cy v < V1.rowoff v' + (V1.screenrows v - 1) ∧
  V1.coloff v' = V1.coloff v ∧
  V1.screen_cursor v'
  = (V1.cy v - V1.rowoff v' + 1,
     if decide (V1.cx v - V1.coloff v >= V1.screencols v) then V1.screencols v
     else V1.cx v - V1.coloff v + 1).
Proof.
  apply (scroll_of_version_0_1_is_vertical (V1.mkView 95 40 0 0 22 80)); simpl; lia.
Defined.

(** X17.  [editor_update_dimensions] touches nothing but the two screen
    sizes and always leaves at least one text row.  When the terminal
    answers with a size, the text area is that size less the two bottom
    rows.  When the query fails, a size that was known before is kept as
    it is and no change is reported; only sizes never set fall back to 22
    text rows and 80 columns.  The flag returned tells exactly whether
    one of the two sizes changed. *)
Theorem update_dimensions_keeps_known_size (os : OS) (e : V3.Editor) :
  ∃ os' e' changed,
    V3.editor_update_dimensions os e = (os', e', changed) ∧
    same_but_screen e e' ∧
    V3.rowoff (V3.view e') = V3.rowoff (V3.view e) ∧
    V3.coloff (V3.view e') = V3.coloff (V3.view e) ∧
    1 ≤ V3.screenrows (V3.view e') ∧
    (changed = false ↔
     V3.screenrows (V3.view e') = V3.screenrows (V3.view e) ∧
     V3.screencols (V3.view e') = V3.screencols (V3.view e)) ∧
    match (V3.get_window_size os).1 with
    | Some (rows, cols) =>
        V3.screenrows (V3.view e') = Z.max 1 (rows - 2) ∧
        V3.screencols (V3.view e') = cols
    | None =>
        V3.screenrows (V3.view e')
        = (if decide (V3.screenrows (V3.view e) > 0) then V3.screenrows (V3.view e) else 22) ∧
        V3.screencols (V3.view e')
        = (if decide (V3.screencols (V3.view e) > 0) then V3.screencols (V3.view e) else 80)
    end.
Proof.
  unfold V3.editor_update_dimensions.
  destruct (V3.get_window_size os) as [w os1]. cbn [fst].
  set (rc := match w with
             | Some (rows, cols) => (rows, cols)
             | None => (if decide (V3.screenrows (V3.view e) > 0)
                        then V3.screenrows (V3.view e) + 2 else 24,
                        if decide (V3.screencols (V3.view e) > 0)
                        then V3.screencols (V3.view e) else 80)
             end).
  destruct rc as [rows cols] eqn:Erc.
  eexists os1, _, _. split; [reflexivity|]. simpl.
  split; [by repeat split|]. split; [done|]. split; [done|].
  split; [case_decide; lia|]. split.
  - rewrite orb_false_iff, !negb_false_iff, !bool_decide_eq_true. done.
  - destruct w as [[rows' cols']|]; unfold rc in Erc.
    + injection Erc as -> ->. split; [case_decide; lia|done].
    + injection Erc as <- <-. split; [|done].
      repeat case_decide; lia.
Qed.

(** ** Up and down *)

(** X18.  The preferred column of version 0.3.  From a state of the
    session whose preferred column is the cursor column, on a line that
    has a line below it, Down followed by Up gives back the very same
    state, however short the line below is.  Version 0.1 has no
    preferred column: after Down and Up the cursor is at the smaller of
    its column and the length of the line below. *)
Theorem down_then_up_keeps_the_column (e3 : V3.Editor) (e1 : V1.Editor) :
  (V3.inv e3 → V3.pref_cx (V3.view e3) = V3.cx (V3.view e3) →
   V3.cy (V3.view e3) + 1 < count (buf (V3.doc e3)) →
   ∃ e', V3.editor_move_cursor e3 1002 = Ok e' ∧ V3.editor_move_cursor e' 1001 = Ok e3)
  ∧
  (buf_ok (buf (V1.doc e1)) → V1.cursor_ok e1 →
   V1.cy (V1.view e1) + 1 < count (buf (V1.doc e1)) →
   ∃ below e' e'',
     text (buf (V1.doc e1)) !! Z.to_nat (V1.cy (V1.view e1) + 1) = Some below ∧
     V1.move_cursor e1 1002 = Ok e' ∧ V1.move_cursor e' 1001 = Ok e'' ∧
     V1.doc e'' = V1.doc e1 ∧
     V1.cy (V1.view e'') = V1.cy (V1.view e1) ∧
     V1.cx (V1.view e'') = Z.min (V1.cx (V1.view e1)) (Zlen below)).
Proof.
  split.
  - intros Hi Hp Hy.
    destruct (inv_elim e3 Hi) as (Hok & Hcy & Hpref & _ & t & Ht & HL & Hx).
    destruct (row_text _ (V3.cy (V3.view e3) + 1) Hok ltac:(lia)) as (t' & Ht' & HL').
    unfold V3.editor_move_cursor at 1. cbv zeta.
    rewrite decide_True by lia. cbn [mbind res_bind]. rewrite HL'. cbn [mbind res_bind].
    eexists. split; [reflexivity|].
    unfold V3.editor_move_cursor. simpl.
    rewrite decide_True by lia.
    replace (V3.cy (V3.view e3) + 1 - 1) with (V3.cy (V3.view e3)) by lia.
    rewrite HL. simpl. rewrite (decide_True (P := V3.pref_cx _ <= Zlen t)) by lia.
    destruct e3 as [d [x y ro co sr sc p] f s q mr mc hr hc hl qt]. simpl in *.
    by subst p.
  - intros Hok [Hcy (L & HL & Hx)] Hy.
    destruct (row_text _ (V1.cy (V1.view e1) + 1) Hok ltac:(lia)) as (t' & Ht' & HL').
    exists t'. unfold V1.move_cursor at 1. cbv zeta.
    rewrite decide_True by lia. rewrite HL'. cbn [mbind res_bind].
    eexists _, _. split; [done|]. split; [reflexivity|].
    set (x1 := if decide (V1.cx (V1.view e1) > Zlen t') then Zlen t'
               else V1.cx (V1.view e1)).
    unfold V1.move_cursor. simpl.
    rewrite (decide_True (P := V1.cy (V1.view e1) + 1 > 0)) by lia.
    replace (V1.cy (V1.view e1) + 1 - 1) with (V1.cy (V1.view e1)) by lia.
    rewrite HL. simpl. split; [reflexivity|]. simpl.
    split; [done|]. split; [done|].
    pose proof (Zlen_nonneg t'). unfold x1. repeat case_decide; lia.
Qed.

Lemma down_then_up_keeps_the_column_witness :
  (∃ e', V3.editor_move_cursor sample_long_short3 1002 = Ok e' ∧
         V3.editor_move_cursor e' 1001 = Ok sample_long_short3)
  ∧
  (∃ below e' e'',
     text (buf (V1.doc sample_long_short1))
       !! Z.to_nat (V1.cy (V1.view sample_long_short1) + 1) = Some below ∧
     V1.move_cursor sample_long_short1 1002 = Ok e' ∧ V1.move_cursor e' 1001 = Ok e'' ∧
     V1.doc e'' = V1.doc sample_long_short1 ∧
     V1.cy (V1.view e'') = V1.cy (V1.view sample_long_short1) ∧
     V1.cx (V1.view e'') = Z.min (V1.cx (V1.view sample_long_short1)) (Zlen below)).
Proof.
  destruct (down_then_up_keeps_the_column sample_long_short3 sample_long_short1)
    as [H3 H1].
  split.
  - apply H3.
    + apply (inv_intro _ [97; 98; 99; 100]);
        [sample_buf_ok | simpl; lia | reflexivity | unfold Zlen; simpl; lia
        | simpl; lia | by left].
    + reflexivity.
    + simpl. lia.
  - apply H1.
    + sample_buf_ok.
    + split; simpl; [lia|]. exists 4. split; [reflexivity|lia].
    + simpl. lia.
Defined.

(** * Version 0.1: every key keeps the state well-formed *)

Section V1_editing.
Import V1.

Lemma wf1_intro e t :
  buf_ok (buf (doc e)) → 0 ≤ cy (view e) →
  text (buf (doc e)) !! Z.to_nat (cy (view e)) = Some t →
  0 ≤ cx (view e) ≤ Zlen t → wf1 e.
Proof.
  intros Hok Hy Ht Hx. split; [done|].
  destruct (text_lookup_len _ _ _ Hok Ht Hy) as [HL Hr].
  split; [done|]. eauto.
Qed.

Lemma wf1_elim e :
  wf1 e →
  buf_ok (buf (doc e)) ∧ 0 ≤ cy (view e) < count (buf (doc e)) ∧
  ∃ t, text (buf (doc e)) !! Z.to_nat (cy (view e)) = Some t
       ∧ slot (len (buf (doc e))) (cy (view e)) = Ok (Zlen t)
       ∧ 0 ≤ cx (view e) ≤ Zlen t.
Proof.
  intros [Hok [Hy (L & HL & Hx)]].
  destruct (slot_len_text _ _ _ Hok HL) as (t & Ht & -> & _).
  split; [done|]. split; [done|]. eauto.
Qed.

Lemma insert_char_spec e c :
  wf1 e →
  ∃ t e', text (buf (doc e)) !! Z.to_nat (cy (view e)) = Some t ∧
    insert_char e c = Ok e' ∧ wf1 e' ∧ dirty (doc e') = true ∧
    text (buf (doc e'))
    = Spec.insertChar (text (buf (doc e))) (Z.to_nat (cy (view e)))
        (Z.to_nat (cx (view e))) c ∧
    cx (view e') = cx (view e) + 1 ∧ cy (view e') = cy (view e) ∧
    coloff (view e') = coloff (view e) ∧ rowoff (view e') = rowoff (view e).
Proof.
  intros Hw. destruct (wf1_elim e Hw) as (Hok & Hy & t & Ht & HL & Hx).
  unfold insert_char. cbv zeta. rewrite v1_insert_char, decide_False by lia.
  destruct (insert_char_refines (doc e) (cy (view e)) (cx (view e)) c Hok Hy)
    as (t' & d' & Ht' & -> & Hok' & Hd' & HT').
  rewrite Ht in Ht'. injection Ht' as <-.
  rewrite clamp_col_id in HT' by done.
  simpl. exists t. eexists. split; [done|]. split; [done|].
  split; [|by auto].
  eapply (wf1_intro _ _); simpl; try done; try lia.
  - rewrite HT'. by apply insertChar_lookup.
  - rewrite Zlen_app, Zlen_cons. unfold Zlen in *.
    rewrite length_take, length_drop. lia.
Qed.

Lemma insert_newline_spec e :
  wf1 e →
  ∃ t e', text (buf (doc e)) !! Z.to_nat (cy (view e)) = Some t ∧
    insert_newline e = Ok e' ∧ wf1 e' ∧ dirty (doc e') = true ∧
    text (buf (doc e'))
    = Spec.splitLine (text (buf (doc e))) (Z.to_nat (cy (view e)))
        (Z.to_nat (cx (view e))) ∧
    cx (view e') = 0 ∧ cy (view e') = cy (view e) + 1 ∧
    coloff (view e') = coloff (view e) ∧ rowoff (view e') = rowoff (view e).
Proof.
  intros Hw. destruct (wf1_elim e Hw) as (Hok & Hy & t & Ht & HL & Hx).
  unfold insert_newline. cbv zeta. rewrite v1_split_line, decide_False by lia.
  destruct (split_line_refines (doc e) (cy (view e)) (cx (view e)) Hok Hy)
    as (t' & d' & Ht' & -> & Hok' & Hd' & HT').
  rewrite Ht in Ht'. injection Ht' as <-.
  rewrite clamp_col_id in HT' by done.
  simpl. exists t. eexists. split; [done|]. split; [done|]. split; [|by auto].
  eapply (wf1_intro _ _); simpl; try done; try lia.
  - rewrite HT'.
    replace (Z.to_nat (cy (view e) + 1)) with (S (Z.to_nat (cy (view e)))) by lia.
    by apply splitLine_lookup.
  - pose proof (Zlen_nonneg (drop (Z.to_nat (cx (view e))) t)). lia.
Qed.

Lemma backspace_op_spec e :
  wf1 e →
  ∃ e', backspace_op e = Ok e' ∧ wf1 e' ∧
    text (buf (doc e'))
    = backspace_text (text (buf (doc e))) (cy (view e)) (cx (view e)) ∧
    (cy (view e'), cx (view e'))
    = backspace_cursor (text (buf (doc e))) (cy (view e)) (cx (view e)) ∧
    coloff (view e') = coloff (view e) ∧ rowoff (view e') = rowoff (view e).
Proof.
  intros Hw. destruct (wf1_elim e Hw) as (Hok & Hy & t & Ht & HL & Hx).
  unfold backspace_op, backspace_text, backspace_cursor. cbv zeta.
  destruct (decide (cx (view e) > 0)) as [Hcx|Hcx].
  - rewrite v1_delete_char, decide_False by lia.
    destruct (delete_char_refines (doc e) (cy (view e)) (cx (view e)) Hok Hy)
      as (t' & d' & Ht' & -> & Hok' & HT').
    rewrite Ht in Ht'. injection Ht' as <-.
    rewrite decide_True in HT' by lia. destruct HT' as [_ HT'].
    simpl. eexists. split; [done|]. split; [|split; [exact HT'|done]].
    eapply (wf1_intro _ _); simpl; try done; try lia.
    + rewrite HT'. by apply deleteChar_lookup.
    + rewrite Zlen_app. unfold Zlen in *. rewrite length_take, length_drop. lia.
  - destruct (decide (cy (view e) > 0)) as [Hcy|Hcy].
    + destruct (row_text _ (cy (view e) - 1) Hok ltac:(lia)) as (p & Hp & HLp).
      rewrite HLp. simpl.
      destruct (join_refines (doc e) (cy (view e)) Hok ltac:(lia))
        as (d' & -> & Hok' & _ & HT').
      simpl. eexists. split; [done|].
      split; [|split; [exact HT'|by rewrite Hp]].
      eapply (wf1_intro _ (p ++ t)); simpl; try done; try lia.
      * rewrite HT'.
        replace (Z.to_nat (cy (view e) - 1)) with (Z.to_nat (cy (view e)) - 1)%nat
          by lia.
        apply joinWithPrevious_lookup; [lia| |done].
        by replace (Z.to_nat (cy (view e)) - 1)%nat
          with (Z.to_nat (cy (view e) - 1)) by lia.
      * rewrite Zlen_app. pose proof (Zlen_nonneg p). pose proof (Zlen_nonneg t). lia.
    + eexists. split; [done|]. done.
Qed.

End V1_editing.

Lemma v1_read_key_cases inp :
  (∃ c rest, V1.editor_read_key inp = Ok (c, rest))
  ∨ V1.editor_read_key inp = Err Starved ∨ V1.editor_read_key inp = Err Died.
Proof.
  unfold V1.editor_read_key.
  destruct (wait_byte_cases inp) as [(b & rest & -> & H)|[->| ->]]; auto.
  left. unfold mbind, res_bind. cbv beta iota.
  repeat (first [case_decide | case_match]); eauto.
Qed.



(** ** The number of lines stays within the capacity *)












(** * Typing and taking back *)

Lemma backspace_after_insert (T : list (list Z)) (y x : Z) t c :
  0 ≤ y → T !! Z.to_nat y = Some t → 0 ≤ x ≤ Zlen t →
  backspace_text (Spec.insertChar T (Z.to_nat y) (Z.to_nat x) c) y (x + 1) = T ∧
  backspace_cursor (Spec.insertChar T (Z.to_nat y) (Z.to_nat x) c) y (x + 1) = (y, x).
Proof.
  intros Hy Ht Hx. unfold backspace_text, backspace_cursor.
  rewrite !decide_True by lia. split; [|f_equal; lia].
  unfold Spec.deleteChar, Spec.insertChar.
  apply list_eq. intros i. destruct (decide (i = Z.to_nat y)) as [->|Hi].
  - rewrite !list_lookup_alter_eq, Ht. simpl. f_equal.
    replace (Z.to_nat (x + 1)) with (S (Z.to_nat x)) by lia.
    apply insert_then_delete_text. unfold Zlen in Hx. lia.
  - by rewrite !list_lookup_alter_ne.
Qed.

Lemma backspace_after_newline (T : list (list Z)) (y x : Z) t :
  0 ≤ y → T !! Z.to_nat y = Some t → 0 ≤ x ≤ Zlen t →
  backspace_text (Spec.splitLine T (Z.to_nat y) (Z.to_nat x)) (y + 1) 0 = T ∧
  backspace_cursor (Spec.splitLine T (Z.to_nat y) (Z.to_nat x)) (y + 1) 0 = (y, x).
Proof.
  intros Hy Ht Hx. unfold backspace_text, backspace_cursor.
  rewrite !(decide_False (P := 0 > 0)) by lia.
  rewrite !(decide_True (P := y + 1 > 0)) by lia. split.
  - replace (Z.to_nat (y + 1)) with (S (Z.to_nat y)) by lia.
    by apply (join_after_split _ _ _ t).
  - replace (y + 1 - 1) with y by lia. f_equal.
    unfold Spec.splitLine. rewrite Ht.
    rewrite list_lookup_middle by (rewrite length_take; apply lookup_lt_Some in Ht; lia).
    simpl. unfold Zlen in *. rewrite length_take. lia.
Qed.

(** X20.  A byte typed and taken back, a line broken and joined again.
    From a state of the session in version 0.3, and from a well-formed
    state in version 0.1: inserting a byte at the cursor and then
    pressing Backspace, and likewise pressing Enter and then Backspace,
    gives back the text line for line and the cursor at its old place.
    The buffer is dirty afterwards all the same. *)
Theorem typing_is_undone_by_backspace (e3 : V3.Editor) (e1 : V1.Editor) (c : Z) :
  (V3.inv e3 →
   (∃ a b, V3.editor_insert_char e3 c = Ok a ∧ V3.editor_backspace a = Ok b ∧
           text (buf (V3.doc b)) = text (buf (V3.doc e3)) ∧
           V3.cy (V3.view b) = V3.cy (V3.view e3) ∧
           V3.cx (V3.view b) = V3.cx (V3.view e3) ∧ dirty (V3.doc b) = true) ∧
   (∃ a b, V3.editor_insert_newline e3 = Ok a ∧ V3.editor_backspace a = Ok b ∧
           text (buf (V3.doc b)) = text (buf (V3.doc e3)) ∧
           V3.cy (V3.view b) = V3.cy (V3.view e3) ∧
           V3.cx (V3.view b) = V3.cx (V3.view e3) ∧ dirty (V3.doc b) = true))
  ∧
  (wf1 e1 →
   (∃ a b, V1.insert_char e1 c = Ok a ∧ V1.backspace_op a = Ok b ∧
           text (buf (V1.doc b)) = text (buf (V1.doc e1)) ∧
           V1.cy (V1.view b) = V1.cy (V1.view e1) ∧
           V1.cx (V1.view b) = V1.cx (V1.view e1) ∧ dirty (V1.doc b) = true) ∧
   (∃ a b, V1.insert_newline e1 = Ok a ∧ V1.backspace_op a = Ok b ∧
           text (buf (V1.doc b)) = text (buf (V1.doc e1)) ∧
           V1.cy (V1.view b) = V1.cy (V1.view e1) ∧
           V1.cx (V1.view b) = V1.cx (V1.view e1) ∧ dirty (V1.doc b) = true)).
Proof.
  split.
  - intros Hi. destruct (inv_elim e3 Hi) as (Hok & Hy & _ & _ & t & Ht & _ & Hx).
    split.
    + destruct (editor_insert_char_spec e3 c Hi)
        as (t' & a & _ & Ha & Hia & Hda & HTa & Hxa & Hya).
      destruct (editor_backspace_spec a Hia) as (ta & b & _ & Hb & _ & Hcase).
      destruct (v3_backspace_text a Hia) as (b' & Hb' & HTb & Hcb).
      rewrite Hb in Hb'. injection Hb' as <-.
      rewrite HTa, Hxa, Hya in HTb, Hcb.
      destruct (backspace_after_insert (text (buf (V3.doc e3))) (V3.cy (V3.view e3))
                  (V3.cx (V3.view e3)) t c ltac:(lia) Ht Hx) as [E1 E2].
      rewrite E1 in HTb. rewrite E2 in Hcb. injection Hcb as Hcy Hcx.
      exists a, b. split; [done|]. split; [done|]. split; [done|].
      split; [done|]. split; [done|].
      rewrite decide_True in Hcase by lia. by destruct Hcase.
    + destruct (editor_insert_newline_spec e3 Hi) as (a & Ha & Hia & Hda & HTa & Hxa & Hya).
      destruct (editor_backspace_spec a Hia) as (ta & b & _ & Hb & _ & Hcase).
      destruct (v3_backspace_text a Hia) as (b' & Hb' & HTb & Hcb).
      rewrite Hb in Hb'. injection Hb' as <-.
      rewrite HTa, Hxa, Hya in HTb, Hcb.
      destruct (backspace_after_newline (text (buf (V3.doc e3))) (V3.cy (V3.view e3))
                  (V3.cx (V3.view e3)) t ltac:(lia) Ht Hx) as [E1 E2].
      rewrite E1 in HTb. rewrite E2 in Hcb. injection Hcb as Hcy Hcx.
      exists a, b. split; [done|]. split; [done|]. split; [done|].
      split; [done|]. split; [done|].
      rewrite decide_False in Hcase by lia. rewrite decide_True in Hcase by lia.
      by destruct Hcase.
  - intros Hw. destruct (wf1_elim e1 Hw) as (Hok & Hy & t & Ht & _ & Hx).
    split.
    + destruct (insert_char_spec e1 c Hw)
        as (t' & a & _ & Ha & Hwa & Hda & HTa & Hxa & Hya & _).
      destruct (backspace_op_spec a Hwa) as (b & Hb & Hwb & HTb & Hcb & _).
      rewrite HTa, Hxa, Hya in HTb, Hcb.
      destruct (backspace_after_insert (text (buf (V1.doc e1))) (V1.cy (V1.view e1))
                  (V1.cx (V1.view e1)) t c ltac:(lia) Ht Hx) as [E1 E2].
      rewrite E1 in HTb. rewrite E2 in Hcb. injection Hcb as Hcy Hcx.
      exists a, b. split; [done|]. split; [done|]. split; [done|].
      split; [done|]. split; [done|].
      revert Hb. unfold V1.backspace_op. cbv zeta.
      rewrite decide_True by lia. rewrite v1_delete_char.
      rewrite decide_False by (destruct Hwa as [_ [? _]]; lia).
      destruct (delete_char_refines (V1.doc a) (V1.cy (V1.view a)) (V1.cx (V1.view a))
                  ltac:(by destruct Hwa) ltac:(by destruct Hwa as [_ [? _]]))
        as (ta & d' & Hta & -> & _ & Hd').
      rewrite HTa, Hya, (insertChar_lookup _ _ _ _ t Ht) in Hta.
      injection Hta as <-.
      rewrite decide_True in Hd'.
      * simpl. intros [= <-]. simpl. by destruct Hd'.
      * rewrite Hxa, Zlen_app, Zlen_cons. unfold Zlen in *.
        rewrite length_take, length_drop. lia.
    + destruct (insert_newline_spec e1 Hw)
        as (t' & a & _ & Ha & Hwa & Hda & HTa & Hxa & Hya & _).
      destruct (backspace_op_spec a Hwa) as (b & Hb & Hwb & HTb & Hcb & _).
      rewrite HTa, Hxa, Hya in HTb, Hcb.
      destruct (backspace_after_newline (text (buf (V1.doc e1))) (V1.cy (V1.view e1))
                  (V1.cx (V1.view e1)) t ltac:(lia) Ht Hx) as [E1 E2].
      rewrite E1 in HTb. rewrite E2 in Hcb. injection Hcb as Hcy Hcx.
      exists a, b. split; [done|]. split; [done|]. split; [done|].
      split; [done|]. split; [done|].
      revert Hb. unfold V1.backspace_op. cbv zeta.
      rewrite decide_False by lia. rewrite decide_True by lia.
      destruct (slot _ _) as [pl|]; [|done]. simpl.
      destruct (join_refines (V1.doc a) (V1.cy (V1.view a)) ltac:(by destruct Hwa)
                  ltac:(destruct Hwa as [_ [? _]]; lia)) as (d' & -> & _ & Hd' & _).
      simpl. by intros [= <-].
Qed.

Lemma typing_is_undone_by_backspace_witness :
  (∃ a b, V3.editor_insert_char sample_two_lines3 120 = Ok a ∧
          V3.editor_backspace a = Ok b ∧
          text (buf (V3.doc b)) = text (buf (V3.doc sample_two_lines3)) ∧
          V3.cy (V3.view b) = V3.cy (V3.view sample_two_lines3) ∧
          V3.cx (V3.view b) = V3.cx (V3.view sample_two_lines3) ∧
          dirty (V3.doc b) = true)
  ∧
  (∃ a b, V1.insert_newline sample_two_lines1 = Ok a ∧ V1.backspace_op a = Ok b ∧
          text (buf (V1.doc b)) = text (buf (V1.doc sample_two_lines1)) ∧
          V1.cy (V1.view b) = V1.cy (V1.view sample_two_lines1) ∧
          V1.cx (V1.view b) = V1.cx (V1.view sample_two_lines1) ∧
          dirty (V1.doc b) = true).
Proof.
  destruct (typing_is_undone_by_backspace sample_two_lines3 sample_two_lines1 120)
    as [H3 H1].
  split.
  - apply H3.
    apply (inv_intro _ [99; 100]);
      [sample_buf_ok | simpl; lia | reflexivity | unfold Zlen; simpl; lia
      | simpl; lia | by left].
  - apply H1. split; [sample_buf_ok|].
    split; simpl; [lia|]. exists 2. split; [reflexivity|lia].
Defined.

(** * Bytes that are no key *)

Lemma v3_dispatch_no_branch os e c :
  c < 0 → V3.main_dispatch os e c = Ok (os, e, false, false).
Proof.
  intros Hc. unfold V3.main_dispatch.
  assert (H31 : ∀ k, 0 ≤ CTRL_KEY k) by (intros k; unfold CTRL_KEY; by apply Z.land_nonneg; right).
  pose proof (H31 113). pose proof (H31 115). pose proof (H31 102). pose proof (H31 110).
  rewrite !decide_False by lia.
  unfold isprint. by rewrite bool_decide_eq_false_2 by lia.
Qed.

Lemma v1_dispatch_no_branch os e c :
  c < 0 → V1.main_dispatch os e c = Ok (os, e, false).
Proof.
  intros Hc. unfold V1.main_dispatch.
  assert (H31 : ∀ k, 0 ≤ CTRL_KEY k) by (intros k; unfold CTRL_KEY; by apply Z.land_nonneg; right).
  pose proof (H31 113). pose proof (H31 115).
  rewrite !decide_False by lia.
  unfold isprint. by rewrite bool_decide_eq_false_2 by lia.
Qed.

Lemma read_byte_key b rest :
  b ≠ 27 →
  V3.editor_read_key (RByte b :: rest) = Ok (int_of_char b, rest) ∧
  V1.editor_read_key (RByte b :: rest) = Ok (int_of_char b, rest).
Proof.
  intros Hb. unfold V3.editor_read_key, V1.editor_read_key. simpl.
  rewrite decide_True by done. rewrite decide_False by done. done.
Qed.

(** X21.  Input outside ASCII is dropped.  A byte from 128 to 255, such
    as every byte of a UTF-8 sequence, is read by [editor_read_key] as a
    negative [char]; in the dispatcher no branch takes it, and it is no
    printable character.  In version 0.3 the round that reads such a
    byte consumes it, leaves the document, the dirty flag and the cursor
    as they were and does not ask for a redraw.  In version 0.1 the
    decoder consumes the byte and the dispatcher hands the state back
    untouched. *)
Theorem bytes_above_ascii_are_dropped (os : OS) (b : Z) (rest : list rd)
    (e3 : V3.Editor) (e1 : V1.Editor) :
  128 ≤ b ≤ 255 → stdin os = RByte b :: rest →
  V3.main_dispatch (set_stdin os rest) e3 (int_of_char b)
  = Ok (set_stdin os rest, e3, false, false) ∧
  (∃ os' e', V3.main_iter os e3 = Ok (os', e', false) ∧
             same_but_screen e3 e' ∧ stdin os' = rest ∧ fs os' = fs os) ∧
  V1.editor_read_key (stdin os) = Ok (int_of_char b, rest) ∧
  V1.main_dispatch (set_stdin os rest) e1 (int_of_char b)
  = Ok (set_stdin os rest, e1, false).
Proof.
  intros Hb Hin.
  assert (Hc : int_of_char b < 0).
  { unfold int_of_char. rewrite decide_False by lia. lia. }
  destruct (read_byte_key b rest ltac:(lia)) as [Hk3 Hk1].
  split; [by apply v3_dispatch_no_branch|]. split; [|split].
  - unfold V3.main_iter. rewrite Hin, Hk3. cbn [mbind res_bind].
    rewrite v3_dispatch_no_branch by done. cbn [mbind res_bind].
    pose proof (dimensions_same (set_stdin os rest) e3) as Hs.
    assert (Hos : stdin (V3.editor_update_dimensions (set_stdin os rest) e3).1.1 = rest
                  ∧ fs (V3.editor_update_dimensions (set_stdin os rest) e3).1.1 = fs os).
    { assert (Hg : stdin (V3.get_window_size (set_stdin os rest)).2 = rest
                   ∧ fs (V3.get_window_size (set_stdin os rest)).2 = fs os).
      { unfold V3.get_window_size. simpl. by destruct (winsz os). }
      unfold V3.editor_update_dimensions.
      destruct (V3.get_window_size (set_stdin os rest)) as [w os1]. simpl in Hg.
      by destruct w as [[r c]|]. }
    destruct (V3.editor_update_dimensions (set_stdin os rest) e3) as [[os2 e2] ch].
    simpl in Hs, Hos. destruct Hos as [Hos1 Hos2].
    destruct (ch || false); eexists _, _; (split; [reflexivity|]); split; try done.
    eapply same_but_screen_trans; [exact Hs|apply draw_same].
  - by rewrite Hin.
  - by apply v1_dispatch_no_branch.
Qed.

Lemma bytes_above_ascii_are_dropped_witness :
  V3.main_dispatch (set_stdin (mkOS [RByte 195; RByte 169] ∅ [] []) [RByte 169])
    sample_editor3 (int_of_char 195)
  = Ok (set_stdin (mkOS [RByte 195; RByte 169] ∅ [] []) [RByte 169],
        sample_editor3, false, false) ∧
  (∃ os' e', V3.main_iter (mkOS [RByte 195; RByte 169] ∅ [] []) sample_editor3
             = Ok (os', e', false) ∧
             same_but_screen sample_editor3 e' ∧ stdin os' = [RByte 169] ∧
             fs os' = fs (mkOS [RByte 195; RByte 169] ∅ [] [])) ∧
  V1.editor_read_key (stdin (mkOS [RByte 195; RByte 169] ∅ [] []))
  = Ok (int_of_char 195, [RByte 169]) ∧
  V1.main_dispatch (set_stdin (mkOS [RByte 195; RByte 169] ∅ [] []) [RByte 169])
    sample_editor1 (int_of_char 195)
  = Ok (set_stdin (mkOS [RByte 195; RByte 169] ∅ [] []) [RByte 169],
        sample_editor1, false).
Proof.
  apply (bytes_above_ascii_are_dropped (mkOS [RByte 195; RByte 169] ∅ [] []) 195
           [RByte 169] sample_editor3 sample_editor1).
  - lia.
  - reflexivity.
Defined.

(** * Search: what a match is *)

Lemma starts_with_prefix q h : starts_with q h = true → ∃ r, h = q ++ r.
Proof.
  revert h. induction q as [|x q IH]; intros h; simpl; [by exists h|].
  destruct h as [|y h]; [done|].
  intros [Hx Hq]%andb_prop. apply bool_decide_eq_true in Hx as ->.
  destruct (IH h Hq) as [r ->]. by exists r.
Qed.

(** What [strstr] reports inside the visible part of a line is an
    occurrence in the line. *)
Lemma visible_match t k q i :
  0 ≤ k ≤ Zlen t → strstr_val (visible t k) q = Some i →
  0 ≤ i ∧ k + i + Zlen q ≤ Zlen t ∧
  take (length q) (drop (Z.to_nat (k + i)) t) = q.
Proof.
  intros Hk E. apply strstr_val_Some in E as (H0 & H1 & Hs).
  pose proof (visible_length t k Hk) as Hv.
  split; [done|]. split; [lia|].
  destruct (starts_with_prefix _ _ Hs) as [r Hr].
  destruct (cstring_prefix (drop (Z.to_nat k) t ++ [0])) as [r' Hr'].
  fold (visible t k) in Hr'.
  assert (Hd : drop (Z.to_nat i) (drop (Z.to_nat k) t ++ [0]) = q ++ r ++ r').
  { rewrite Hr', drop_app_le by (unfold Zlen in *; lia). by rewrite Hr, <- app_assoc. }
  rewrite drop_app_le in Hd by (unfold Zlen in *; rewrite length_drop; lia).
  rewrite drop_drop in Hd.
  replace (Z.to_nat k + Z.to_nat i)%nat with (Z.to_nat (k + i)) in Hd by lia.
  apply (f_equal (take (length q))) in Hd.
  rewrite take_app_le in Hd by (unfold Zlen in *; rewrite length_drop; lia).
  by rewrite take_app_length in Hd.
Qed.

Lemma scan_rows_sound rows q r c p :
  0 ≤ c → scan_rows rows q r c = Some p →
  ∃ t, rows !! Z.to_nat (p.1 - r) = Some t ∧ r ≤ p.1 ∧ 0 ≤ p.2 ∧
       p.2 + Zlen q ≤ Zlen t ∧
       take (length q) (drop (Z.to_nat p.2) t) = q.
Proof.
  revert r c. induction rows as [|t rest IH]; intros r c Hc; simpl; [done|].
  pose proof (Zlen_nonneg t) as Ht0.
  assert (Hrec : scan_rows rest q (r + 1) 0 = Some p →
    ∃ t0, (t :: rest) !! Z.to_nat (p.1 - r) = Some t0 ∧ r ≤ p.1 ∧ 0 ≤ p.2 ∧
          p.2 + Zlen q ≤ Zlen t0 ∧
          take (length q) (drop (Z.to_nat p.2) t0) = q).
  { intros H. destruct (IH (r + 1) 0 ltac:(lia) H) as (t0 & Ht & H1 & H2 & H3 & H4).
    exists t0.
    replace (Z.to_nat (p.1 - r)) with (S (Z.to_nat (p.1 - (r + 1)))) by lia.
    simpl. repeat split; try done. lia. }
  case_decide as HL; [done|].
  set (k := if decide (c < Zlen t) then c else Zlen t).
  assert (Hk : 0 ≤ k ≤ Zlen t) by (subst k; case_decide; lia).
  destruct (strstr_val (visible t k) q) as [i|] eqn:E; [|done].
  intros [= <-]. simpl.
  destruct (visible_match t k q i Hk E) as (H0 & H1 & H2).
  exists t. replace (r - r) with 0 by lia. simpl. repeat split; try done; lia.
Qed.

Lemma scan_text_sound T q r c p :
  0 ≤ r → 0 ≤ c → scan_text T q r c = Some p →
  0 ≤ p.1 ∧ 0 ≤ p.2 ∧
  ∃ t, T !! Z.to_nat p.1 = Some t ∧ p.2 + Zlen q ≤ Zlen t ∧
       take (length q) (drop (Z.to_nat p.2) t) = q.
Proof.
  intros Hr Hc. unfold scan_text.
  destruct (scan_rows (drop _ T) q r c) as [p'|] eqn:E.
  - intros [= ->].
    destruct (scan_rows_sound _ _ _ _ _ Hc E) as (t & Ht & H1 & H2 & H3 & H4).
    split; [lia|]. split; [done|]. exists t. rewrite lookup_drop in Ht.
    replace (Z.to_nat r + Z.to_nat (p.1 - r))%nat with (Z.to_nat p.1) in Ht by lia.
    done.
  - intros E'.
    destruct (scan_rows_sound T q 0 0 p ltac:(lia) E') as (t & Ht & H1 & H2 & H3 & H4).
    split; [lia|]. split; [done|]. exists t.
    replace (p.1 - 0) with p.1 in Ht by lia. done.
Qed.

(** X22.  What [editor_find_next] reports is there.  From a state of the
    session, when the function returns true the query is not empty, the
    cursor is on a line of the unchanged document at a column where the
    bytes of the query stand, one after the other, within the cached
    length of the line; the last match and the highlight are set to this
    place, the highlight as long as the query, and the preferred column
    is the cursor column.  This holds also for lines with NUL bytes. *)
Theorem find_next_lands_on_the_query (e : V3.Editor) (from_current : bool)
    (e' : V3.Editor) :
  V3.inv e → V3.editor_find_next e from_current = Ok (e', true) →
  V3.last_query e ≠ [] ∧ V3.doc e' = V3.doc e ∧ V3.last_query e' = V3.last_query e ∧
  0 ≤ V3.cy (V3.view e') ∧ 0 ≤ V3.cx (V3.view e') ∧
  (∃ t, text (buf (V3.doc e)) !! Z.to_nat (V3.cy (V3.view e')) = Some t ∧
        V3.cx (V3.view e') + Zlen (V3.last_query e) ≤ Zlen t ∧
        take (length (V3.last_query e)) (drop (Z.to_nat (V3.cx (V3.view e'))) t)
        = V3.last_query e) ∧
  V3.pref_cx (V3.view e') = V3.cx (V3.view e') ∧
  (V3.last_match_row e', V3.last_match_col e') = (V3.cy (V3.view e'), V3.cx (V3.view e')) ∧
  (V3.hl_row e', V3.hl_col e', V3.hl_len e')
  = (V3.cy (V3.view e'), V3.cx (V3.view e'), Zlen (V3.last_query e)).
Proof.
  intros Hi He.
  destruct (decide (V3.last_query e = [])) as [Hq|Hq].
  { revert He. unfold V3.editor_find_next. by rewrite decide_True. }
  rewrite (editor_find_next_text e from_current Hi Hq) in He.
  destruct (find_start_nonneg e from_current Hi Hq) as [Hr Hc].
  destruct (scan_text _ _ _ _) as [[r col]|] eqn:E; [|done].
  injection He as <-.
  destruct (scan_text_sound _ _ _ _ _ Hr Hc E) as (H1 & H2 & t & Ht & Hl & Hm).
  simpl in *. split; [done|]. split; [done|]. split; [done|].
  split; [done|]. split; [done|]. split; [eauto|]. done.
Qed.

Lemma find_next_lands_on_the_query_witness :
  V3.last_query sample_search3 ≠ [] ∧
  V3.doc (V3.found_at sample_search3 0 0) = V3.doc sample_search3 ∧
  V3.last_query (V3.found_at sample_search3 0 0) = V3.last_query sample_search3 ∧
  0 ≤ V3.cy (V3.view (V3.found_at sample_search3 0 0)) ∧
  0 ≤ V3.cx (V3.view (V3.found_at sample_search3 0 0)) ∧
  (∃ t, text (buf (V3.doc sample_search3))
          !! Z.to_nat (V3.cy (V3.view (V3.found_at sample_search3 0 0))) = Some t ∧
        V3.cx (V3.view (V3.found_at sample_search3 0 0)) + Zlen (V3.last_query sample_search3)
        ≤ Zlen t ∧
        take (length (V3.last_query sample_search3))
          (drop (Z.to_nat (V3.cx (V3.view (V3.found_at sample_search3 0 0)))) t)
        = V3.last_query sample_search3) ∧
  V3.pref_cx (V3.view (V3.found_at sample_search3 0 0))
  = V3.cx (V3.view (V3.found_at sample_search3 0 0)) ∧
  (V3.last_match_row (V3.found_at sample_search3 0 0),
   V3.last_match_col (V3.found_at sample_search3 0 0))
  = (V3.cy (V3.view (V3.found_at sample_search3 0 0)),
     V3.cx (V3.view (V3.found_at sample_search3 0 0))) ∧
  (V3.hl_row (V3.found_at sample_search3 0 0), V3.hl_col (V3.found_at sample_search3 0 0),
   V3.hl_len (V3.found_at sample_search3 0 0))
  = (V3.cy (V3.view (V3.found_at sample_search3 0 0)),
     V3.cx (V3.view (V3.found_at sample_search3 0 0)),
     Zlen (V3.last_query sample_search3)).
Proof.
  apply (find_next_lands_on_the_query sample_search3 true).
  - apply (inv_intro _ [97; 98; 97; 98]);
      [sample_buf_ok | simpl; lia | reflexivity | unfold Zlen; simpl; lia
      | simpl; lia | right; simpl; lia].
  - vm_compute. reflexivity.
Defined.

Lemma starts_with_app q r : starts_with q (q ++ r) = true.
Proof.
  induction q as [|x q IH]; [done|]. simpl.
  by rewrite bool_decide_eq_true_2, IH.
Qed.

Lemma occurs_at_take t q c :
  q ≠ [] →
  occurs_at t q c = true ↔ take (length q) (drop c t) = q.
Proof.
  intros Hq. unfold occurs_at. split.
  - intros [r Hr]%starts_with_prefix. rewrite Hr. by rewrite take_app_length.
  - intros H. rewrite <- (take_drop (length q) (drop c t)), H. apply starts_with_app.
Qed.

Lemma elem_of_row_occurrences t q (c : nat) :
  q ≠ [] →
  c ∈ row_occurrences t q ↔ take (length q) (drop c t) = q.
Proof.
  intros Hq. unfold row_occurrences.
  rewrite list_elem_of_filter, elem_of_seq, (occurs_at_take _ _ _ Hq).
  split; [by intros [? _]|]. intros H. split; [done|]. split; [lia|]. simpl.
  destruct (decide (c < length t)%nat); [done|].
  rewrite drop_ge in H by lia. destruct q; [done|discriminate].
Qed.

Lemma elem_of_occurrences_from rows q r (p : Z * Z) :
  q ≠ [] →
  p ∈ occurrences_from rows q r ↔
  r ≤ p.1 ∧ 0 ≤ p.2 ∧
  ∃ t, rows !! Z.to_nat (p.1 - r) = Some t ∧
       take (length q) (drop (Z.to_nat p.2) t) = q.
Proof.
  intros Hq. revert r. induction rows as [|t rest IH]; intros r; simpl.
  - split; [by intros ?%elem_of_nil|]. by intros (_ & _ & t & ? & _).
  - rewrite elem_of_app, list_elem_of_fmap, IH. split.
    + intros [(c & -> & Hc)|(H1 & H2 & t' & Ht' & Hm)].
      * apply (elem_of_row_occurrences _ _ _ Hq) in Hc. simpl.
        split; [lia|]. split; [lia|]. exists t.
        replace (r - r) with 0 by lia. rewrite Nat2Z.id. done.
      * split; [lia|]. split; [done|]. exists t'.
        replace (Z.to_nat (p.1 - r)) with (S (Z.to_nat (p.1 - (r + 1)))) by lia.
        done.
    + intros (H1 & H2 & t' & Ht' & Hm).
      destruct (decide (p.1 = r)) as [E|E].
      * left. exists (Z.to_nat p.2). rewrite E in Ht'.
        replace (r - r) with 0 in Ht' by lia. simpl in Ht'. injection Ht' as <-.
        split.
        -- destruct p as [p1 p2]. simpl in *. f_equal; lia.
        -- by apply (elem_of_row_occurrences _ _ _ Hq).
      * right. split; [lia|]. split; [done|]. exists t'.
        replace (Z.to_nat (p.1 - r)) with (S (Z.to_nat (p.1 - (r + 1)))) in Ht' by lia.
        done.
Qed.

(** X23.  What [editor_find_next] finds when no line holds a NUL byte.
    The occurrences of a query are the places (row, column) of the text
    where its bytes stand, listed in document order.  From a state of the
    session with a non-empty query, the function returns false and
    leaves the state alone exactly when there is no occurrence;
    otherwise it goes to the first occurrence at or after its starting
    point, and when there is none to the first occurrence of the
    document. *)
Theorem find_next_finds_the_next_occurrence (e : V3.Editor) (from_current : bool) :
  V3.inv e → nulfree (text (buf (V3.doc e))) → V3.last_query e ≠ [] →
  (∀ p, p ∈ occurrences (text (buf (V3.doc e))) (V3.last_query e) ↔
        0 ≤ p.1 ∧ 0 ≤ p.2 ∧
        ∃ t, text (buf (V3.doc e)) !! Z.to_nat p.1 = Some t ∧
             take (length (V3.last_query e)) (drop (Z.to_nat p.2) t) = V3.last_query e) ∧
  StronglySorted pos_lt (occurrences (text (buf (V3.doc e))) (V3.last_query e)) ∧
  V3.editor_find_next e from_current
  = Ok (match head (filter (pos_le (V3.find_start e from_current))
                      (occurrences (text (buf (V3.doc e))) (V3.last_query e))) with
        | Some (r, col) => (V3.found_at e r col, true)
        | None =>
            match head (occurrences (text (buf (V3.doc e))) (V3.last_query e)) with
            | Some (r, col) => (V3.found_at e r col, true)
            | None => (e, false)
            end
        end).
Proof.
  intros Hi Hnul Hq. split; [|split].
  - intros p. unfold occurrences.
    rewrite (elem_of_occurrences_from _ _ _ _ Hq).
    by replace (p.1 - 0) with p.1 by lia.
  - apply occurrences_from_sorted.
  - rewrite (editor_find_next_first _ _ Hnul Hq e from_current Hi eq_refl eq_refl).
    by destruct (head (filter _ _)).
Qed.

Lemma find_next_finds_the_next_occurrence_witness :
  V3.editor_find_next (V3.found_at sample_search3 2 1) false
  = Ok (match head (filter (pos_le (V3.find_start (V3.found_at sample_search3 2 1) false))
                      (occurrences (text (buf (V3.doc (V3.found_at sample_search3 2 1))))
                         (V3.last_query (V3.found_at sample_search3 2 1)))) with
        | Some (r, col) => (V3.found_at (V3.found_at sample_search3 2 1) r col, true)
        | None =>
            match head (occurrences (text (buf (V3.doc (V3.found_at sample_search3 2 1))))
                          (V3.last_query (V3.found_at sample_search3 2 1))) with
            | Some (r, col) => (V3.found_at (V3.found_at sample_search3 2 1) r col, true)
            | None => (V3.found_at sample_search3 2 1, false)
            end
        end).
Proof.
  apply (find_next_finds_the_next_occurrence (V3.found_at sample_search3 2 1) false).
  - apply (inv_intro _ [120; 97; 98]);
      [sample_buf_ok | simpl; lia | reflexivity | unfold Zlen; simpl; lia
      | simpl; lia | right; simpl; lia].
  - vm_compute. repeat first [apply Forall_nil_2 | apply Forall_cons_2 | done].
  - discriminate.
Defined.

(** * Start-up *)

Lemma dimensions_os_frame os e :
  stdin (V3.editor_update_dimensions os e).1.1 = stdin os ∧
  fs (V3.editor_update_dimensions os e).1.1 = fs os ∧
  faults (V3.editor_update_dimensions os e).1.1 = faults os.
Proof.
  assert (Hg : stdin (V3.get_window_size os).2 = stdin os
               ∧ fs (V3.get_window_size os).2 = fs os
               ∧ faults (V3.get_window_size os).2 = faults os).
  { unfold V3.get_window_size. by destruct (winsz os). }
  unfold V3.editor_update_dimensions.
  destruct (V3.get_window_size os) as [w os1]. simpl in Hg.
  by destruct w as [[r c]|].
Qed.

(** X24.  The initialisation of version 0.3 between the switch to raw
    mode and the first writes to the screen (README.md 709-720):
    [buffer_init], the [editor_open] of the argument if there is one, the
    reset of the cursor, [editor_update_dimensions], [editor_set_status]
    and the scroll that opens [editor_draw_screen].  None of these
    fails, whether a file name is given or not and whether the file
    exists or not, and they read no key and change no file.  The buffer
    holds the lines of the file, or one empty line when there is no file;
    it is not dirty; the cursor is at the origin; the file name is the
    argument cut to 255 bytes, or untitled.txt; the help text is the
    status message; and the state satisfies the invariant of the session.
    Not covered are the terminal set-up before these statements, which
    can end the process, and the writes of the first draw, which end it
    when one of them fails. *)
Theorem start_up_loads_the_file (os : OS) (arg : option string) :
  ∃ os' e,
    V3.main_init os arg = Ok (os', e) ∧
    stdin os' = stdin os ∧ fs os' = fs os ∧
    text (buf (V3.doc e))
    = match arg with
      | Some path =>
          match fs os !! path with Some content => file_text content | None => [[]] end
      | None => [[]]
      end ∧
    V3.filename e
    = match arg with Some path => snprintf256 path | None => "untitled.txt"%string end ∧
    dirty (V3.doc e) = false ∧
    V3.cx (V3.view e) = 0 ∧ V3.cy (V3.view e) = 0 ∧
    V3.statusmsg e = MsgHelp ∧ V3.quit_times_needed e = 1 ∧
    V3.last_query e = [] ∧ V3.inv e.
Proof.
  assert (Hrest : ∀ e1 : V3.Editor,
            ∃ os' e,
              (let e := V3.set_view e1 (V3.mkView 0 0 0 0 (V3.screenrows (V3.view e1))
                                          (V3.screencols (V3.view e1)) 0) in
               let '(os, e, _) := V3.editor_update_dimensions os e in
               Ok (os, V3.editor_draw_screen (V3.editor_set_status e MsgHelp)))
              = Ok (os', e) ∧
              stdin os' = stdin os ∧ fs os' = fs os ∧
              V3.doc e = V3.doc e1 ∧ V3.filename e = V3.filename e1 ∧
              V3.cx (V3.view e) = 0 ∧ V3.cy (V3.view e) = 0 ∧
              V3.statusmsg e = MsgHelp ∧
              V3.quit_times_needed e = V3.quit_times_needed e1 ∧
              V3.last_query e = V3.last_query e1).
  { intros e1. cbv zeta.
    set (e2 := V3.set_view e1 _).
    pose proof (dimensions_same os e2) as Hs.
    destruct (dimensions_os_frame os e2) as (Hin & Hfs & _).
    destruct (V3.editor_update_dimensions os e2) as [[os3 e3] ch]. simpl in *.
    eexists _, _. split; [reflexivity|].
    assert (Hs' : same_but_screen e2
                    (V3.editor_draw_screen (V3.editor_set_status e3 MsgHelp))).
    { eapply same_but_screen_trans; [exact Hs|].
      eapply same_but_screen_trans; [apply status_same|apply draw_same]. }
    destruct Hs' as (H1&H2&H3&H4&_&H6&_&_&_&_&_&H12).
    split; [done|]. split; [done|]. split; [exact H1|]. split; [exact H2|].
    split; [exact H3|]. split; [exact H4|]. split; [done|]. split; [exact H12|].
    exact H6. }
  unfold V3.main_init.
  set (e0 := V3.set_doc V3.globals0 _).
  destruct arg as [path|]; simpl.
  - unfold V3.editor_open.
    destruct (fs os !! path) as [content|] eqn:Ef.
    + destruct (load_file_refines content) as (d & Hl & Hok & Hd & HT).
      rewrite Hl. simpl.
      destruct (Hrest (V3.set_filename (V3.set_doc (V3.set_filename e0 (snprintf256 path)) d)
                         (snprintf256 path)))
        as (os' & e & He & H1 & H2 & H3 & H4 & H5 & H6 & H7 & H8 & H9).
      exists os', e. split; [exact He|]. rewrite H3, H4, H8, H9. simpl.
      repeat (split; [done|]).
      by apply (main_init_inv os (Some path) os'); unfold V3.main_init, V3.editor_open;
        simpl; rewrite Ef, Hl.
    + simpl.
      destruct (Hrest (V3.set_filename (V3.set_filename e0 (snprintf256 path))
                         (snprintf256 path)))
        as (os' & e & He & H1 & H2 & H3 & H4 & H5 & H6 & H7 & H8 & H9).
      exists os', e. split; [exact He|]. rewrite H3, H4, H8, H9. simpl.
      repeat (split; [done|]).
      by apply (main_init_inv os (Some path) os'); unfold V3.main_init, V3.editor_open;
        simpl; rewrite Ef.
  - destruct (Hrest e0) as (os' & e & He & H1 & H2 & H3 & H4 & H5 & H6 & H7 & H8 & H9).
    exists os', e. split; [exact He|]. rewrite H3, H4, H8, H9. simpl.
    repeat (split; [done|]).
    by apply (main_init_inv os None os').
Qed.

(** * What goes to the terminal *)

Lemma xwrite_cases ws data :
  xwrite ws data = Err Died ∨ ∃ ws', xwrite ws data = Ok (data, ws').
Proof.
  revert data. induction ws as [|w ws IH]; intros data.
  - right. destruct data; simpl; eauto.
  - destruct data as [|x data]; [right; simpl; eauto|].
    destruct w as [k| |].
    + cbn [xwrite].
      destruct (IH (drop (k `min` length (x :: data)) (x :: data))) as [->|(ws' & ->)];
        [by left|].
      right. exists ws'. cbn [mbind res_bind]. by rewrite take_drop.
    + cbn [xwrite]. apply IH.
    + by left.
Qed.

Lemma xwrite_no_failure ws data :
  WFail ∉ ws → ∃ ws', xwrite ws data = Ok (data, ws').
Proof.
  revert data. induction ws as [|w ws IH]; intros data Hw.
  - destruct data; simpl; eauto.
  - apply not_elem_of_cons in Hw as [Hw1 Hw2].
    destruct data as [|x data]; [simpl; eauto|].
    destruct w as [k| |]; [| |done].
    + cbn [xwrite].
      destruct (IH (drop (k `min` length (x :: data)) (x :: data)) Hw2) as (ws' & ->).
      exists ws'. cbn [mbind res_bind]. by rewrite take_drop.
    + cbn [xwrite]. by apply IH.
Qed.

(** X25.  [xwrite] of version 0.3 never leaves a write half done and
    goes on.  For any finite run of answers of [write], short counts,
    zero counts and interruptions included, after which [write] takes
    all it is offered: either [xwrite] returns after exactly the bytes it
    was given have reached the file descriptor, in their order and once
    each, or the process has ended through [_exit].  When no call of
    [write] fails with an error other than an interruption, it returns. *)
Theorem xwrite_is_all_or_exit (ws : list wr) (data : list Z) :
  (xwrite ws data = Err Died ∨ ∃ ws', xwrite ws data = Ok (data, ws')) ∧
  (WFail ∉ ws → ∃ ws', xwrite ws data = Ok (data, ws')).
Proof. split; [apply xwrite_cases|apply xwrite_no_failure]. Qed.

Lemma xwrite_is_all_or_exit_witness :
  ∃ ws', xwrite [WDone 2; WIntr; WDone 0; WDone 1] [104; 105; 33; 10]
         = Ok ([104; 105; 33; 10], ws').
Proof.
  apply (xwrite_is_all_or_exit [WDone 2; WIntr; WDone 0; WDone 1] [104; 105; 33; 10]).
  rewrite !not_elem_of_cons. repeat split; try discriminate. apply not_elem_of_nil.
Defined.

Lemma wrap32_id z : - 2 ^ 31 ≤ z < 2 ^ 31 → wrap32 z = z.
Proof. intros Hz. unfold wrap32. rewrite Z.mod_small by lia. lia. Qed.

Lemma wrap32_high z : 2 ^ 31 ≤ z < 2 ^ 32 → wrap32 z = z - 2 ^ 32.
Proof.
  intros Hz. unfold wrap32.
  replace (z + 2 ^ 31) with ((z - 2 ^ 31) + 1 * 2 ^ 32) by lia.
  rewrite Z.mod_add by lia. rewrite Z.mod_small by lia. lia.
Qed.

(** X26.  [percent_through] with the cursor on a line of the buffer is a
    number from 1 to 100.  In a buffer of at most 21474836 lines, where
    the product [(cy + 1) * 100] stays inside the 32-bit [int], it is 100
    exactly on the last line.  From 21474837 lines on the product goes
    round: on the last line of a buffer of up to 42949672 lines it is
    negative and the function answers 1. *)
Theorem percent_is_100_on_the_last_line (e : V3.Editor) :
  0 ≤ V3.cy (V3.view e) < count (buf (V3.doc e)) →
  1 ≤ V3.percent_through e ≤ 100 ∧
  (count (buf (V3.doc e)) ≤ 21474836 →
   (V3.percent_through e = 100 ↔ V3.cy (V3.view e) + 1 = count (buf (V3.doc e)))) ∧
  (21474836 < count (buf (V3.doc e)) ≤ 42949672 →
   V3.cy (V3.view e) + 1 = count (buf (V3.doc e)) → V3.percent_through e = 1).
Proof.
  intros Hy. unfold V3.percent_through. cbv zeta.
  set (n := count (buf (V3.doc e))) in *. set (y := V3.cy (V3.view e)) in *.
  split; [|split].
  - repeat case_decide; lia.
  - intros Hn.
    destruct (decide (n <= 1)) as [H1|H1]; [lia|].
    rewrite wrap32_id by lia.
    rewrite Z.quot_div_nonneg by lia.
    assert (Hq : ((y + 1) * 100) `div` n ≤ 100).
    { apply Z.div_le_upper_bound; lia. }
    assert (Hlast : ((y + 1) * 100) `div` n = 100 ↔ y + 1 = n).
    { split.
      - intros E. destruct (decide (y + 1 = n)) as [|Hne]; [done|].
        assert (((y + 1) * 100) `div` n < 100); [|lia].
        apply Z.div_lt_upper_bound; lia.
      - intros <-. rewrite Z.mul_comm. apply Z.div_mul. lia. }
    repeat case_decide; lia.
  - intros Hn Hlast.
    rewrite decide_False by lia.
    rewrite wrap32_high by lia.
    assert (Hneg : Z.quot ((y + 1) * 100 - 2 ^ 32) n ≤ 0).
    { replace ((y + 1) * 100 - 2 ^ 32) with (- (2 ^ 32 - (y + 1) * 100)) by lia.
      rewrite Z.quot_opp_l by lia.
      pose proof (Z.quot_pos (2 ^ 32 - (y + 1) * 100) n ltac:(lia) ltac:(lia)). lia. }
    repeat case_decide; lia.
Qed.

Lemma percent_is_100_on_the_last_line_witness :
  1 ≤ V3.percent_through sample_search3 ≤ 100 ∧
  (count (buf (V3.doc sample_search3)) ≤ 21474836 →
   (V3.percent_through sample_search3 = 100
    ↔ V3.cy (V3.view sample_search3) + 1 = count (buf (V3.doc sample_search3)))) ∧
  (21474836 < count (buf (V3.doc sample_search3)) ≤ 42949672 →
   V3.cy (V3.view sample_search3) + 1 = count (buf (V3.doc sample_search3)) →
   V3.percent_through sample_search3 = 1).
Proof. apply (percent_is_100_on_the_last_line sample_search3). simpl. lia. Defined.

(** ** A line on the screen *)

Lemma window_length t left maxw :
  0 ≤ left → 0 ≤ maxw →
  Zlen (window t left maxw)
  = (if decide ((if decide (Zlen t - left < 0) then 0 else Zlen t - left) > maxw)
     then maxw else if decide (Zlen t - left < 0) then 0 else Zlen t - left).
Proof.
  intros Hl Hm. unfold window, Zlen. rewrite length_take, length_drop.
  repeat case_decide; lia.
Qed.

Lemma peek_window t s left maxw i n :
  0 ≤ left ≤ Zlen t → 0 ≤ i → 0 ≤ n → i + n ≤ Zlen (window t left maxw) →
  peek (t ++ 0 :: s) (left + i) n
  = Ok (take (Z.to_nat n) (drop (Z.to_nat i) (window t left maxw))).
Proof.
  intros Hl Hi Hn Hw.
  assert (Hlen : i + n ≤ Z.of_nat (Z.to_nat maxw `min` (length t - Z.to_nat left))).
  { revert Hw. unfold window, Zlen. by rewrite length_take, length_drop. }
  unfold peek. rewrite decide_True.
  2:{ rewrite Zlen_app. unfold Zlen in *. simpl. lia. }
  f_equal. unfold window. unfold Zlen in Hl.
  rewrite skipn_firstn_comm, take_take, drop_drop.
  replace (Z.to_nat n `min` (Z.to_nat maxw - Z.to_nat i))%nat with (Z.to_nat n) by lia.
  replace (Z.to_nat left + Z.to_nat i)%nat with (Z.to_nat (left + i)) by lia.
  rewrite drop_app_le by lia.
  rewrite take_app_le; [done|]. rewrite length_drop. lia.
Qed.

Lemma line_block b row t :
  buf_ok b → 0 ≤ row → text b !! Z.to_nat row = Some t →
  slot (len b) row = Ok (Zlen t) ∧ ∃ s, slot (lines b) row = Ok (t ++ 0 :: s).
Proof.
  intros Hok Hr Ht.
  destruct (text_lookup_len _ _ _ Hok Ht Hr) as [HL Hrow]. split; [done|].
  destruct (buf_ok_at b row Hok Hrow) as (l1&t0&s&l2&n1&n2&Hb&->&Hn1&_&_&_&_&HT&Hl).
  rewrite HT, <- Hl, list_lookup_middle in Ht by done. injection Ht as ->.
  exists s. rewrite Hb. simpl. by apply slot_app.
Qed.

Lemma window_split (W : list Z) (a b : nat) :
  (a ≤ b)%nat → take a W ++ drop a (take b W) ++ drop b W = W.
Proof.
  intros Hab. rewrite app_assoc.
  replace (take a W) with (take a (take b W)) by (rewrite take_take; f_equal; lia).
  by rewrite take_drop, take_drop.
Qed.

(** The bytes [draw_line_with_highlight] sends for a line, as a function
    of its window. *)
Lemma draw_line_window (e : V3.Editor) (row : Z) (t : list Z) :
  buf_ok (buf (V3.doc e)) → 0 ≤ row →
  text (buf (V3.doc e)) !! Z.to_nat row = Some t →
  0 ≤ V3.coloff (V3.view e) → 0 ≤ V3.screencols (V3.view e) → hl_inside e →
  let W := window t (V3.coloff (V3.view e)) (V3.screencols (V3.view e)) in
  let a := Z.to_nat (V3.hl_col e - V3.coloff (V3.view e)) in
  let b := Z.to_nat (V3.hl_col e + V3.hl_len e - V3.coloff (V3.view e)) in
  V3.draw_line_with_highlight e row
  = Ok (if decide (row = V3.hl_row e ∧ V3.hl_len e > 0 ∧ V3.hl_col e >= 0 ∧ W ≠ [] ∧
                   V3.hl_col e + V3.hl_len e - V3.coloff (V3.view e) > 0 ∧
                   V3.hl_col e - V3.coloff (V3.view e) < V3.screencols (V3.view e))
        then take a W ++ sgr_inverse ++ drop a (take b W) ++ sgr_reset ++ drop b W
        else W) ∧
  (V3.hl_len e > 0 → take a W ++ drop a (take b W) ++ drop b W = W).
Proof.
  intros Hok Hrow Ht Hleft Hmaxw Hhl. cbv zeta.
  set (left := V3.coloff (V3.view e)) in *.
  set (maxw := V3.screencols (V3.view e)) in *.
  remember (window t left maxw) as W eqn:EW.
  split; [|intros Hpos; apply window_split; lia].
  destruct (line_block _ _ _ Hok Hrow Ht) as (HL & s & Hblk).
  pose proof (window_length t left maxw Hleft Hmaxw) as HW. rewrite <- EW in HW.
  pose proof (Zlen_nonneg W) as HW0. pose proof (Zlen_nonneg t) as Ht0.
  unfold V3.draw_line_with_highlight. cbv zeta. fold left maxw.
  rewrite HL. cbn [mbind res_bind]. rewrite <- HW.
  destruct (decide (Zlen W = 0)) as [Hz|Hz].
  { assert (W = []) as -> by (destruct W; [done|unfold Zlen in Hz; simpl in Hz; lia]).
    rewrite decide_False; [done|]. by intros (_&_&_&?&_). }
  assert (Hne : W ≠ []) by (intros E; rewrite E in Hz; done).
  assert (Hin : left < Zlen t).
  { destruct (decide (Zlen t - left < 0)); [|destruct (decide (Zlen t - left = 0))].
    - revert HW. repeat case_decide; lia.
    - revert HW. repeat case_decide; lia.
    - lia. }
  assert (Hwl : Zlen W ≤ maxw ∧ Zlen W ≤ Zlen t - left ∧
                (Zlen W = maxw ∨ Zlen W = Zlen t - left)).
  { revert HW. repeat case_decide; lia. }
  clear HW. rewrite Hblk. cbn [mbind res_bind].
  assert (Hpk : ∀ i n, 0 ≤ i → 0 ≤ n → i + n ≤ Zlen W →
            peek (t ++ 0 :: s) (left + i) n
            = Ok (take (Z.to_nat n) (drop (Z.to_nat i) W))).
  { intros i n Hi Hn Hle. subst W. apply peek_window; lia. }
  assert (Hplain : peek (t ++ 0 :: s) left (Zlen W) = Ok W).
  { replace left with (left + 0) at 1 by lia.
    rewrite Hpk by lia.
    rewrite drop_0, take_ge; [done|]. unfold Zlen. lia. }
  destruct (decide (row = V3.hl_row e ∧ V3.hl_len e > 0 ∧ V3.hl_col e >= 0))
    as [(Hr & Hlen & Hcol)|Hno].
  2:{ rewrite Hplain. rewrite decide_False; [done|].
      intros (?&?&?&_). by apply Hno. }
  destruct (Hhl Hlen Hcol) as (_ & t' & Ht' & Hins).
  rewrite <- Hr, Ht in Ht'. injection Ht' as <-.
  destruct (decide (V3.hl_col e + V3.hl_len e - left <= 0 ∨ V3.hl_col e - left >= maxw))
    as [Hout|Hvis].
  { rewrite Hplain. rewrite decide_False; [done|]. lia. }
  match goal with
  | |- _ = Ok (if decide ?P then _ else _) =>
      rewrite (decide_True (P := P)) by (split_and!; [done|lia|lia|done|lia|lia])
  end.
  set (hstart := V3.hl_col e - left) in *.
  set (hend := V3.hl_col e + V3.hl_len e - left) in *.
  assert (Hst : hstart = V3.hl_col e - left) by done.
  assert (Hen : hend = hstart + V3.hl_len e) by (unfold hstart, hend; lia).
  set (hs := if decide (hstart < 0) then 0 else hstart).
  set (he := if decide (hend > Zlen W) then Zlen W else hend).
  assert (Hhs : hs = Z.of_nat (Z.to_nat hstart)) by (unfold hs; case_decide; lia).
  assert (Hhe : 0 ≤ hs < he ∧ he ≤ Zlen W ∧ he ≤ hend).
  { unfold hs, he. repeat case_decide; lia. }
  assert (Hbefore : (if decide (hs > 0) then peek (t ++ 0 :: s) left hs else Ok [])
                    = Ok (take (Z.to_nat hstart) W)).
  { case_decide.
    - replace left with (left + 0) at 1 by lia.
      rewrite Hpk by lia.
      rewrite drop_0. do 2 f_equal. lia.
    - replace (Z.to_nat hstart) with 0%nat by lia. done. }
  assert (Hmarked : peek (t ++ 0 :: s) (left + hs) (he - hs)
                    = Ok (drop (Z.to_nat hstart) (take (Z.to_nat hend) W))).
  { rewrite Hpk by lia.
    f_equal. rewrite skipn_firstn_comm.
    replace (Z.to_nat hs) with (Z.to_nat hstart) by lia.
    unfold he in *. destruct (decide (hend > Zlen W)).
    - rewrite !take_ge; [done|rewrite length_drop; unfold Zlen in *; lia..].
    - f_equal. lia. }
  assert (Hafter : (if decide (he < Zlen W)
                    then peek (t ++ 0 :: s) (left + he) (Zlen W - he) else Ok [])
                   = Ok (drop (Z.to_nat hend) W)).
  { unfold he in *. destruct (decide (hend > Zlen W)) as [Hg|Hg].
    - rewrite decide_False by lia. f_equal. symmetry. apply drop_ge.
      unfold Zlen in *. lia.
    - destruct (decide (hend < Zlen W)).
      + rewrite Hpk by lia. f_equal. apply take_ge. rewrite length_drop.
        unfold Zlen in *. lia.
      + f_equal. symmetry. apply drop_ge. unfold Zlen in *. lia. }
  fold hs he. rewrite Hbefore. cbn [mbind res_bind].
  rewrite Hmarked. cbn [mbind res_bind]. rewrite Hafter. cbn [mbind res_bind]. done.
Qed.

(** X27.  [draw_line_with_highlight] on a line of a well-formed buffer,
    with column offset and screen width not negative and the highlight,
    if switched on, inside its line.  No byte outside the line is read.
    What is handed to [xwrite] is the window of the line, that is the
    bytes from the column offset on, at most a screen width of them; on
    the highlighted line the part of the match that falls into the
    window is wrapped in the inverse-video and reset sequences, and
    nothing of the window is dropped, repeated or reordered. *)
Theorem draw_line_shows_the_window (e : V3.Editor) (row : Z) (t : list Z) :
  buf_ok (buf (V3.doc e)) → 0 ≤ row →
  text (buf (V3.doc e)) !! Z.to_nat row = Some t →
  0 ≤ V3.coloff (V3.view e) → 0 ≤ V3.screencols (V3.view e) → hl_inside e →
  let W := window t (V3.coloff (V3.view e)) (V3.screencols (V3.view e)) in
  let a := Z.to_nat (V3.hl_col e - V3.coloff (V3.view e)) in
  let b := Z.to_nat (V3.hl_col e + V3.hl_len e - V3.coloff (V3.view e)) in
  V3.draw_line_with_highlight e row
  = Ok (if decide (row = V3.hl_row e ∧ V3.hl_len e > 0 ∧ V3.hl_col e >= 0 ∧ W ≠ [] ∧
                   V3.hl_col e + V3.hl_len e - V3.coloff (V3.view e) > 0 ∧
                   V3.hl_col e - V3.coloff (V3.view e) < V3.screencols (V3.view e))
        then take a W ++ sgr_inverse ++ drop a (take b W) ++ sgr_reset ++ drop b W
        else W) ∧
  (V3.hl_len e > 0 → take a W ++ drop a (take b W) ++ drop b W = W).
Proof. apply draw_line_window. Qed.

Lemma draw_line_shows_the_window_witness :
  V3.draw_line_with_highlight sample_narrow3 0
  = Ok (sgr_inverse ++ [99; 100] ++ sgr_reset ++ [101]) ∧
  (V3.hl_len sample_narrow3 > 0 →
   [] ++ [99; 100] ++ [101] = window [97; 98; 99; 100; 101; 102] 2 3).
Proof.
  apply (draw_line_shows_the_window sample_narrow3 0 [97; 98; 99; 100; 101; 102]).
  - sample_buf_ok.
  - lia.
  - reflexivity.
  - simpl. lia.
  - simpl. lia.
  - intros _ _. split; [simpl; lia|].
    exists [97; 98; 99; 100; 101; 102]. split; [reflexivity|].
    unfold Zlen. simpl. lia.
Defined.

(** * Version 0.3: the highlight and the scroll offsets through a session *)

Section V3_drawing.
Import V3.

Lemma hl_inside_frame e e' :
  hl_inside e → text (buf (doc e')) = text (buf (doc e)) →
  hl_row e' = hl_row e → hl_col e' = hl_col e → hl_len e' = hl_len e →
  hl_inside e'.
Proof. unfold hl_inside. by intros H -> -> -> ->. Qed.

Lemma hl_inside_off e : hl_len e ≤ 0 → hl_inside e.
Proof. unfold hl_inside. intros. lia. Qed.

Lemma offsets_ok_frame e e' :
  offsets_ok e → rowoff (view e') = rowoff (view e) →
  coloff (view e') = coloff (view e) → offsets_ok e'.
Proof. unfold offsets_ok. by intros H -> ->. Qed.

Lemma draw_offsets e :
  0 ≤ cx (view e) → 0 ≤ cy (view e) → offsets_ok e →
  offsets_ok (editor_draw_screen e).
Proof.
  unfold offsets_ok, editor_draw_screen. simpl. rewrite v3_scroll_adjust. simpl.
  intros Hx Hy [Hr Hc]. split; by apply adjust_nonneg.
Qed.

Lemma dimensions_offsets os e :
  rowoff (view (editor_update_dimensions os e).1.2) = rowoff (view e) ∧
  coloff (view (editor_update_dimensions os e).1.2) = coloff (view e).
Proof.
  unfold editor_update_dimensions.
  by destruct (get_window_size os) as [[[rows cols]|] os'].
Qed.

Lemma editor_prompt_offsets fuel os e prompt out os' e' ans :
  editor_prompt fuel os e prompt out = Ok (os', e', ans) →
  0 ≤ cx (view e) → 0 ≤ cy (view e) → offsets_ok e → offsets_ok e'.
Proof.
  revert os e out. induction fuel as [|f IH]; intros os e out; [done|].
  simpl.
  destruct (editor_read_key (stdin os)) as [[c rest]|]; [|done].
  simpl.
  set (e1 := editor_draw_screen (editor_set_status e (MsgPrompt prompt out))).
  intros H Hx Hy Ho.
  assert (H1 : offsets_ok e1 ∧ 0 ≤ cx (view e1) ∧ 0 ≤ cy (view e1)).
  { split; [by apply draw_offsets|].
    destruct (v3_scroll_frame (view e)) as (Ex & Ey & _).
    subst e1. unfold editor_draw_screen. simpl. rewrite Ex, Ey. done. }
  destruct H1 as (Ho1 & Hx1 & Hy1).
  assert (Hrec : ∀ out', editor_prompt f (set_stdin os rest) e1 prompt out'
                         = Ok (os', e', ans) → offsets_ok e').
  { intros out' H'. by eapply IH. }
  revert H. case_decide.
  { by intros [= <- <- <-]. }
  case_decide.
  { case_decide; [|apply Hrec]. by intros [= <- <- <-]. }
  case_decide.
  { case_decide; apply Hrec. }
  destruct (isprint c); [case_decide|]; apply Hrec.
Qed.

(** A match switches the highlight on inside its line. *)
Lemma find_next_paint e fc e' found :
  inv e → editor_find_next e fc = Ok (e', found) → hl_inside e → offsets_ok e →
  hl_inside e' ∧ offsets_ok e'.
Proof.
  intros Hi He Hh Ho.
  destruct (decide (last_query e = [])) as [Hq|Hq].
  { revert He. unfold editor_find_next. rewrite decide_True by done.
    by intros [= <- <-]. }
  rewrite (editor_find_next_text e fc Hi Hq) in He.
  destruct (find_start_nonneg e fc Hi Hq) as [Hr Hc].
  destruct (scan_text _ _ _ _) as [[r col]|] eqn:E; [|by injection He as <- <-].
  injection He as <- <-.
  destruct (scan_text_sound _ _ _ _ _ Hr Hc E) as (H1 & H2 & t & Ht & Hl & _).
  simpl in *. split; [|done].
  intros _ _. simpl. split; [done|]. by exists t.
Qed.

Lemma editor_find_paint os e os' e' :
  inv e → hl_inside e → offsets_ok e → editor_find os e = Ok (os', e') →
  hl_inside e' ∧ offsets_ok e'.
Proof.
  intros Hi Hh Ho. unfold editor_find.
  destruct (editor_prompt_cases (S (length (stdin os))) os e "/" [] ltac:(lia))
    as [(os1 & e1 & ans & Hp & Hsame & _)|[->| ->]]; [|done..].
  rewrite Hp. simpl.
  pose proof (same_but_screen_inv _ _ Hsame Hi) as Hi1.
  destruct (inv_elim e Hi) as (_ & Hy & _ & _ & t & _ & _ & Hx).
  pose proof (editor_prompt_offsets _ _ _ _ _ _ _ _ Hp ltac:(lia) ltac:(lia) Ho)
    as Ho1.
  assert (Hh1 : hl_inside e1).
  { destruct Hsame as (Hd&_&_&_&_&_&_&_&H1&H2&H3&_).
    eapply hl_inside_frame; [exact Hh|by rewrite Hd|done..]. }
  destruct ans as [query|]; simpl.
  - set (e2 := mkEditor _ _ _ _ query _ _ _ _ _ _).
    assert (Hi2 : inv e2).
    { destruct (inv_elim e1 Hi1) as (Hok & Hyr & Hpr & _ & t1 & Ht1 & _ & Hxr).
      apply (inv_intro _ t1); try done; [simpl; lia|].
      right. simpl. lia. }
    destruct (editor_find_next e2 true) as [[e3 found]|] eqn:E; [|done]. simpl.
    destruct (find_next_paint _ _ _ _ Hi2 E) as [Hh3 Ho3]; [done..|].
    destruct found; intros [= <- <-].
    + split; [eapply hl_inside_frame; [exact Hh3|done..]|].
      eapply offsets_ok_frame; [exact Ho3|done..].
    + split; [apply hl_inside_off; simpl; lia|].
      eapply offsets_ok_frame; [exact Ho3|done..].
  - intros [= <- <-]. split; [apply hl_inside_off; simpl; lia|].
    eapply offsets_ok_frame; [exact Ho1|done..].
Qed.

Lemma move_vert_offsets e key e' :
  editor_move_cursor_vert e key = Ok e' →
  rowoff (view e') = rowoff (view e) ∧ coloff (view e') = coloff (view e).
Proof.
  unfold editor_move_cursor_vert. cbv zeta.
  destruct (slot _ _); [|done]. simpl. by intros [= <-].
Qed.

Lemma move_offsets e key e' :
  key = 1001 ∨ key = 1002 ∨ key = 1003 ∨ key = 1004 ∨ key = 72 ∨ key = 69 →
  editor_move_cursor e key = Ok e' →
  rowoff (view e') = rowoff (view e) ∧ coloff (view e') = coloff (view e).
Proof.
  intros Hk. unfold editor_move_cursor.
  destruct Hk as [->|[->|[->|[->|[->| ->]]]]]; cbv zeta; simpl.
  - destruct (slot _ _); [|done]. simpl. by intros [= <-].
  - destruct (if decide (_ < _) then _ else _) as [d|]; [|done]. simpl.
    destruct (slot _ _); [|done]. simpl. by intros [= <-].
  - case_decide; [|by intros [= <-]].
    destruct (slot _ _); [|done]. simpl.
    repeat case_decide; by intros [= <-].
  - case_decide; [by intros [= <-]|].
    case_decide; [|by intros [= <-]].
    destruct (slot _ _); [|done]. simpl. by intros [= <-].
  - by intros [= <-].
  - destruct (slot _ _); [|done]. simpl. by intros [= <-].
Qed.

Lemma insert_char_offsets e c e' :
  editor_insert_char e c = Ok e' →
  hl_len e' = -1 ∧ rowoff (view e') = rowoff (view e)
  ∧ coloff (view e') = coloff (view e).
Proof.
  unfold editor_insert_char. cbv zeta.
  destruct (buffer_insert_char _ _ _ _); [|done]. simpl. by intros [= <-].
Qed.

Lemma insert_newline_offsets e e' :
  editor_insert_newline e = Ok e' →
  hl_len e' = -1 ∧ rowoff (view e') = rowoff (view e)
  ∧ coloff (view e') = coloff (view e).
Proof.
  unfold editor_insert_newline. cbv zeta.
  destruct (buffer_split_line _ _ _); [|done]. simpl. by intros [= <-].
Qed.

Lemma backspace_offsets e e' :
  editor_backspace e = Ok e' →
  hl_len e' = -1 ∧ rowoff (view e') = rowoff (view e)
  ∧ coloff (view e') = coloff (view e).
Proof.
  unfold editor_backspace. cbv zeta.
  case_decide.
  { destruct (buffer_delete_char _ _ _); [|done]. simpl. by intros [= <-]. }
  case_decide; [|by intros [= <-]].
  destruct (slot _ _); [|done]. simpl.
  destruct (buffer_join_with_prev _ _); [|done]. simpl. by intros [= <-].
Qed.

Lemma main_dispatch_paint os e c os' e' rd ex :
  inv e → hl_inside e → offsets_ok e →
  main_dispatch os e c = Ok (os', e', rd, ex) →
  hl_inside e' ∧ offsets_ok e'.
Proof.
  intros Hi Hh Ho. unfold main_dispatch.
  case_decide.
  { destruct (dirty (doc e) && bool_decide (quit_times_needed e > 0));
      intros [= <- <- <- <-]; [|done].
    split; [eapply hl_inside_frame; [exact Hh|done..]|].
    eapply offsets_ok_frame; [exact Ho|done..]. }
  case_decide.
  { destruct (editor_save_atomic os e) as [[[os1 e1] saved]|] eqn:E; [|done].
    simpl. apply v3_save_spec in E. cbv zeta in E. destruct E as (_ & _ & Hr).
    destruct saved; destruct Hr as [-> _]; intros [= <- <- <- <-].
    - split; [eapply hl_inside_frame; [exact Hh|done..]|].
      eapply offsets_ok_frame; [exact Ho|done..].
    - split; [eapply hl_inside_frame; [exact Hh|done..]|].
      eapply offsets_ok_frame; [exact Ho|done..]. }
  case_decide.
  { destruct (editor_find os e) as [[os1 e1]|] eqn:E; [|done]. simpl.
    destruct (editor_find_paint _ _ _ _ Hi Hh Ho E) as [Hh1 Ho1].
    intros [= <- <- <- <-].
    split; [eapply hl_inside_frame; [exact Hh1|done..]|].
    eapply offsets_ok_frame; [exact Ho1|done..]. }
  case_decide.
  { destruct (editor_find_next e false) as [[e1 found]|] eqn:E; [|done]. simpl.
    destruct (find_next_paint _ _ _ _ Hi E Hh Ho) as [Hh1 Ho1].
    destruct found; intros [= <- <- <- <-].
    - split; [eapply hl_inside_frame; [exact Hh1|done..]|].
      eapply offsets_ok_frame; [exact Ho1|done..].
    - split; [eapply hl_inside_frame; [exact Hh1|done..]|].
      eapply offsets_ok_frame; [exact Ho1|done..]. }
  case_decide.
  { destruct (editor_move_cursor_vert e c) as [e1|] eqn:E; [|done]. simpl.
    destruct (move_vert_offsets _ _ _ E) as [Erow Ecol].
    intros [= <- <- <- <-].
    split; [apply hl_inside_off; simpl; lia|].
    eapply offsets_ok_frame; [exact Ho|done..]. }
  case_decide as Hk.
  { destruct (editor_move_cursor e c) as [e1|] eqn:E; [|done]. simpl.
    destruct (move_offsets e c e1 Hk E) as [Erow Ecol].
    intros [= <- <- <- <-].
    split; [apply hl_inside_off; simpl; lia|].
    eapply offsets_ok_frame; [exact Ho|done..]. }
  case_decide.
  { destruct (editor_insert_newline e) as [e1|] eqn:E; [|done]. simpl.
    destruct (insert_newline_offsets _ _ E) as (Elen & Erow & Ecol).
    intros [= <- <- <- <-].
    split; [apply hl_inside_off; simpl; lia|].
    eapply offsets_ok_frame; [exact Ho|done..]. }
  case_decide.
  { destruct (editor_backspace e) as [e1|] eqn:E; [|done]. simpl.
    destruct (backspace_offsets _ _ E) as (Elen & Erow & Ecol).
    intros [= <- <- <- <-].
    split; [apply hl_inside_off; simpl; lia|].
    eapply offsets_ok_frame; [exact Ho|done..]. }
  destruct (isprint c).
  { destruct (editor_insert_char e c) as [e1|] eqn:E; [|done]. simpl.
    destruct (insert_char_offsets _ _ _ E) as (Elen & Erow & Ecol).
    intros [= <- <- <- <-].
    split; [apply hl_inside_off; simpl; lia|].
    eapply offsets_ok_frame; [exact Ho|done..]. }
  by intros [= <- <- <- <-].
Qed.

Lemma draw_paint e :
  inv e → hl_inside e → offsets_ok e →
  hl_inside (editor_draw_screen e) ∧ offsets_ok (editor_draw_screen e).
Proof.
  intros Hi Hh Ho.
  destruct (inv_elim e Hi) as (_ & Hy & _ & _ & t & _ & _ & Hx).
  split; [|apply draw_offsets; [lia|lia|done]].
  eapply hl_inside_frame; [exact Hh|done..].
Qed.

Lemma main_iter_paint os e os' e' x :
  inv e → hl_inside e → offsets_ok e →
  main_iter os e = Ok (os', e', x) → hl_inside e' ∧ offsets_ok e'.
Proof.
  intros Hi Hh Ho. unfold main_iter.
  destruct (editor_read_key (stdin os)) as [[c inp]|]; [|done]. simpl.
  destruct (main_dispatch_inv (set_stdin os inp) e c Hi)
    as [([[[os1 e1] rd] ex] & Hd & Hi1)|[Hd|Hd]]; simpl in Hd; rewrite Hd;
    [|done..].
  destruct (main_dispatch_paint _ _ _ _ _ _ _ Hi Hh Ho Hd) as [Hh1 Ho1].
  simpl. destruct ex; [by intros [= <- <- <-]|].
  pose proof (dimensions_inv os1 e1 Hi1) as Hi2.
  pose proof (dimensions_same os1 e1) as Hs.
  pose proof (dimensions_offsets os1 e1) as [Hr2 Hc2].
  destruct (editor_update_dimensions os1 e1) as [[os2 e2] changed].
  simpl in Hi2, Hs, Hr2, Hc2.
  assert (Hh2 : hl_inside e2).
  { destruct Hs as (Hdoc&_&_&_&_&_&_&_&H1&H2&H3&_).
    eapply hl_inside_frame; [exact Hh1|by rewrite Hdoc|done..]. }
  assert (Ho2 : offsets_ok e2) by (eapply offsets_ok_frame; [exact Ho1|done..]).
  destruct (changed || rd); intros [= <- <- <-]; [|done].
  by apply draw_paint.
Qed.

Lemma main_init_paint os arg os' e :
  main_init os arg = Ok (os', e) → hl_inside e ∧ offsets_ok e.
Proof.
  intros H. pose proof (main_init_inv _ _ _ _ H) as Hi. revert H.
  unfold main_init.
  set (e0 := set_doc globals0 _).
  assert (Hrest : ∀ e1, hl_len e1 = 0 →
            (let e := set_view e1 (mkView 0 0 0 0 (screenrows (view e1))
                                          (screencols (view e1)) 0) in
             let '(os, e, _) := editor_update_dimensions os e in
             Ok (os, editor_draw_screen (editor_set_status e MsgHelp)))
            = Ok (os', e) → hl_inside e ∧ offsets_ok e).
  { intros e1 Hl. cbv zeta.
    set (e2 := set_view e1 _).
    pose proof (dimensions_same os e2) as Hs.
    pose proof (dimensions_offsets os e2) as [Hr Hc].
    destruct (editor_update_dimensions os e2) as [[os3 e3] ch].
    simpl in Hs, Hr, Hc.
    destruct Hs as (_&_&Hx&Hy&_&_&_&_&_&_&H3&_).
    unfold e2 in Hx, Hy, H3, Hr, Hc. simpl in Hx, Hy, H3, Hr, Hc.
    intros [= <- <-]. split.
    - apply hl_inside_off. simpl. lia.
    - apply draw_offsets; simpl; [lia|lia|].
      split; simpl; lia. }
  destruct arg as [path|]; simpl.
  - unfold editor_open.
    destruct (fs os !! path) as [content|].
    + destruct (load_file_refines content) as (d & -> & _).
      simpl. by apply Hrest.
    + simpl. by apply Hrest.
  - by apply Hrest.
Qed.

Lemma reachable_state_paint e :
  reachable_state e → hl_inside e ∧ offsets_ok e.
Proof.
  induction 1 as [os arg os' e H|os e os' e' x Hr [Hh Ho] H].
  - by eapply main_init_paint.
  - eapply main_iter_paint; [by apply reachable_state_inv|done..].
Qed.

Lemma draw_rows_returns n e y :
  buf_ok (buf (doc e)) → hl_inside e → offsets_ok e →
  0 ≤ screencols (view e) → 0 ≤ y →
  ∃ out, draw_rows n e y = Ok out ∧ (7 * Z.of_nat n ≤ Zlen out).
Proof.
  intros Hok Hh [Hr Hc] Hs. revert y.
  induction n as [|n IH]; intros y Hy; [by exists []|].
  cbn [draw_rows]. cbv zeta.
  destruct (IH (y + 1) ltac:(lia)) as (rest & Hrest & Hlen).
  assert (Hline : ∃ line,
            (if decide (rowoff (view e) + y < count (buf (doc e)))
             then draw_line_with_highlight e (rowoff (view e) + y) else Ok [])
            = Ok line).
  { case_decide as Hc'; [|by eexists].
    assert (Hrow : 0 ≤ rowoff (view e) + y < count (buf (doc e))) by lia.
    destruct (row_text _ _ Hok Hrow) as (t & Ht & _).
    destruct (draw_line_window e _ t Hok (proj1 Hrow) Ht Hc Hs Hh) as [-> _].
    by eexists. }
  destruct Hline as [line ->]. simpl. rewrite Hrest. simpl.
  eexists. split; [done|].
  pose proof (Zlen_nonneg line).
  unfold Zlen in *. simpl. rewrite length_app. simpl. lia.
Qed.
End V3_drawing.

(** X28.  Drawing never leaves the lines.  From a state the session of
    version 0.3 reaches, on a terminal whose width is not negative,
    [editor_draw_screen] scrolls and then draws any number of screen rows
    from the top without reading a byte outside a line of the buffer:
    the row loop returns the bytes for the terminal, at least the seven
    of the clear-line sequence and the line end for each row.  The
    highlight of a search is either switched off or lies inside its
    line, whatever was edited since, and the scroll offsets are never
    negative. *)
Theorem drawing_stays_inside_the_lines (e : V3.Editor) (n : nat) :
  V3.reachable_state e → 0 ≤ V3.screencols (V3.view e) →
  hl_inside e ∧ offsets_ok e ∧
  ∃ out, V3.draw_rows n (V3.editor_draw_screen e) 0 = Ok out ∧
         7 * Z.of_nat n ≤ Zlen out.
Proof.
  intros Hr Hs. pose proof (reachable_state_inv e Hr) as Hi.
  destruct (reachable_state_paint e Hr) as [Hh Ho].
  split; [done|]. split; [done|].
  destruct (draw_paint e Hi Hh Ho) as [Hh' Ho'].
  pose proof (draw_inv e Hi) as Hi'.
  apply draw_rows_returns; try done.
  - by destruct Hi'.
  - destruct (v3_scroll_frame (V3.view e)) as (_&_&_&_&E).
    unfold V3.editor_draw_screen. simpl. by rewrite E.
Qed.

Lemma drawing_stays_inside_the_lines_witness :
  hl_inside sample_fresh3 ∧ offsets_ok sample_fresh3 ∧
  ∃ out, V3.draw_rows 22 (V3.editor_draw_screen sample_fresh3) 0 = Ok out ∧
         7 * Z.of_nat 22 ≤ Zlen out.
Proof.
  apply (drawing_stays_inside_the_lines sample_fresh3 22).
  - apply (V3.rs_init sample_os_idle None sample_os_idle).
    vm_compute. reflexivity.
  - simpl. lia.
Defined.

(** * Version 0.1: the rows of the screen *)

(** With the cursor on the only line, the scrolled window starts at that
    line: the row the banner is written for does not come up. *)
Lemma v1_no_banner_row (e : V1.Editor) (y : Z) :
  wf1 e → 0 ≤ y < V1.screenrows (V1.view e) - 1 →
  count (buf (V1.doc e)) = 1 →
  V1.rowoff (V1.editor_scroll (V1.view e)) + y >= count (buf (V1.doc e)) →
  y ≠ 0.
Proof.
  intros Hw Hy Hc Hge. destruct (wf1_elim e Hw) as (_ & Hcy & _).
  rewrite v1_scroll_adjust in Hge. simpl in Hge.
  pose proof (adjust_visible (V1.cy (V1.view e)) (V1.rowoff (V1.view e))
                (V1.screenrows (V1.view e) - 1) ltac:(lia)).
  lia.
Qed.

(** X29.  The rows version 0.1 draws.  [main] scrolls before every
    [editor_draw_screen].  From a well-formed state, for each of the
    [screenrows - 1] rows of the loop, the branch that writes the file
    name after a tilde is never taken: the window then starts at or
    above the cursor line, so the first row always shows a line of the
    buffer.  With a row offset that is not negative, a column offset
    that is not positive and a width that is not negative, a row inside
    the buffer shows the first [screencols] bytes of its line, read
    inside the line, and a row below the buffer shows a single tilde. *)
Theorem banner_of_version_0_1_is_never_drawn (e : V1.Editor) (y : Z) :
  wf1 e → 0 ≤ y < V1.screenrows (V1.view e) - 1 →
  let e' := V1.set_view e (V1.editor_scroll (V1.view e)) in
  (∀ name, V1.draw_row e' y ≠ Ok (V1.RowBanner name)) ∧
  (0 ≤ V1.rowoff (V1.view e) → V1.coloff (V1.view e) ≤ 0 →
   0 ≤ V1.screencols (V1.view e) →
   V1.draw_row e' y
   = Ok (match text (buf (V1.doc e)) !! Z.to_nat (V1.rowoff (V1.view e') + y) with
         | Some t => V1.RowText (take (Z.to_nat (V1.screencols (V1.view e))) t)
         | None => V1.RowTilde
         end)).
Proof.
  intros Hw Hy. cbv zeta.
  destruct (wf1_elim e Hw) as (Hok & Hcy & _).
  pose proof (v1_no_banner_row e y Hw Hy) as Hnb.
  set (ro := V1.rowoff (V1.editor_scroll (V1.view e))) in *.
  assert (Hsc : V1.screencols (V1.editor_scroll (V1.view e)) = V1.screencols (V1.view e)
                ∧ V1.coloff (V1.editor_scroll (V1.view e))
                  = (if decide (V1.coloff (V1.view e) < 0) then 0
                     else V1.coloff (V1.view e))
                ∧ ro = adjust (V1.cy (V1.view e)) (V1.rowoff (V1.view e))
                         (V1.screenrows (V1.view e) - 1)).
  { unfold ro. by rewrite v1_scroll_adjust. }
  destruct Hsc as (Esc & Eco & Ero).
  split.
  - intros name. unfold V1.draw_row. cbv zeta. simpl. fold ro.
    destruct (decide (ro + y >= count (buf (V1.doc e)))) as [Hge|Hlt].
    + destruct (decide (count (buf (V1.doc e)) = 1)) as [Hc|Hc]; [|done].
      destruct (slot _ 0) as [L0|]; [|done]. simpl.
      rewrite decide_False; [done|]. intros [_ H0]. by apply (Hnb Hc Hge).
    + destruct (slot (len _) _); [|done]. simpl.
      destruct (slot (lines _) _); [|done]. simpl.
      destruct (peek _ _ _); done.
  - intros Hro Hco Hcols.
    assert (Hro' : 0 ≤ ro) by (rewrite Ero; apply adjust_nonneg; lia).
    unfold V1.draw_row. cbv zeta. simpl. fold ro. rewrite Esc, Eco.
    replace (if decide (V1.coloff (V1.view e) < 0) then 0 else V1.coloff (V1.view e))
      with 0 by (case_decide; lia).
    pose proof (text_length _ Hok) as HTl.
    destruct (decide (ro + y >= count (buf (V1.doc e)))) as [Hge|Hlt].
    + rewrite (lookup_ge_None_2 (text _)) by (unfold Zlen in HTl; lia).
      destruct (decide (count (buf (V1.doc e)) = 1)) as [Hc|Hc]; [|done].
      destruct (row_text _ 0 Hok ltac:(lia)) as (t0 & _ & ->). simpl.
      rewrite decide_False; [done|]. intros [_ H0]. by apply (Hnb Hc Hge).
    + assert (Hrow : 0 ≤ ro + y < count (buf (V1.doc e))) by lia.
      destruct (row_text _ _ Hok Hrow) as (t & Ht & HL).
      destruct (line_block _ _ _ Hok (proj1 Hrow) Ht) as (_ & s & Hblk).
      rewrite HL, Ht. simpl. rewrite Hblk. simpl.
      pose proof (Zlen_nonneg t) as Ht0.
      set (n := if decide ((if decide (Zlen t - 0 < 0) then 0 else Zlen t - 0)
                           > V1.screencols (V1.view e))
                then V1.screencols (V1.view e)
                else if decide (Zlen t - 0 < 0) then 0 else Zlen t - 0).
      assert (Hn : 0 ≤ n ≤ Zlen t ∧
                   (n = V1.screencols (V1.view e) ∨
                    (n = Zlen t ∧ Zlen t ≤ V1.screencols (V1.view e)))).
      { unfold n. repeat case_decide; lia. }
      pose proof (Zlen_nonneg s) as Hs0. clearbody n.
      unfold peek. rewrite decide_True by (rewrite Zlen_app, Zlen_cons; lia).
      simpl. do 2 f_equal. rewrite drop_0.
      rewrite take_app_le by (unfold Zlen in *; lia).
      destruct Hn as (_ & [->|[-> Hle]]); [done|].
      rewrite !take_ge; [done|unfold Zlen in *; lia..].
Qed.

Lemma banner_of_version_0_1_is_never_drawn_witness :
  (∀ name,
     V1.draw_row (V1.set_view sample_long_short1
                    (V1.editor_scroll (V1.view sample_long_short1))) 1
     ≠ Ok (V1.RowBanner name)) ∧
  (0 ≤ V1.rowoff (V1.view sample_long_short1) →
   V1.coloff (V1.view sample_long_short1) ≤ 0 →
   0 ≤ V1.screencols (V1.view sample_long_short1) →
   V1.draw_row (V1.set_view sample_long_short1
                  (V1.editor_scroll (V1.view sample_long_short1))) 1
   = Ok (V1.RowText [120])).
Proof.
  apply (banner_of_version_0_1_is_never_drawn sample_long_short1 1).
  - split; [sample_buf_ok|].
    split; simpl; [lia|]. exists 4. split; [reflexivity|lia].
  - simpl. lia.
Defined.
